(** * Finance-RAG: document processor, record store, similarity search, tools

    A shallow embedding of
      - the document processor (src/mastra/workflows/documentProcessor.ts):
        [parsePDFs], [extractTextFromPDF], [extractYearFromFilename],
        [chunkDocument], [createDocumentChunks], [createEmbedding],
        [generateEmbeddings] and [processDocuments];
      - the vector store (src/mastra/db/vectorStore.ts): [initialize],
        [storeDocuments], [calculateCosineSimilarity], [searchSimilar],
        [searchByText], [getStats], [close] and [setupVectorDatabase];
      - the tools (src/mastra/tools/ragTools.ts): [vectorSearch],
        [filterDocuments] and [getDocumentStats];
      - the script (src/processDocuments.ts): [main];
    followed by the properties of the specification that concern them and
    by further properties of the code.

    Conventions.  A JavaScript string is the list of its UTF-16 code units.
    Indices, lengths, the chunk size and the overlap are integers ([Z]); they
    may be negative wherever JavaScript lets them be.  The [number]s the
    similarity code computes with are kept behind [JsNumber], whose
    instance is IEEE binary64, the numbers JavaScript has.  What comes
    from outside the program is a parameter: the directory and the PDF
    parser, the embedding service, the failures of the database server
    and the order in which it hands out rows and groups. *)

From Stdlib Require Import ZArith NArith List Bool Lia Ascii String.
From Stdlib Require Import Sorting.Sorted Sorting.Permutation.
From Stdlib Require Import DecimalString DecimalNat.
From Stdlib Require DecimalFacts.
From Stdlib Require Import Floats.
Import ListNotations.

Local Open Scope Z_scope.

(* ================================================================== *)
(** * JavaScript arrays *)
(* ================================================================== *)

Module JsArray.

(** The clamping of a relative index that [slice] applies to both of its
    arguments: a negative index counts from the end. *)
Definition clamp_index (len i : Z) : Z :=
  if i <? 0 then Z.max (len + i) 0 else Z.min i len.

(** [xs.slice(start, end)] *)
Definition slice {A : Type} (xs : list A) (start end_ : Z) : list A :=
  let len := Z.of_nat (List.length xs) in
  let from := clamp_index len start in
  let to := clamp_index len end_ in
  firstn (Z.to_nat (Z.max (to - from) 0)) (skipn (Z.to_nat from) xs).

Section Sort.

Context {A : Type}.

(** [x] goes in front of the first element that does not sort before
    it. *)
Fixpoint insert_by (before : A -> A -> bool) (x : A) (xs : list A) : list A :=
  match xs with
  | [] => [x]
  | y :: ys =>
      if before y x then y :: insert_by before x ys else x :: y :: ys
  end.

(** A stable sort: the elements are put in place from the last to the
    first, each in front of those it does not sort after. *)
Definition sort_by (before : A -> A -> bool) (xs : list A) : list A :=
  fold_right (insert_by before) [] xs.



End Sort.

End JsArray.

(* ================================================================== *)
(** * JavaScript strings *)
(* ================================================================== *)

Module JsString.

(** A UTF-16 code unit. *)
Definition code_unit := N.

Definition jsstring := list code_unit.

(** A string literal of the source, unit by unit. *)
Definition lit (s : string) : jsstring :=
  map N_of_ascii (list_ascii_of_string s).

(** [s.length] *)
Definition length (s : jsstring) : Z := Z.of_nat (List.length s).

(** [s.slice(start, end)]: the indices are read as those of an array
    are. *)
Definition slice (s : jsstring) (start end_ : Z) : jsstring :=
  JsArray.slice s start end_.

(** [s.lastIndexOf(c)] for a one-unit search string: scan left to right,
    remembering the last position where [c] was seen; [-1] when absent. *)
Fixpoint lastIndexOf_from (c : code_unit) (s : jsstring) (i found : Z) : Z :=
  match s with
  | [] => found
  | x :: xs => lastIndexOf_from c xs (i + 1) (if N.eqb x c then i else found)
  end.

Definition lastIndexOf (s : jsstring) (c : code_unit) : Z :=
  lastIndexOf_from c s 0 (-1).

(** ECMAScript WhiteSpace and LineTerminator code units, the ones
    [String.prototype.trim] strips. *)
Definition is_whitespace (c : code_unit) : bool :=
  ((9 <=? c) && (c <=? 13) || (c =? 32) || (c =? 160) || (c =? 5760)
   || (8192 <=? c) && (c <=? 8202) || (c =? 8232) || (c =? 8233)
   || (c =? 8239) || (c =? 8287) || (c =? 12288) || (c =? 65279))%N.

Fixpoint trimStart (s : jsstring) : jsstring :=
  match s with
  | [] => []
  | x :: xs => if is_whitespace x then trimStart xs else s
  end.

Definition trimEnd (s : jsstring) : jsstring := rev (trimStart (rev s)).

(** [s.trim()] *)
Definition trim (s : jsstring) : jsstring := trimEnd (trimStart s).

(** The first unit of a string, when it has one, is not white space. *)
Definition starts_clean (s : jsstring) : Prop :=
  match s with
  | [] => True
  | x :: _ => is_whitespace x = false
  end.

(** The decimal rendering of a non-negative integer, as a template
    literal interpolates it. *)
Definition of_nat (n : nat) : jsstring :=
  lit (NilEmpty.string_of_uint (Nat.to_uint n)).

Definition eqb (a b : jsstring) : bool :=
  if list_eq_dec N.eq_dec a b then true else false.

(** The number of characters of a string: a surrogate pair is one. *)
Definition is_high_surrogate (c : code_unit) : bool :=
  ((55296 <=? c) && (c <=? 56319))%N.

Definition is_low_surrogate (c : code_unit) : bool :=
  ((56320 <=? c) && (c <=? 57343))%N.

Fixpoint code_points (s : jsstring) : Z :=
  match s with
  | [] => 0
  | high :: rest =>
      match rest with
      | low :: rest' =>
          if is_high_surrogate high && is_low_surrogate low
          then 1 + code_points rest'
          else 1 + code_points rest
      | [] => 1
      end
  end.

Definition period : code_unit := 46%N.
Definition newline : code_unit := 10%N.

End JsString.

Import JsString.

(* ================================================================== *)
(** * The chunker *)
(* ================================================================== *)

Module Chunker.

(** An integer as a number of JavaScript: the binary64 number nearest to
    it, which is the integer itself below 2^53. *)
Definition number_of (z : Z) : float :=
  SF2Prim (binary_normalize prec emax z 0 false).

(** The integer a number is, when it is one. *)
Definition integer_of (x : float) : option Z :=
  match Prim2SF x with
  | S754_zero _ => Some 0
  | S754_finite s m e =>
      let magnitude :=
        if 0 <=? e then Some (Z.pos m * 2 ^ e)
        else if Z.pos m mod 2 ^ (- e) =? 0 then Some (Z.pos m / 2 ^ (- e))
        else None in
      match magnitude with
      | Some v => Some (if s then - v else v)
      | None => None
      end
  | _ => None
  end.

(** The product [chunkSize * 0.7] as JavaScript computes it, in binary64
    with the double nearest to seven tenths. *)
Definition threshold_double (chunkSize : Z) : float :=
  (number_of chunkSize * 0x1.6666666666666p-1)%float.

(** [boundary > start + chunkSize * 0.7].  The three operands are
    integers and the product is rounded to binary64.  Where the product
    is itself an integer (7 at the chunk size 10, 700 at 1000) the sum
    and the comparison are those of integers, which binary64 computes
    exactly below 2^53; where it is not (62.99999999999999 at 90) they
    are computed in binary64. *)
Definition past_threshold (boundary start chunkSize : Z) : bool :=
  match integer_of (threshold_double chunkSize) with
  | Some product => start + product <? boundary
  | None =>
      (number_of start + threshold_double chunkSize <? number_of boundary)%float
  end.

(** One pass through the body of the [while] loop of [chunkDocument],
    entered with [start < content.length]: the new value of [start] and
    the value of [chunk] when the trimming test is reached. *)
Definition chunk_step (content : jsstring) (chunkSize overlap start : Z)
  : Z * jsstring :=
  let end_ := Z.min (start + chunkSize) (length content) in
  let chunk := slice content start end_ in
  if end_ <? length content then
    let lastPeriod := lastIndexOf chunk period in
    let lastNewline := lastIndexOf chunk newline in
    let boundary := Z.max lastPeriod lastNewline in
    if past_threshold boundary start chunkSize then
      (boundary + 1 - overlap, slice content start (boundary + 1))
    else
      (end_ - overlap, chunk)
  else
    (end_, chunk).

(** [if (chunk.trim().length > 50) chunks.push(chunk.trim())] *)
Definition push_substantial (chunks : list jsstring) (chunk : jsstring)
  : list jsstring :=
  if 50 <? length (trim chunk) then chunks ++ [trim chunk] else chunks.

(** The [while] loop, bounded by [fuel] iterations; [None] when the
    bound is reached with the loop condition still true. *)
Fixpoint chunk_loop (fuel : nat) (content : jsstring)
    (chunkSize overlap start : Z) (chunks : list jsstring)
  : option (list jsstring) :=
  if start <? length content then
    match fuel with
    | O => None
    | S fuel' =>
        let '(start', chunk) := chunk_step content chunkSize overlap start in
        chunk_loop fuel' content chunkSize overlap start'
                   (push_substantial chunks chunk)
    end
  else Some chunks.

Definition chunkDocument_fuel (fuel : nat) (content : jsstring)
    (chunkSize overlap : Z) : option (list jsstring) :=
  chunk_loop fuel content chunkSize overlap 0 [].

(** [chunkDocument(content, chunkSize, overlap)], run for at most as many
    iterations as the text has code units. *)
Definition chunkDocument (content : jsstring) (chunkSize overlap : Z)
  : option (list jsstring) :=
  chunkDocument_fuel (List.length content) content chunkSize overlap.

(** The values [start] takes at the head of the loop, for the same
    bound. *)
Fixpoint chunk_starts (fuel : nat) (content : jsstring)
    (chunkSize overlap start : Z) : list Z :=
  if start <? length content then
    match fuel with
    | O => []
    | S fuel' =>
        start :: chunk_starts fuel' content chunkSize overlap
                   (fst (chunk_step content chunkSize overlap start))
    end
  else [].

End Chunker.

(** The step of the chunker as the specification words it: [boundary] is
    the position in the text of the last ['.'] or line break inside the
    window [[start, start + size)]; past seventy per cent of the window
    the chunk ends at [boundary], included, and the cursor moves to
    [boundary + 1 - overlap]; otherwise the whole window is taken and the
    cursor moves to [start + size - overlap].  For a window that does not
    reach the end of the text. *)
Module ChunkerSpec.

Definition boundary_position (content : jsstring) (size start : Z) : option Z :=
  let window := slice content start (start + size) in
  let found := Z.max (lastIndexOf window period) (lastIndexOf window newline) in
  if found <? 0 then None else Some (start + found).

(** [boundary > start + size*0.7], seven tenths of the size being the
    fraction itself. *)
Definition past_seventy_percent (boundary start size : Z) : bool :=
  10 * start + 7 * size <? 10 * boundary.

Definition spec_chunk_step (content : jsstring) (size overlap start : Z)
  : Z * jsstring :=
  match boundary_position content size start with
  | Some boundary =>
      if past_seventy_percent boundary start size then
        (boundary + 1 - overlap, slice content start (boundary + 1))
      else (start + size - overlap, slice content start (start + size))
  | None => (start + size - overlap, slice content start (start + size))
  end.

End ChunkerSpec.

(* ================================================================== *)
(** * Numbers *)
(* ================================================================== *)

(** The operations on [number] that the similarity code uses. *)
Class JsNumber (num : Type) : Type := {
  num_zero : num;
  num_add : num -> num -> num;
  num_sub : num -> num -> num;
  num_mul : num -> num -> num;
  num_div : num -> num -> num;
  num_sqrt : num -> num;              (* Math.sqrt *)
  num_eqb : num -> num -> bool;       (* === *)
  num_ltb : num -> num -> bool;       (* < *)
  num_leb : num -> num -> bool        (* <= *)
}.

(** [a >= b] *)
Definition num_geb {num} `{JsNumber num} (a b : num) : bool := num_leb b a.

(** ToBoolean of a number: false for [+0], [-0] and [NaN]. *)
Definition truthy {num} `{JsNumber num} (x : num) : bool :=
  num_eqb x x && negb (num_eqb x num_zero).

(** JavaScript's own numbers: IEEE 754 binary64. *)
#[export] Instance float_JsNumber : JsNumber float := {|
  num_zero := 0%float;
  num_add := PrimFloat.add;
  num_sub := PrimFloat.sub;
  num_mul := PrimFloat.mul;
  num_div := PrimFloat.div;
  num_sqrt := PrimFloat.sqrt;
  num_eqb := PrimFloat.eqb;
  num_ltb := PrimFloat.ltb;
  num_leb := PrimFloat.leb
|}.

(** A number other than [NaN], the one number that is not [===] to
    itself. *)
Definition is_number {num} `{JsNumber num} (x : num) : bool := num_eqb x x.

(** A number that is neither [NaN] nor an infinity: its difference with
    itself is zero. *)
Definition is_finite {num} `{JsNumber num} (x : num) : bool :=
  num_eqb (num_sub x x) num_zero.

(** What ranking needs of the numbers: [<] is a strict order, its
    complement is transitive through a number that is not [NaN], and the
    sign of a difference tells which operand is smaller. *)
Class OrderedNumber (num : Type) `{JsNumber num} : Prop := {
  num_ltb_irrefl : forall x, num_ltb x x = false;
  num_ltb_trans : forall x y z,
    num_ltb x y = true -> num_ltb y z = true -> num_ltb x z = true;
  num_ltb_cotrans : forall x y z,
    is_number y = true ->
    num_ltb x y = false -> num_ltb y z = false -> num_ltb x z = false;
  num_sub_neg : forall x y, num_ltb (num_sub x y) num_zero = num_ltb x y
}.

(** The order of binary64, read off the representation. *)
Module FloatOrder.

(** The place of a number that is not [NaN]: its class, then exponent
    and mantissa, both negated below zero. *)
Definition key (f : spec_float) : Z * Z * Z :=
  match f with
  | S754_infinity true => (-2, 0, 0)
  | S754_finite true m e => (-1, - e, - Z.pos m)
  | S754_zero _ => (0, 0, 0)
  | S754_finite false m e => (1, e, Z.pos m)
  | S754_infinity false => (2, 0, 0)
  | S754_nan => (0, 0, 0)
  end.

Definition lex_lt (a b : Z * Z * Z) : Prop :=
  let '(a1, a2, a3) := a in
  let '(b1, b2, b3) := b in
  a1 < b1 \/ (a1 = b1 /\ (a2 < b2 \/ (a2 = b2 /\ a3 < b3))).

Definition is_nan (f : spec_float) : bool :=
  match f with S754_nan => true | _ => false end.

(** A finite number or an infinity of the sign [s]. *)
Definition signed (s : bool) (f : spec_float) : Prop :=
  match f with
  | S754_finite s' _ _ | S754_infinity s' => s' = s
  | _ => False
  end.

End FloatOrder.

(* ================================================================== *)
(** * Documents *)
(* ================================================================== *)

(** [{ filename: string; content: string; year: string }] *)
Module RawDocument.
Record t : Type := {
  filename : jsstring;
  content : jsstring;
  year : jsstring
}.
End RawDocument.

(** The [metadata] of a [ProcessedDocument]. *)
Module Metadata.
Record t : Type := {
  filename : jsstring;
  year : jsstring;
  pageNumber : option Z;
  chunkIndex : Z
}.
End Metadata.

(** [interface ProcessedDocument] *)
Module ProcessedDocument.
Record t (num : Type) : Type := {
  id : jsstring;
  content : jsstring;
  metadata : Metadata.t;
  embedding : option (list num)
}.
Arguments id {num} _.
Arguments content {num} _.
Arguments metadata {num} _.
Arguments embedding {num} _.
End ProcessedDocument.

Module DocumentProcessor.

Section Chunks.

Context {num : Type}.

(** The record the inner [for] loop of [createDocumentChunks] builds at
    index [i]. *)
Definition chunk_record (doc : RawDocument.t) (chunks : list jsstring)
    (i : nat) : ProcessedDocument.t num :=
  {| ProcessedDocument.id :=
       RawDocument.filename doc ++ lit "_chunk_" ++ of_nat i;
     ProcessedDocument.content := nth i chunks [];
     ProcessedDocument.metadata :=
       {| Metadata.filename := RawDocument.filename doc;
          Metadata.year := RawDocument.year doc;
          Metadata.pageNumber := None;
          Metadata.chunkIndex := Z.of_nat i |};
     ProcessedDocument.embedding := None |}.

(** [for (let i = 0; i < chunks.length; i++) processedDocs.push(...)] *)
Definition push_chunk_records (processedDocs : list (ProcessedDocument.t num))
    (doc : RawDocument.t) (chunks : list jsstring)
  : list (ProcessedDocument.t num) :=
  processedDocs
    ++ map (chunk_record doc chunks) (seq 0 (List.length chunks)).

(** The outer loop of [createDocumentChunks] over the documents still to
    do; [None] when a call of [chunkDocument] does not return. *)
Fixpoint createDocumentChunks_from (documents : list RawDocument.t)
    (processedDocs : list (ProcessedDocument.t num))
  : option (list (ProcessedDocument.t num)) :=
  match documents with
  | [] => Some processedDocs
  | doc :: rest =>
      match Chunker.chunkDocument (RawDocument.content doc) 1000 200 with
      | None => None
      | Some chunks =>
          createDocumentChunks_from rest
            (push_chunk_records processedDocs doc chunks)
      end
  end.

Definition createDocumentChunks (documents : list RawDocument.t)
  : option (list (ProcessedDocument.t num)) :=
  createDocumentChunks_from documents [].

End Chunks.

End DocumentProcessor.

(* ================================================================== *)
(** * The database *)
(* ================================================================== *)

(** What a call can throw. *)
Inductive Error : Type :=
| VectorsMustHaveSameLength   (* new Error('Vectors must have the same length') *)
| TypeError                   (* reading [.length] of [null] *)
| SyntaxError                 (* [JSON.parse] of a text that is not JSON *)
| UndefinedTable              (* relation berkshire_documents does not exist *)
| DataException               (* a value the column type refuses *)
| UndefinedFunction           (* no operator [<=>] for the column type *)
| PgError (code : nat).       (* any other failure of the server or the link *)

Inductive Result (A : Type) : Type :=
| Ok (a : A)
| Err (e : Error).
Arguments Ok {A} a.
Arguments Err {A} e.

(** The type of the [embedding] column: [vector(n)] or [JSONB]. *)
Inductive ColType : Type :=
| VectorCol (dim : nat)
| JsonbCol.

(** A row of [berkshire_documents].  Timestamps are logical: the number
    of statements the server had received. *)
Module Row.
Record t (num : Type) : Type := {
  id : jsstring;
  content : jsstring;
  filename : jsstring;
  year : jsstring;
  chunk_index : Z;
  total_chunks : option Z;
  source : jsstring;
  embedding : option (list num);
  created_at : nat;
  updated_at : nat
}.
Arguments id {num} _.
Arguments content {num} _.
Arguments filename {num} _.
Arguments year {num} _.
Arguments chunk_index {num} _.
Arguments total_chunks {num} _.
Arguments source {num} _.
Arguments embedding {num} _.
Arguments created_at {num} _.
Arguments updated_at {num} _.
End Row.

(** The statements the store sends, by what they do. *)
Inductive Stmt (num : Type) : Type :=
| Connect                                (* pool.connect() *)
| Select1                                (* SELECT 1 *)
| CreateExtension                        (* CREATE EXTENSION IF NOT EXISTS vector *)
| CreateTable (col : ColType)            (* CREATE TABLE IF NOT EXISTS ... *)
| CreateEmbeddingIndex (col : ColType)   (* ... USING ivfflat / USING GIN *)
| CreateYearIndex
| CreateFilenameIndex
| Begin
| Commit
| Rollback
| Upsert (doc : ProcessedDocument.t num). (* INSERT ... ON CONFLICT (id) DO UPDATE *)
Arguments Connect {num}.
Arguments Select1 {num}.
Arguments CreateExtension {num}.
Arguments CreateTable {num} col.
Arguments CreateEmbeddingIndex {num} col.
Arguments CreateYearIndex {num}.
Arguments CreateFilenameIndex {num}.
Arguments Begin {num}.
Arguments Commit {num}.
Arguments Rollback {num}.
Arguments Upsert {num} doc.

(** The store object together with the database it talks to. *)
Module World.
Record t (num : Type) : Type := {
  useVectorExtension : bool;            (* this.useVectorExtension *)
  table : option ColType;               (* the table, once created *)
  rows : list (Row.t num);              (* committed rows, oldest first *)
  txn : option (nat * list (Row.t num)); (* open transaction: start, rows *)
  clock : nat                           (* statements received so far *)
}.
Arguments useVectorExtension {num} _.
Arguments table {num} _.
Arguments rows {num} _.
Arguments txn {num} _.
Arguments clock {num} _.
End World.

Module Database.

Section Semantics.

Context {num : Type}.

Local Abbreviation row := (Row.t num).
Local Abbreviation world := (World.t num).
Local Abbreviation document := (ProcessedDocument.t num).

(** The row an [INSERT] of [doc] creates at time [now]. *)
Definition inserted_row (now : nat) (doc : document) : row :=
  {| Row.id := ProcessedDocument.id doc;
     Row.content := ProcessedDocument.content doc;
     Row.filename := Metadata.filename (ProcessedDocument.metadata doc);
     Row.year := Metadata.year (ProcessedDocument.metadata doc);
     Row.chunk_index := Metadata.chunkIndex (ProcessedDocument.metadata doc);
     Row.total_chunks := Some 1;
     Row.source := lit "berkshire_hathaway_letters";
     Row.embedding := ProcessedDocument.embedding doc;
     Row.created_at := now;
     Row.updated_at := now |}.

(** [DO UPDATE SET content = EXCLUDED.content,
     embedding = EXCLUDED.embedding, updated_at = CURRENT_TIMESTAMP] *)
Definition updated_row (now : nat) (doc : document) (r : row) : row :=
  {| Row.id := Row.id r;
     Row.content := ProcessedDocument.content doc;
     Row.filename := Row.filename r;
     Row.year := Row.year r;
     Row.chunk_index := Row.chunk_index r;
     Row.total_chunks := Row.total_chunks r;
     Row.source := Row.source r;
     Row.embedding := ProcessedDocument.embedding doc;
     Row.created_at := Row.created_at r;
     Row.updated_at := now |}.

(** [INSERT ... ON CONFLICT (id) DO UPDATE ...] on a table whose primary
    key is [id]. *)
Fixpoint upsert (now : nat) (doc : document) (table : list row) : list row :=
  match table with
  | [] => [inserted_row now doc]
  | r :: rest =>
      if JsString.eqb (Row.id r) (ProcessedDocument.id doc)
      then updated_row now doc r :: rest
      else r :: upsert now doc rest
  end.

(** Whether a [TEXT] column takes the string: it holds no NUL. *)
Definition text (s : jsstring) : bool := forallb (fun c => negb (c =? 0)%N) s.

(** Whether a [VARCHAR(n)] column takes the string: it is a text of no
    more than [n] characters.  (Of a longer string whose excess is
    nothing but spaces the server stores the first [n] characters; no
    such string is stored here, where it is refused.) *)
Definition varchar (n : Z) (s : jsstring) : bool :=
  text s && (code_points s <=? n).

(** Whether an [INTEGER] column takes the number. *)
Definition integer (z : Z) : bool :=
  (-2147483648 <=? z) && (z <=? 2147483647).

(** Whether the [embedding] column takes the value: [vector(n)] takes
    vectors of dimension [n], [JSONB] any array, both take [NULL].  (A
    [vector] column holds single precision numbers: it rounds the
    components, which is left out here, and it refuses those that are
    not finite or beyond single precision, which is among the failures
    of [fault] below.) *)
Definition takes (col : ColType) (embedding : option (list num)) : bool :=
  match col, embedding with
  | VectorCol n, Some v => Nat.eqb (List.length v) n
  | _, _ => true
  end.

(** Whether the server takes the values an upsert of [doc] brings:
    [id VARCHAR(255)], [content TEXT], [filename VARCHAR(255)],
    [year VARCHAR(4)], [chunk_index INTEGER] and the [embedding]. *)
Definition accepts (col : ColType) (doc : document) : bool :=
  varchar 255 (ProcessedDocument.id doc)
  && text (ProcessedDocument.content doc)
  && varchar 255 (Metadata.filename (ProcessedDocument.metadata doc))
  && varchar 4 (Metadata.year (ProcessedDocument.metadata doc))
  && integer (Metadata.chunkIndex (ProcessedDocument.metadata doc))
  && takes col (ProcessedDocument.embedding doc).

Definition with_table (w : world) (t : option ColType) : world :=
  {| World.useVectorExtension := World.useVectorExtension w;
     World.table := t;
     World.rows := World.rows w;
     World.txn := World.txn w;
     World.clock := World.clock w |}.

Definition with_rows (w : world) (rs : list row) : world :=
  {| World.useVectorExtension := World.useVectorExtension w;
     World.table := World.table w;
     World.rows := rs;
     World.txn := World.txn w;
     World.clock := World.clock w |}.

Definition with_txn (w : world) (t : option (nat * list row)) : world :=
  {| World.useVectorExtension := World.useVectorExtension w;
     World.table := World.table w;
     World.rows := World.rows w;
     World.txn := t;
     World.clock := World.clock w |}.

Definition with_useVectorExtension (w : world) (b : bool) : world :=
  {| World.useVectorExtension := b;
     World.table := World.table w;
     World.rows := World.rows w;
     World.txn := World.txn w;
     World.clock := World.clock w |}.

Definition tick (w : world) : world :=
  {| World.useVectorExtension := World.useVectorExtension w;
     World.table := World.table w;
     World.rows := World.rows w;
     World.txn := World.txn w;
     World.clock := S (World.clock w) |}.

(** The effect of a statement the server carries out, or the error it
    answers with.  (The creation of an index of one kind over a column
    of the other kind, which the server refuses, is among the failures
    of [fault] below.) *)
Definition apply_stmt (s : Stmt num) (w : world) : Result world :=
  match s with
  | Connect | Select1 | CreateExtension => Ok w
  | CreateTable col =>
      match World.table w with
      | Some _ => Ok w
      | None => Ok (with_table w (Some col))
      end
  | CreateEmbeddingIndex _ | CreateYearIndex | CreateFilenameIndex =>
      match World.table w with
      | Some _ => Ok w
      | None => Err UndefinedTable
      end
  | Begin =>
      match World.txn w with
      | Some _ => Ok w
      | None => Ok (with_txn w (Some (World.clock w, World.rows w)))
      end
  | Commit =>
      match World.txn w with
      | Some (_, working) => Ok (with_txn (with_rows w working) None)
      | None => Ok w
      end
  | Rollback => Ok (with_txn w None)
  | Upsert doc =>
      match World.table w with
      | None => Err UndefinedTable
      | Some col =>
          if accepts col doc then
            match World.txn w with
            | Some (began, working) =>
                Ok (with_txn w (Some (began, upsert began doc working)))
            | None => Ok (with_rows w (upsert (World.clock w) doc (World.rows w)))
            end
          else Err DataException
      end
  end.

(** The failures that come from outside the program: [fault n] is the
    error, if any, that the [n]-th statement meets before the server
    carries it out. *)
Variable fault : nat -> option Error.

(** What such a failure leaves behind.  A [ROLLBACK] fails only with its
    connection, and the server ends the transaction of a connection it
    has lost; the pool hands that connection out no more. *)
Definition interrupted (s : Stmt num) (w : world) : world :=
  match s with
  | Rollback => with_txn w None
  | _ => w
  end.

(** A computation of the store: it may throw, and it changes the world. *)
Definition M (A : Type) : Type := world -> Result A * world.

Definition ret {A} (a : A) : M A := fun w => (Ok a, w).

Definition throw {A} (e : Error) : M A := fun w => (Err e, w).

Definition bind {A B} (m : M A) (k : A -> M B) : M B :=
  fun w =>
    match m w with
    | (Ok a, w') => k a w'
    | (Err e, w') => (Err e, w')
    end.

(** [try { body } catch (error) { handler(error) }] *)
Definition try_catch {A} (body : M A) (handler : Error -> M A) : M A :=
  fun w =>
    match body w with
    | (Ok a, w') => (Ok a, w')
    | (Err e, w') => handler e w'
    end.

(** [... finally { cleanup }], for a cleanup that cannot throw. *)
Definition finally {A} (body : M A) (cleanup : world -> world) : M A :=
  fun w => let '(r, w') := body w in (r, cleanup w').

(** [await client.query(...)] and [await this.pool.query(...)] *)
Definition query (s : Stmt num) : M unit :=
  fun w =>
    match fault (World.clock w) with
    | Some e => (Err e, tick (interrupted s w))
    | None =>
        match apply_stmt s w with
        | Ok w' => (Ok tt, tick w')
        | Err e => (Err e, tick w)
        end
    end.

Definition get_useVectorExtension : M bool :=
  fun w => (Ok (World.useVectorExtension w), w).

Definition set_useVectorExtension (b : bool) : M unit :=
  fun w => (Ok tt, with_useVectorExtension w b).

(** [for (const x of xs) { body(x) }] *)
Fixpoint for_of {A} (xs : list A) (body : A -> M unit) : M unit :=
  match xs with
  | [] => ret tt
  | x :: rest => bind (body x) (fun _ => for_of rest body)
  end.

End Semantics.

Arguments M : clear implicits.

End Database.

(* ================================================================== *)
(** * The vector store *)
(* ================================================================== *)

(** The [filters] argument of [searchSimilar]. *)
Module Filters.
Record t (num : Type) : Type := {
  year : option jsstring;
  filename : option jsstring;
  minSimilarity : option num
}.
Arguments year {num} _.
Arguments filename {num} _.
Arguments minSimilarity {num} _.
End Filters.

(** The [metadata] of a search result. *)
Module ResultMetadata.
Record t : Type := {
  chunkIndex : Z;
  totalChunks : option Z
}.
End ResultMetadata.

(** The elements of the array [searchSimilar] resolves to. *)
Module SearchResult.
Record t (num : Type) : Type := {
  id : jsstring;
  content : jsstring;
  filename : jsstring;
  year : jsstring;
  similarity : num;
  metadata : ResultMetadata.t
}.
Arguments id {num} _.
Arguments content {num} _.
Arguments filename {num} _.
Arguments year {num} _.
Arguments similarity {num} _.
Arguments metadata {num} _.
End SearchResult.

(** A predicate on the metadata columns, as appended to [WHERE 1=1]. *)
Inductive Predicate : Type :=
| YearEq (y : jsstring)          (* AND year = $n *)
| FilenameEq (f : jsstring).     (* AND filename = $n *)

(** The query of the pgvector branch of [searchSimilar]. *)
Module NearestQuery.
Record t (num : Type) : Type := {
  vector : list num;             (* $1::vector *)
  predicates : list Predicate;
  threshold : option num;        (* AND (1 - (embedding <=> $1::vector)) >= $n *)
  limit : Z                      (* ORDER BY embedding <=> $1::vector LIMIT $n *)
}.
Arguments vector {num} _.
Arguments predicates {num} _.
Arguments threshold {num} _.
Arguments limit {num} _.
End NearestQuery.

(** What [JSON.parse] makes of an [embedding]. *)
Inductive Parsed (num : Type) : Type :=
| ParsedNull
| ParsedNumber (x : num)
| ParsedArray (v : list num).
Arguments ParsedNull {num}.
Arguments ParsedNumber {num} x.
Arguments ParsedArray {num} v.

Module VectorStore.

Import Database.

Section Store.

Context {num : Type} `{JsNumber num}.

Local Abbreviation row := (Row.t num).
Local Abbreviation document := (ProcessedDocument.t num).
Local Abbreviation result := (SearchResult.t num).

(** The failures from outside, as in [Database.query]. *)
Variable fault : nat -> option Error.

(** The order in which the server hands out the rows of a [SELECT]
    without [ORDER BY]: that of its heap, where a row that was updated
    stands at the place of its new version. *)
Variable scan : list row -> list row.

(** What the server answers to a query of the pgvector branch over the
    rows it holds: rows with their [similarity] column.  The index is
    approximate and the distance is the server's own, so the answer is
    left open. *)
Variable nearest : NearestQuery.t num -> list row -> list (row * num).

Local Notation "x <- m ;; k" := (bind m (fun x => k))
  (at level 61, m at next level, right associativity).
Local Notation "m ;;; k" := (bind m (fun _ => k))
  (at level 61, right associativity).

(** [async initialize()] *)
Definition initialize : M num unit :=
  try_catch
    (query fault Connect ;;;
     query fault Select1 ;;;
     try_catch
       (query fault CreateExtension ;;;
        set_useVectorExtension true)
       (fun _ => set_useVectorExtension false) ;;;
     useVectorExtension <- get_useVectorExtension ;;
     (if useVectorExtension : bool then
        query fault (CreateTable (VectorCol 1536)) ;;;
        query fault (CreateEmbeddingIndex (VectorCol 1536))
      else
        query fault (CreateTable JsonbCol) ;;;
        query fault (CreateEmbeddingIndex JsonbCol)) ;;;
     query fault CreateYearIndex ;;;
     query fault CreateFilenameIndex)
    (fun error => throw error).

(** The body of the loop of [storeDocuments]: the two branches send the
    same statement. *)
Definition upsert_doc (doc : document) : M num unit :=
  useVectorExtension <- get_useVectorExtension ;;
  if useVectorExtension : bool then query fault (Upsert doc)
  else query fault (Upsert doc).

(** [async storeDocuments(documents)] *)
Definition storeDocuments (documents : list document) : M num unit :=
  query fault Connect ;;;
  finally
    (try_catch
       (query fault Begin ;;;
        for_of documents upsert_doc ;;;
        query fault Commit)
       (fun error => query fault Rollback ;;; throw error))
    (fun w => w).

(** The loop of [calculateCosineSimilarity]: the three running sums
    after the indices [indices]. *)
Definition accumulate (vec1 vec2 : list num) (indices : list nat)
  : num * num * num :=
  fold_left
    (fun '(dotProduct, norm1, norm2) i =>
       let a := nth i vec1 num_zero in
       let b := nth i vec2 num_zero in
       (num_add dotProduct (num_mul a b),
        num_add norm1 (num_mul a a),
        num_add norm2 (num_mul b b)))
    indices (num_zero, num_zero, num_zero).

(** [calculateCosineSimilarity(vec1, vec2)] *)
Definition calculateCosineSimilarity (vec1 vec2 : list num) : Result num :=
  if negb (Nat.eqb (List.length vec1) (List.length vec2)) then
    Err VectorsMustHaveSameLength
  else
    let '(dotProduct, norm1, norm2) :=
      accumulate vec1 vec2 (seq 0 (List.length vec1)) in
    let norm1 := num_sqrt norm1 in
    let norm2 := num_sqrt norm2 in
    if num_eqb norm1 num_zero || num_eqb norm2 num_zero then Ok num_zero
    else Ok (num_div dotProduct (num_mul norm1 norm2)).

(** ToBoolean of a string. *)
Definition nonempty (s : jsstring) : bool :=
  match s with [] => false | _ => true end.

(** [filters?.year], [filters?.filename] and [filters?.minSimilarity],
    when the [if] that tests them takes them. *)
Definition year_filter (filters : option (Filters.t num)) : option jsstring :=
  match filters with
  | Some f =>
      match Filters.year f with
      | Some y => if nonempty y then Some y else None
      | None => None
      end
  | None => None
  end.

Definition filename_filter (filters : option (Filters.t num))
  : option jsstring :=
  match filters with
  | Some f =>
      match Filters.filename f with
      | Some n => if nonempty n then Some n else None
      | None => None
      end
  | None => None
  end.

Definition minSimilarity_filter (filters : option (Filters.t num))
  : option num :=
  match filters with
  | Some f =>
      match Filters.minSimilarity f with
      | Some m => if truthy m then Some m else None
      | None => None
      end
  | None => None
  end.

(** The [WHERE] predicates both branches append, in the order they do. *)
Definition where_clause (filters : option (Filters.t num)) : list Predicate :=
  (match year_filter filters with Some y => [YearEq y] | None => [] end)
  ++ (match filename_filter filters with Some n => [FilenameEq n] | None => [] end).

Definition holds (r : row) (p : Predicate) : bool :=
  match p with
  | YearEq y => JsString.eqb (Row.year r) y
  | FilenameEq n => JsString.eqb (Row.filename r) n
  end.

(** [SELECT id, content, ..., embedding FROM berkshire_documents
     WHERE 1=1 AND ...]: the committed rows that satisfy the predicates,
    in the order the server hands them out, with the type of the
    [embedding] column, on which depends what the driver makes of its
    values. *)
Definition select_documents (ps : list Predicate)
  : M num (ColType * list row) :=
  fun w =>
    match fault (World.clock w) with
    | Some e => (Err e, tick w)
    | None =>
        match World.table w with
        | None => (Err UndefinedTable, tick w)
        | Some col =>
            (Ok (col,
                 filter (fun r => forallb (holds r) ps) (scan (World.rows w))),
             tick w)
        end
    end.

(** The query of the pgvector branch, sent to the server: the distance
    [<=>] is one of vectors, and there is none for a [JSONB] column. *)
Definition select_nearest (q : NearestQuery.t num)
  : M num (list (row * num)) :=
  fun w =>
    match fault (World.clock w) with
    | Some e => (Err e, tick w)
    | None =>
        match World.table w with
        | None => (Err UndefinedTable, tick w)
        | Some JsonbCol => (Err UndefinedFunction, tick w)
        | Some (VectorCol _) => (Ok (nearest q (World.rows w)), tick w)
        end
    end.

(** The query the pgvector branch builds. *)
Definition nearest_query (queryEmbedding : list num) (limit : Z)
    (filters : option (Filters.t num)) : NearestQuery.t num :=
  {| NearestQuery.vector := queryEmbedding;
     NearestQuery.predicates := where_clause filters;
     NearestQuery.threshold := minSimilarity_filter filters;
     NearestQuery.limit := limit |}.

Definition result_of (r : row) (similarity : num) : result :=
  {| SearchResult.id := Row.id r;
     SearchResult.content := Row.content r;
     SearchResult.filename := Row.filename r;
     SearchResult.year := Row.year r;
     SearchResult.similarity := similarity;
     SearchResult.metadata :=
       {| ResultMetadata.chunkIndex := Row.chunk_index r;
          ResultMetadata.totalChunks := Row.total_chunks r |} |}.

(** [JSON.parse(row.embedding)].  The driver hands the value of a
    [vector] column over as its text, ['[x1,...,xn]'], which parses to
    the array.  It hands the value of a [JSONB] column over parsed, and
    [JSON.parse] first makes a string of the array, ['x1,...,xn']: that
    is JSON only when it is one number (a component that is not finite
    was stored as [null] and gives the empty string).  [NULL] comes as
    [null] and parses to [null]. *)
Definition parse_embedding (col : ColType) (embedding : option (list num))
  : Result (Parsed num) :=
  match embedding with
  | None => Ok ParsedNull
  | Some v =>
      match col with
      | VectorCol _ => Ok (ParsedArray v)
      | JsonbCol =>
          match v with
          | [x] => if is_finite x then Ok (ParsedNumber x) else Err SyntaxError
          | _ => Err SyntaxError
          end
      end
  end.

(** The callback of [result.rows.map] in the JavaScript branch, for the
    rows of a column of type [col]: [calculateCosineSimilarity] reads
    the [length] of what was parsed, which [null] has not (a
    [TypeError]) and which is [undefined] for a number. *)
Definition score (col : ColType) (queryEmbedding : list num) (r : row)
  : Result result :=
  match parse_embedding col (Row.embedding r) with
  | Err e => Err e
  | Ok ParsedNull => Err TypeError
  | Ok (ParsedNumber _) => Err VectorsMustHaveSameLength
  | Ok (ParsedArray storedEmbedding) =>
      match calculateCosineSimilarity queryEmbedding storedEmbedding with
      | Ok similarity => Ok (result_of r similarity)
      | Err e => Err e
      end
  end.

(** [rows.map(callback)] for a callback that may throw. *)
Fixpoint map_rows {A B} (f : A -> Result B) (xs : list A) : Result (list B) :=
  match xs with
  | [] => Ok []
  | x :: rest =>
      match f x with
      | Err e => Err e
      | Ok y =>
          match map_rows f rest with
          | Err e => Err e
          | Ok ys => Ok (y :: ys)
          end
      end
  end.

(** [(a, b) => b.similarity - a.similarity] *)
Definition comparefn (a b : result) : num :=
  num_sub (SearchResult.similarity b) (SearchResult.similarity a).

(** [a] sorts before [b] when [comparefn(a, b) < 0]. *)
Definition sorts_before (a b : result) : bool :=
  num_ltb (comparefn a b) num_zero.

(** [xs.sort(comparefn)]: a stable sort, for a comparison that is
    consistent, as this one is when no similarity is [NaN]. *)
Definition sort (xs : list result) : list result :=
  JsArray.sort_by sorts_before xs.

(** The JavaScript branch from the similarities on: threshold, sort,
    limit. *)
Definition rank (similarities : list result) (limit : Z)
    (filters : option (Filters.t num)) : list result :=
  let filtered :=
    match minSimilarity_filter filters with
    | Some minSimilarity =>
        filter (fun item => num_geb (SearchResult.similarity item) minSimilarity)
               similarities
    | None => similarities
    end in
  JsArray.slice (sort filtered) 0 limit.

(** [async searchSimilar(queryEmbedding, limit, filters)] *)
Definition searchSimilar (queryEmbedding : list num) (limit : Z)
    (filters : option (Filters.t num)) : M num (list result) :=
  try_catch
    (useVectorExtension <- get_useVectorExtension ;;
     if useVectorExtension : bool then
       rows <- select_nearest (nearest_query queryEmbedding limit filters) ;;
       ret (map (fun '(r, similarity) => result_of r similarity) rows)
     else
       result <- select_documents (where_clause filters) ;;
       let '(col, rows) := result in
       match map_rows (score col queryEmbedding) rows with
       | Err e => throw e
       | Ok similarities => ret (rank similarities limit filters)
       end)
    (fun error => throw error).

End Store.

End VectorStore.

(* ================================================================== *)
(** * Vocabulary of the properties *)
(* ================================================================== *)

Module ChunkProperties.

(** The chunk sizes and overlaps for which the truncation branch is sure
    to advance: the product [chunkSize * 0.7] is an integer in binary64
    and the overlap is no more than it. *)
Definition advancing (chunkSize overlap : Z) : Prop :=
  0 <= overlap < chunkSize
  /\ exists product,
      Chunker.integer_of (Chunker.threshold_double chunkSize) = Some product
      /\ overlap <= product.

(** The chunk sizes at which binary64 computes seven tenths of the size
    exactly. *)
Definition exact_threshold (size : Z) : Prop :=
  exists product,
    Chunker.integer_of (Chunker.threshold_double size) = Some product
    /\ 10 * product = 7 * size.

(** A chunk is its own trimming and has more than 50 code units. *)
Definition trimmed_substantial (c : jsstring) : Prop :=
  trim c = c /\ 50 < length c.

(** [chunks] are, in the order of the text, the substantial ones among
    the trimmed slices of [content] taken at strictly increasing
    positions, counted from the start of the text. *)
Definition in_document_order (content : jsstring) (chunks : list jsstring)
  : Prop :=
  exists windows : list (Z * Z),
    StronglySorted Z.lt (map fst windows)
    /\ Forall (fun '(from, to) => 0 <= from /\ 0 <= to) windows
    /\ chunks
       = filter (fun c => 50 <? length c)
           (map (fun '(from, to) => trim (slice content from to)) windows).

(** The records of one document: the kept chunks numbered from [i] on. *)
Fixpoint numbered_from {num : Type} (doc : RawDocument.t) (i : nat)
    (chunks : list jsstring) : list (ProcessedDocument.t num) :=
  match chunks with
  | [] => []
  | c :: rest =>
      {| ProcessedDocument.id :=
           RawDocument.filename doc ++ lit "_chunk_" ++ of_nat i;
         ProcessedDocument.content := c;
         ProcessedDocument.metadata :=
           {| Metadata.filename := RawDocument.filename doc;
              Metadata.year := RawDocument.year doc;
              Metadata.pageNumber := None;
              Metadata.chunkIndex := Z.of_nat i |};
         ProcessedDocument.embedding := None |}
      :: numbered_from doc (S i) rest
  end.

(** What holds of the chunks of one document: they are what
    [chunkDocument(content, 1000, 200)] returns, trimmed and substantial,
    in the order of the text, and their records carry the indices
    [0, 1, 2, ...]. *)
Definition chunks_of {num : Type} (doc : RawDocument.t)
    (chunks : list jsstring) : Prop :=
  Chunker.chunkDocument (RawDocument.content doc) 1000 200 = Some chunks
  /\ Forall trimmed_substantial chunks
  /\ in_document_order (RawDocument.content doc) chunks
  /\ map (fun d => Metadata.chunkIndex (ProcessedDocument.metadata d))
         (numbered_from (num := num) doc 0 chunks)
     = map Z.of_nat (seq 0 (List.length chunks)).

End ChunkProperties.

Module StoreProperties.

Section Rows.

Context {num : Type}.

(** The columns that an upsert of an existing [id] leaves alone. *)
Definition frame (r : Row.t num)
  : jsstring * jsstring * jsstring * Z * option Z * jsstring * nat :=
  (Row.id r, Row.filename r, Row.year r, Row.chunk_index r,
   Row.total_chunks r, Row.source r, Row.created_at r).

(** The server carries out the upsert of [doc]: the table exists and its
    columns take the values. *)
Definition accepted (table : option ColType) (doc : ProcessedDocument.t num)
  : bool :=
  match table with
  | None => false
  | Some col => Database.accepts col doc
  end.

(** The error of an upsert the server does not carry out. *)
Definition refusal (table : option ColType) : Error :=
  match table with
  | None => UndefinedTable
  | Some _ => DataException
  end.

(** What the [k]-th statement of a call of [storeDocuments] made in [w]
    meets, once it is sent: a failure from outside, or for an upsert the
    refusal of the server.  The statements are: getting the connection,
    [BEGIN], an upsert for each document, [COMMIT]. *)
Definition statement_error (fault : nat -> option Error) (w : World.t num)
    (documents : list (ProcessedDocument.t num)) (k : nat) : option Error :=
  match fault (k + World.clock w)%nat with
  | Some e => Some e
  | None =>
      match k with
      | S (S i) =>
          match nth_error documents i with
          | Some d =>
              if accepted (World.table w) d then None
              else Some (refusal (World.table w))
          | None => None
          end
      | _ => None
      end
  end.

(** The time a transaction begun by a call made in [w] has, and the rows
    it works on: those of the transaction the connection has open, in
    which [BEGIN] opens no other, or else the committed rows, after the
    statement that got the connection. *)
Definition transaction_base (w : World.t num) : nat * list (Row.t num) :=
  match World.txn w with
  | Some open => open
  | None => (S (World.clock w), World.rows w)
  end.

(** An error that a statement met: one injected from outside or one of
    the two the server answers with. *)
Definition originates (fault : nat -> option Error) (e : Error) : Prop :=
  (exists n, fault n = Some e) \/ e = UndefinedTable \/ e = DataException.

(** All the embeddings persisted have one length. *)
Definition uniform_dimension (w : World.t num) : Prop :=
  forall r1 r2 v1 v2,
    In r1 (World.rows w) -> In r2 (World.rows w) ->
    Row.embedding r1 = Some v1 -> Row.embedding r2 = Some v2 ->
    List.length v1 = List.length v2.

(** The embeddings of [rows] are what a column of type [table] holds;
    without a table there is no row. *)
Definition fits (table : option ColType) (rows : list (Row.t num)) : Prop :=
  match table with
  | None => rows = []
  | Some (VectorCol n) =>
      Forall (fun r => forall v, Row.embedding r = Some v -> List.length v = n)
             rows
  | Some JsonbCol => True
  end.

(** The table, if there is one, is one of the two [initialize] creates,
    and the rows, committed or in the open transaction, fit it. *)
Definition well_typed (w : World.t num) : Prop :=
  (World.table w = None \/ World.table w = Some (VectorCol 1536)
   \/ World.table w = Some JsonbCol)
  /\ fits (World.table w) (World.rows w)
  /\ match World.txn w with
     | Some (_, working) => fits (World.table w) working
     | None => True
     end.

(** A computation keeps the rows fit for the column. *)
Definition preserves {A : Type} (m : Database.M num A) : Prop :=
  forall w, well_typed w -> well_typed (snd (m w)).

(** The tables the program creates. *)
Definition creates_known_table (s : Stmt num) : Prop :=
  match s with
  | CreateTable (VectorCol n) => n = 1536%nat
  | _ => True
  end.

End Rows.

(** The states of a store and its database: from a new store object and
    a database without the table, by calls of [initialize],
    [storeDocuments] and [searchSimilar], whatever fails on the way. *)
Inductive reachable {num : Type} `{JsNumber num} : World.t num -> Prop :=
| reachable_new :
    reachable {| World.useVectorExtension := false;
                 World.table := None;
                 World.rows := [];
                 World.txn := None;
                 World.clock := O |}
| reachable_initialize (w : World.t num) (fault : nat -> option Error) :
    reachable w -> reachable (snd (VectorStore.initialize fault w))
| reachable_storeDocuments (w : World.t num) (fault : nat -> option Error)
    (documents : list (ProcessedDocument.t num)) :
    reachable w ->
    reachable (snd (VectorStore.storeDocuments fault documents w))
| reachable_searchSimilar (w : World.t num) (fault : nat -> option Error)
    (scan : list (Row.t num) -> list (Row.t num))
    (nearest : NearestQuery.t num -> list (Row.t num)
               -> list (Row.t num * num))
    (queryEmbedding : list num) (limit : Z) (filters : option (Filters.t num)) :
    reachable w ->
    reachable (snd (VectorStore.searchSimilar fault scan nearest queryEmbedding
                                              limit filters w)).

End StoreProperties.

Module SimilarityProperties.

Section Vectors.

Context {num : Type} `{JsNumber num}.

(** The dot product, summed from the first component on. *)
Definition dot (a b : list num) : num :=
  fold_left (fun acc '(x, y) => num_add acc (num_mul x y)) (combine a b)
            num_zero.

Definition sum_of_squares (a : list num) : num :=
  fold_left (fun acc x => num_add acc (num_mul x x)) a num_zero.

(** The Euclidean norm. *)
Definition norm (a : list num) : num := num_sqrt (sum_of_squares a).



(** The rows the JavaScript branch scores: those of the table that
    satisfy the [year] and [filename] filters, in the order the server
    hands them out. *)
Definition selected (scan : list (Row.t num) -> list (Row.t num))
    (filters : option (Filters.t num)) (w : World.t num)
  : list (Row.t num) :=
  filter (fun r => forallb (VectorStore.holds r)
                           (VectorStore.where_clause filters))
         (scan (World.rows w)).

(** [{ year, filename, minSimilarity }] *)
Definition filters_with (year filename : option jsstring)
    (minSimilarity : option num) : option (Filters.t num) :=
  Some {| Filters.year := year;
          Filters.filename := filename;
          Filters.minSimilarity := minSimilarity |}.


End Vectors.

End SimilarityProperties.

(** Inputs the properties are evaluated at. *)
Module Inputs.

(** Twenty code units, a full stop at index 8. *)
Definition stuck_text : jsstring := lit "aaaaaaaa.aaaaaaaaaaa".

(** Thirty-one code units, a full stop at index 18. *)
Definition two_window_text : jsstring := lit "aaaaaaaaaabbbbbbbb.bccccccccccc".

(** Sixty-three [a]s, a full stop and a hundred [b]s. *)
Definition rounded_text : jsstring :=
  repeat 97%N 63 ++ [period] ++ repeat 98%N 100.

Section Worlds.

Context {num : Type}.

Definition row_with (id : string) (embedding : list num) : Row.t num :=
  {| Row.id := lit id;
     Row.content := lit "text";
     Row.filename := lit "1999.pdf";
     Row.year := lit "1999";
     Row.chunk_index := 0;
     Row.total_chunks := Some 1;
     Row.source := lit "berkshire_hathaway_letters";
     Row.embedding := Some embedding;
     Row.created_at := O;
     Row.updated_at := O |}.

Definition document_with (id : string) (embedding : list num)
  : ProcessedDocument.t num :=
  {| ProcessedDocument.id := lit id;
     ProcessedDocument.content := lit "text";
     ProcessedDocument.metadata :=
       {| Metadata.filename := lit "1999.pdf";
          Metadata.year := lit "1999";
          Metadata.pageNumber := None;
          Metadata.chunkIndex := 0 |};
     ProcessedDocument.embedding := Some embedding |}.

(** A store in the JavaScript mode over a table that holds [rows]. *)
Definition scalar_world (rows : list (Row.t num)) : World.t num :=
  {| World.useVectorExtension := false;
     World.table := Some JsonbCol;
     World.rows := rows;
     World.txn := None;
     World.clock := O |}.

(** A store object that was not initialised, as the tools make one, over
    the table a store in the vector mode created, holding [rows]. *)
Definition vector_world (rows : list (Row.t num)) : World.t num :=
  {| World.useVectorExtension := false;
     World.table := Some (VectorCol 1536);
     World.rows := rows;
     World.txn := None;
     World.clock := O |}.

(** A heap no row of which was updated: the rows come as they went in. *)
Definition as_inserted (rows : list (Row.t num)) : list (Row.t num) := rows.


(** A new store object and a database without the table. *)
Definition empty_world : World.t num :=
  {| World.useVectorExtension := false;
     World.table := None;
     World.rows := [];
     World.txn := None;
     World.clock := O |}.

(** Nothing fails. *)
Definition no_fault : nat -> option Error := fun _ => None.

(** Only the statement numbered [n] fails. *)
Definition fault_at (n : nat) : nat -> option Error :=
  fun k => if Nat.eqb k n then Some (PgError 0) else None.

(** A server that answers the pgvector query with no row. *)
Definition no_answer : NearestQuery.t num -> list (Row.t num)
                       -> list (Row.t num * num) :=
  fun _ _ => [].

End Worlds.

(** A vector of 1536 components, those given and then zeros. *)
Definition padded (v : list float) : list float :=
  v ++ repeat 0%float (1536 - List.length v).

(** Three rows of a [vector(1536)] column: the first and the third along
    the first axis, the second opposite to them. *)
Definition three_rows : list (Row.t float) :=
  [row_with "a" (padded [1%float]); row_with "b" (padded [(-1)%float]);
   row_with "c" (padded [2%float])].







(** A batch whose embeddings have one and two components. *)
Definition mixed_batch : list (ProcessedDocument.t float) :=
  [document_with "a" [1%float]; document_with "b" [1%float; 2%float]].

(** A batch of one document with 1536 components. *)
Definition full_batch : list (ProcessedDocument.t float) :=
  [document_with "a" (repeat 0%float 1536)].

(** A stored row, then a batch that submits its [id] again and a new
    one. *)
Definition stored_row : list (Row.t float) := [row_with "a" [1%float]].

Definition second_batch : list (ProcessedDocument.t float) :=
  [document_with "a" [2%float]; document_with "b" [3%float]].

Definition opposite_row : list (Row.t float) :=
  [row_with "a" (padded [(-1)%float])].



End Inputs.

(* ================================================================== *)
(** * The rest of the document processor *)
(* ================================================================== *)

Module Ingestion.

(** [\d] *)
Definition is_digit (c : code_unit) : bool := ((48 <=? c) && (c <=? 57))%N.

(** Four digits stand at the head of [s]. *)
Definition four_digits (s : jsstring) : bool :=
  match s with
  | a :: b :: c :: d :: _ => is_digit a && is_digit b && is_digit c && is_digit d
  | _ => false
  end.

(** [filename.match(/(\d{4})/)]: the capture of the leftmost match, the
    string being tried position after position. *)
Fixpoint match_four_digits (s : jsstring) : option jsstring :=
  match s with
  | [] => None
  | _ :: rest =>
      if four_digits s then Some (firstn 4 s) else match_four_digits rest
  end.

(** [extractYearFromFilename(filename)] *)
Definition extractYearFromFilename (filename : jsstring) : jsstring :=
  match match_four_digits filename with
  | Some yearMatch => yearMatch
  | None => lit "unknown"
  end.

(** [s.endsWith(suffix)] *)
Definition endsWith (s suffix : jsstring) : bool :=
  JsString.eqb (skipn (List.length s - List.length suffix) s) suffix.

Section Parsing.

(** The file names [fs.readdirSync(this.dataPath)] returns, or what it
    throws. *)
Variable readdirSync : Result (list jsstring).

(** What [extractTextFromPDF(path.join(this.dataPath, file))] resolves
    to, or what it rejects with, for each [file]: the parser is
    pdf2json's. *)
Variable extractTextFromPDF : jsstring -> Result jsstring.

(** The loop of [parsePDFs] over the files still to do: a file whose text
    cannot be extracted is logged and left out. *)
Fixpoint parse_files (files : list jsstring) (documents : list RawDocument.t)
  : list RawDocument.t :=
  match files with
  | [] => documents
  | file :: rest =>
      let year := extractYearFromFilename file in
      match extractTextFromPDF file with
      | Ok content =>
          parse_files rest
            (documents
               ++ [{| RawDocument.filename := file;
                      RawDocument.content := content;
                      RawDocument.year := year |}])
      | Err _ => parse_files rest documents
      end
  end.

(** [async parsePDFs()] *)
Definition parsePDFs : Result (list RawDocument.t) :=
  match readdirSync with
  | Err e => Err e
  | Ok entries =>
      Ok (parse_files (filter (fun file => endsWith file (lit ".pdf")) entries)
                      [])
  end.

End Parsing.

Section Embedding.

Context {num : Type}.

Local Abbreviation document := (ProcessedDocument.t num).

(** What the [call]-th call of [this.openai.embeddings.create] with the
    given [input] answers, as [response.data[0].embedding], or what it
    throws. *)
Variable embeddings_create : nat -> jsstring -> Result (list num).

(** [createEmbedding(text)], as the [call]-th call. *)
Definition createEmbedding (call : nat) (text : jsstring) : Result (list num) :=
  embeddings_create call (slice text 0 8000).

(** [{ ...doc, embedding }] *)
Definition with_embedding (doc : document) (embedding : list num) : document :=
  {| ProcessedDocument.id := ProcessedDocument.id doc;
     ProcessedDocument.content := ProcessedDocument.content doc;
     ProcessedDocument.metadata := ProcessedDocument.metadata doc;
     ProcessedDocument.embedding := Some embedding |}.

(** The loop of [generateEmbeddings]: a document whose embedding cannot
    be had is logged and left out. *)
Fixpoint generateEmbeddings_from (call : nat) (processedDocs : list document)
    (docsWithEmbeddings : list document) : list document :=
  match processedDocs with
  | [] => docsWithEmbeddings
  | doc :: rest =>
      match createEmbedding call (ProcessedDocument.content doc) with
      | Ok embedding =>
          generateEmbeddings_from (S call) rest
            (docsWithEmbeddings ++ [with_embedding doc embedding])
      | Err _ => generateEmbeddings_from (S call) rest docsWithEmbeddings
      end
  end.

(** [async generateEmbeddings(processedDocs)] *)
Definition generateEmbeddings (processedDocs : list document) : list document :=
  generateEmbeddings_from 0 processedDocs [].

Variable readdirSync : Result (list jsstring).
Variable extractTextFromPDF : jsstring -> Result jsstring.

(** [async processDocuments()]; [None] when a call of [chunkDocument]
    does not return. *)
Definition processDocuments : option (Result (list document)) :=
  match parsePDFs readdirSync extractTextFromPDF with
  | Err e => Some (Err e)
  | Ok rawDocuments =>
      match DocumentProcessor.createDocumentChunks rawDocuments with
      | None => None
      | Some processedDocuments =>
          Some (Ok (generateEmbeddings processedDocuments))
      end
  end.

(** [processBerkshireDocuments()] *)
Definition processBerkshireDocuments : option (Result (list document)) :=
  processDocuments.

End Embedding.

End Ingestion.

Module IngestionProperties.

(** Four digits stand at position [i] of [s]. *)
Definition digits_at (s : jsstring) (i : nat) : bool :=
  Ingestion.four_digits (skipn i s).

(** Every unit of [s] is a digit. *)
Definition all_digits (s : jsstring) : Prop :=
  Forall (fun c => Ingestion.is_digit c = true) s.

(** The document [doc] with the embedding taken away. *)
Definition without_embedding {num : Type} (doc : ProcessedDocument.t num)
  : ProcessedDocument.t num :=
  {| ProcessedDocument.id := ProcessedDocument.id doc;
     ProcessedDocument.content := ProcessedDocument.content doc;
     ProcessedDocument.metadata := ProcessedDocument.metadata doc;
     ProcessedDocument.embedding := None |}.

(** The call resolved. *)
Definition succeeds {A : Type} (r : Result A) : bool :=
  match r with Ok _ => true | Err _ => false end.

(** The file is a PDF by its name and its text can be extracted. *)
Definition readable (extractTextFromPDF : jsstring -> Result jsstring)
    (file : jsstring) : bool :=
  Ingestion.endsWith file (lit ".pdf") && succeeds (extractTextFromPDF file).

(** The [call]-th call of the embedding service, made for [doc],
    resolved. *)
Definition embedded {num : Type}
    (embeddings_create : nat -> jsstring -> Result (list num))
    (call : nat) (doc : ProcessedDocument.t num) : bool :=
  succeeds
    (embeddings_create call (slice (ProcessedDocument.content doc) 0 8000)).

(** [xs] is [ys] with some elements left out, the order kept. *)
Inductive subsequence {A : Type} : list A -> list A -> Prop :=
| subsequence_nil : subsequence [] []
| subsequence_keep x xs ys : subsequence xs ys -> subsequence (x :: xs) (x :: ys)
| subsequence_drop y xs ys : subsequence xs ys -> subsequence xs (y :: ys).

End IngestionProperties.

(** Inputs for the properties of the document processor. *)
Module IngestionInputs.

(** Ninety-six code units in three sentences. *)
Definition letter_text : jsstring :=
  lit "To the shareholders. Our gain in net worth during the year was large. We thank all our managers.".

Definition letter_1999 : RawDocument.t :=
  {| RawDocument.filename := lit "1999.pdf";
     RawDocument.content := letter_text;
     RawDocument.year := lit "1999" |}.

Definition letter_2000 : RawDocument.t :=
  {| RawDocument.filename := lit "2000.pdf";
     RawDocument.content := letter_text;
     RawDocument.year := lit "2000" |}.

(** Fifteen copies of the text, 1455 code units. *)
Definition long_text : jsstring :=
  List.concat (repeat (letter_text ++ lit " ") 15).

Definition report_2001 : RawDocument.t :=
  {| RawDocument.filename := lit "2001.pdf";
     RawDocument.content := long_text;
     RawDocument.year := lit "2001" |}.

(** A directory of two letters, some notes and a damaged file. *)
Definition directory : list jsstring :=
  [lit "1999.pdf"; lit "notes.txt"; lit "damaged_2000.pdf"; lit "2001.pdf"].

Definition texts (file : jsstring) : Result jsstring :=
  if JsString.eqb file (lit "1999.pdf") then Ok letter_text
  else if JsString.eqb file (lit "2001.pdf") then Ok long_text
  else Err (PgError 1).

(** An embedding service that answers every call but the second with a
    vector of two components. *)
Definition embedder (call : nat) (input : jsstring) : Result (list float) :=
  if Nat.eqb call 1 then Err (PgError 2)
  else Ok [1%float; 2%float].

End IngestionInputs.

(** Vocabulary of the properties of a search. *)
Module SearchProperties.

Section Rows.

Context {num : Type} `{JsNumber num}.

(** The row, of a [vector] column, holds a vector of as many components
    as the query.  No row of a [JSONB] column can be compared with a
    query: what is parsed of it is no array. *)
Definition comparable (col : ColType) (queryEmbedding : list num)
    (r : Row.t num) : bool :=
  match col, Row.embedding r with
  | VectorCol _, Some storedEmbedding =>
      Nat.eqb (List.length queryEmbedding) (List.length storedEmbedding)
  | _, _ => false
  end.

(** What scoring a row that is not comparable throws. *)
Definition score_error (col : ColType) (r : Row.t num) : Error :=
  match Row.embedding r with
  | None => TypeError
  | Some storedEmbedding =>
      match col with
      | VectorCol _ => VectorsMustHaveSameLength
      | JsonbCol =>
          match storedEmbedding with
          | [x] => if is_finite x then VectorsMustHaveSameLength
                   else SyntaxError
          | _ => SyntaxError
          end
      end
  end.

(** The first of [rows] that cannot be compared with the query. *)
Definition first_incomparable (col : ColType) (queryEmbedding : list num)
    (rows : list (Row.t num)) : option (Row.t num) :=
  find (fun r => negb (comparable col queryEmbedding r)) rows.


(** The server hands out the rows it holds, each once. *)
Definition hands_out_rows (scan : list (Row.t num) -> list (Row.t num))
  : Prop :=
  forall rows, Permutation (scan rows) rows.

(** The candidate [x] is the row [r] with its cosine similarity to the
    query. *)
Definition scored (queryEmbedding : list num) (r : Row.t num)
    (x : SearchResult.t num) : Prop :=
  exists storedEmbedding,
    Row.embedding r = Some storedEmbedding
    /\ VectorStore.calculateCosineSimilarity queryEmbedding storedEmbedding
       = Ok (SearchResult.similarity x)
    /\ x = VectorStore.result_of r (SearchResult.similarity x).

(** The result [x] shows a row of [rows] that passes the [year] and
    [filename] filters. *)
Definition shows_selected (filters : option (Filters.t num))
    (rows : list (Row.t num)) (x : SearchResult.t num) : Prop :=
  exists r,
    In r rows
    /\ x = VectorStore.result_of r (SearchResult.similarity x)
    /\ (forall y, VectorStore.year_filter filters = Some y ->
                  SearchResult.year x = y)
    /\ (forall n, VectorStore.filename_filter filters = Some n ->
                  SearchResult.filename x = n).

End Rows.

End SearchProperties.

(** Inputs for the properties of a search. *)
Module SearchInputs.

(** Two rows of a [vector(1536)] column, the second without a vector. *)
Definition row_without_vector (id : string) : Row.t float :=
  {| Row.id := lit id;
     Row.content := lit "text";
     Row.filename := lit "1999.pdf";
     Row.year := lit "1999";
     Row.chunk_index := 0;
     Row.total_chunks := Some 1;
     Row.source := lit "berkshire_hathaway_letters";
     Row.embedding := None;
     Row.created_at := O;
     Row.updated_at := O |}.

Definition mixed_rows : list (Row.t float) :=
  [Inputs.row_with "a" (Inputs.padded [1%float]); row_without_vector "b"].

(** Rows of a [JSONB] column, as a store in the JavaScript mode writes
    them. *)
Definition json_rows : list (Row.t float) :=
  [Inputs.row_with "a" [1%float; 0%float]; Inputs.row_with "b" [1%float]].

Definition row_of_year (id year : string) (embedding : list float)
  : Row.t float :=
  {| Row.id := lit id;
     Row.content := lit "text";
     Row.filename := lit year ++ lit ".pdf";
     Row.year := lit year;
     Row.chunk_index := 0;
     Row.total_chunks := Some 1;
     Row.source := lit "berkshire_hathaway_letters";
     Row.embedding := Some embedding;
     Row.created_at := O;
     Row.updated_at := O |}.

(** Rows of three letters in a [vector(1536)] column.  With the first
    axis their cosine similarities are 1, 0, 1 and 0.7071.... *)
Definition three_years : list (Row.t float) :=
  [row_of_year "a" "1999" (Inputs.padded [1%float; 0%float]);
   row_of_year "b" "2000" (Inputs.padded [0%float; 1%float]);
   row_of_year "c" "2000" (Inputs.padded [1%float; 0%float]);
   row_of_year "d" "2001" (Inputs.padded [1%float; 1%float])].

(** The same with a fifth row, whose cosine similarity with the first
    axis is 7 / 10. *)
Definition rated_rows : list (Row.t float) :=
  three_years
  ++ [row_of_year "e" "2001"
        (Inputs.padded [7%float; 7%float; 1%float; 1%float])].

(** [{ year }] *)
Definition only_year (year : string) : option (Filters.t float) :=
  Some {| Filters.year := Some (lit year);
          Filters.filename := None;
          Filters.minSimilarity := None |}.

End SearchInputs.

(** Properties of the database that hold whatever the store does. *)
Module StoreInvariants.

Section Invariants.

Context {num : Type}.

(** The computation [m] keeps the property [I] of the world. *)
Definition keeps (I : World.t num -> Prop) {A : Type}
    (m : Database.M num A) : Prop :=
  forall w, I w -> I (snd (m w)).

(** A property that does not look at the clock or at the mode of the
    store, and that no statement the server carries out breaks. *)
Definition stable (I : World.t num -> Prop) : Prop :=
  (forall w, I w -> I (Database.tick w))
  /\ (forall w b, I w -> I (Database.with_useVectorExtension w b))
  /\ (forall s w w', I w -> Database.apply_stmt s w = Ok w' -> I w').

(** [id] is a key: no two rows share one, among the committed rows and
    among those of the open transaction. *)
Definition unique_ids (w : World.t num) : Prop :=
  NoDup (map Row.id (World.rows w))
  /\ match World.txn w with
     | Some (_, working) => NoDup (map Row.id working)
     | None => True
     end.

(** The row holds what the document brought. *)
Definition written (doc : ProcessedDocument.t num) (r : Row.t num) : Prop :=
  Row.id r = ProcessedDocument.id doc
  /\ Row.content r = ProcessedDocument.content doc
  /\ Row.embedding r = ProcessedDocument.embedding doc.

End Invariants.

End StoreInvariants.

(* ================================================================== *)
(** * The tools and the script *)
(* ================================================================== *)

(** Two more built-ins. *)
Module JsBuiltins.

(** [s.substring(start, end)]: each index is clamped to [0, s.length]
    and the smaller one comes first. *)
Definition substring (s : jsstring) (start end_ : Z) : jsstring :=
  let len := length s in
  let finalStart := Z.min (Z.max start 0) len in
  let finalEnd := Z.min (Z.max end_ 0) len in
  let from := Z.min finalStart finalEnd in
  let to := Z.max finalStart finalEnd in
  firstn (Z.to_nat (to - from)) (skipn (Z.to_nat from) s).

(** The value of a code unit as a digit: [0-9], [a-z], [A-Z]. *)
Definition digit_value (c : code_unit) : option Z :=
  if ((48 <=? c) && (c <=? 57))%N then Some (Z.of_N c - 48)
  else if ((97 <=? c) && (c <=? 122))%N then Some (Z.of_N c - 87)
  else if ((65 <=? c) && (c <=? 90))%N then Some (Z.of_N c - 55)
  else None.

(** The value of the longest prefix of [s] made of digits of the radix,
    after the digits that gave [acc]; [None] while no digit was read. *)
Fixpoint digits_value (radix : Z) (s : jsstring) (acc : option Z)
  : option Z :=
  match s with
  | [] => acc
  | c :: rest =>
      match digit_value c with
      | Some d =>
          if d <? radix then
            digits_value radix rest
              (Some (radix * match acc with Some a => a | None => 0 end + d))
          else acc
      | None => acc
      end
  end.

(** [parseInt(string)], without a radix: leading white space is skipped,
    a sign is read, [0x] or [0X] announces hexadecimal digits, and the
    digits are read up to the first unit that is none; [None] is [NaN].
    The value is given as an integer: binary64 holds it exactly below
    2^53. *)
Definition parseInt (string : jsstring) : option Z :=
  let trimmed := trimStart string in
  let '(sign, unsigned) :=
    match trimmed with
    | 45%N :: rest => (-1, rest)
    | 43%N :: rest => (1, rest)
    | _ => (1, trimmed)
    end in
  let '(radix, digits) :=
    match unsigned with
    | 48%N :: 120%N :: rest => (16, rest)
    | 48%N :: 88%N :: rest => (16, rest)
    | _ => (10, unsigned)
    end in
  match digits_value radix digits None with
  | Some mathInt => Some (sign * mathInt)
  | None => None
  end.

End JsBuiltins.

(** ['high'], ['medium'] and ['low'] *)
Inductive Relevance : Type := high | medium | low.

(** [source: { filename, year, chunkIndex }] *)
Module Source.
Record t : Type := {
  filename : jsstring;
  year : jsstring;
  chunkIndex : Z
}.
End Source.

(** The elements of [results] in what [vectorSearch] returns. *)
Module FormattedResult.
Record t (num : Type) : Type := {
  rank : Z;
  content : jsstring;
  source : Source.t;
  similarity : num;
  relevanceScore : Relevance
}.
Arguments rank {num} _.
Arguments content {num} _.
Arguments source {num} _.
Arguments similarity {num} _.
Arguments relevanceScore {num} _.
End FormattedResult.

(** What [vectorSearch] resolves to.  A field the object does not have
    is [None]; [error] holds the error caught, from which the message is
    made; the time stamp of [searchMetadata] is left out. *)
Module VectorSearchResponse.
Record t (num : Type) : Type := {
  success : bool;
  error : option Error;
  query : jsstring;
  totalResults : option Z;
  results : list (FormattedResult.t num);
  filters : option (option jsstring * num)   (* { year, minSimilarity } *)
}.
Arguments success {num} _.
Arguments error {num} _.
Arguments query {num} _.
Arguments totalResults {num} _.
Arguments results {num} _.
Arguments filters {num} _.
End VectorSearchResponse.

(** The elements of [documents] in what [filterDocuments] returns. *)
Module FilteredDocument.
Record t (num : Type) : Type := {
  id : jsstring;
  content : jsstring;
  source : Source.t;
  similarity : num
}.
Arguments id {num} _.
Arguments content {num} _.
Arguments source {num} _.
Arguments similarity {num} _.
End FilteredDocument.

(** Why [filterDocuments] reports a failure. *)
Inductive FilterFailure : Type :=
| NotImplemented           (* 'Metadata-only filtering not yet implemented...' *)
| Caught (e : Error).      (* `Document filtering failed: ${...}` *)

(** What [filterDocuments] resolves to. *)
Module FilterResponse.
Record t (num : Type) : Type := {
  success : bool;
  error : option FilterFailure;
  criteria_year : option jsstring;
  criteria_filename : option jsstring;
  criteria_searchTerm : option (option jsstring);  (* absent in one answer *)
  totalResults : option Z;
  documents : option (list (FilteredDocument.t num))
}.
Arguments success {num} _.
Arguments error {num} _.
Arguments criteria_year {num} _.
Arguments criteria_filename {num} _.
Arguments criteria_searchTerm {num} _.
Arguments totalResults {num} _.
Arguments documents {num} _.
End FilterResponse.

(** What [getStats] resolves to; a count that [parseInt] cannot read is
    [None]. *)
Module Stats.
Record t : Type := {
  totalDocuments : option Z;
  documentsByYear : list (jsstring * option Z);
  documentsByFile : list (jsstring * option Z)
}.
End Stats.

Module Tools.

Import Database JsBuiltins.

Section Tools.

Context {num : Type} `{JsNumber num}.

Local Abbreviation row := (Row.t num).
Local Abbreviation document := (ProcessedDocument.t num).
Local Abbreviation result := (SearchResult.t num).

Variable fault : nat -> option Error.
Variable scan : list row -> list row.
Variable nearest : NearestQuery.t num -> list row -> list (row * num).

(** What [openai.embeddings.create] answers for a query text, as
    [data[0].embedding], or what it (or the import of the client)
    throws. *)
Variable embed_query : jsstring -> Result (list num).

(** [Math.round], and the numbers 0.5, 0.7, 0.8 and 100. *)
Variable Math_round : num -> num.
Variables n0_5 n0_7 n0_8 n100 : num.

Local Notation "x <- m ;; k" := (bind m (fun x => k))
  (at level 61, m at next level, right associativity).
Local Notation "m ;;; k" := (bind m (fun _ => k))
  (at level 61, right associativity).

(** [async searchByText(query, limit = 5, filters)] *)
Definition searchByText (query : jsstring) (limit : option Z)
    (filters : option (Filters.t num)) : M num (list result) :=
  let limit := match limit with Some l => l | None => 5 end in
  match embed_query query with
  | Err e => throw e
  | Ok queryEmbedding =>
      VectorStore.searchSimilar fault scan nearest queryEmbedding limit
                                filters
  end.

(** [const vectorStore = new VectorStore()] and what is done with it,
    for a store that does not outlive the call: its
    [useVectorExtension] starts [false], and the store the world
    describes keeps its own. *)
Definition new_VectorStore {A : Type} (body : M num A) : M num A :=
  fun w =>
    let '(r, w') := body (with_useVectorExtension w false) in
    (r, with_useVectorExtension w' (World.useVectorExtension w)).

(** [Math.round(x * 100) / 100] *)
Definition round2 (x : num) : num := num_div (Math_round (num_mul x n100)) n100.

(** [s > 0.8 ? 'high' : s > 0.7 ? 'medium' : 'low'] *)
Definition relevance (similarity : num) : Relevance :=
  if num_ltb n0_8 similarity then high
  else if num_ltb n0_7 similarity then medium
  else low.

Definition source_of (result : result) : Source.t :=
  {| Source.filename := SearchResult.filename result;
     Source.year := SearchResult.year result;
     Source.chunkIndex :=
       ResultMetadata.chunkIndex (SearchResult.metadata result) |}.

(** The callback of [results.map] in [vectorSearch]. *)
Definition format_result (result : result) (index : nat)
  : FormattedResult.t num :=
  {| FormattedResult.rank := Z.of_nat index + 1;
     FormattedResult.content := SearchResult.content result;
     FormattedResult.source := source_of result;
     FormattedResult.similarity := round2 (SearchResult.similarity result);
     FormattedResult.relevanceScore :=
       relevance (SearchResult.similarity result) |}.

(** [xs.map((x, index) => f(x, index))], from [index] on. *)
Fixpoint map_index {A B : Type} (f : A -> nat -> B) (index : nat)
    (xs : list A) : list B :=
  match xs with
  | [] => []
  | x :: rest => f x index :: map_index f (S index) rest
  end.

(** [async vectorSearch(query, limit = 5, year, minSimilarity = 0.7)] *)
Definition vectorSearch (query : jsstring) (limit : option Z)
    (year : option jsstring) (minSimilarity : option num)
  : M num (VectorSearchResponse.t num) :=
  let limit := match limit with Some l => l | None => 5 end in
  let minSimilarity :=
    match minSimilarity with Some m => m | None => n0_7 end in
  try_catch
    (new_VectorStore
       (results <-
          searchByText query (Some limit)
            (Some {| Filters.year := year;
                     Filters.filename := None;
                     Filters.minSimilarity := Some minSimilarity |}) ;;
        ret {| VectorSearchResponse.success := true;
               VectorSearchResponse.error := None;
               VectorSearchResponse.query := query;
               VectorSearchResponse.totalResults :=
                 Some (Z.of_nat (List.length results));
               VectorSearchResponse.results :=
                 map_index format_result 0 results;
               VectorSearchResponse.filters :=
                 Some (year, minSimilarity) |}))
    (fun error =>
       ret {| VectorSearchResponse.success := false;
              VectorSearchResponse.error := Some error;
              VectorSearchResponse.query := query;
              VectorSearchResponse.totalResults := None;
              VectorSearchResponse.results := [];
              VectorSearchResponse.filters := None |}).

(** The callback of [results.map] in [filterDocuments]. *)
Definition filtered_document (result : result) : FilteredDocument.t num :=
  {| FilteredDocument.id := SearchResult.id result;
     FilteredDocument.content :=
       substring (SearchResult.content result) 0 500 ++ lit "...";
     FilteredDocument.source := source_of result;
     FilteredDocument.similarity := round2 (SearchResult.similarity result) |}.

(** ToBoolean of an optional string. *)
Definition given (s : option jsstring) : bool :=
  match s with
  | Some (_ :: _) => true
  | _ => false
  end.

(** [async filterDocuments(year, filename, searchTerm, limit = 10)] *)
Definition filterDocuments (year filename searchTerm : option jsstring)
    (limit : option Z) : M num (FilterResponse.t num) :=
  let limit := match limit with Some l => l | None => 10 end in
  try_catch
    (new_VectorStore
       (if given searchTerm then
          results <-
            searchByText
              (match searchTerm with Some s => s | None => [] end)
              (Some limit)
              (Some {| Filters.year := year;
                       Filters.filename := filename;
                       Filters.minSimilarity := Some n0_5 |}) ;;
          ret {| FilterResponse.success := true;
                 FilterResponse.error := None;
                 FilterResponse.criteria_year := year;
                 FilterResponse.criteria_filename := filename;
                 FilterResponse.criteria_searchTerm := Some searchTerm;
                 FilterResponse.totalResults :=
                   Some (Z.of_nat (List.length results));
                 FilterResponse.documents :=
                   Some (map filtered_document results) |}
        else
          ret {| FilterResponse.success := false;
                 FilterResponse.error := Some NotImplemented;
                 FilterResponse.criteria_year := year;
                 FilterResponse.criteria_filename := filename;
                 FilterResponse.criteria_searchTerm := None;
                 FilterResponse.totalResults := None;
                 FilterResponse.documents := None |}))
    (fun error =>
       ret {| FilterResponse.success := false;
              FilterResponse.error := Some (Caught error);
              FilterResponse.criteria_year := year;
              FilterResponse.criteria_filename := filename;
              FilterResponse.criteria_searchTerm := Some searchTerm;
              FilterResponse.totalResults := None;
              FilterResponse.documents := None |}).

(** The server's [GROUP BY key] with [COUNT( * )]: one group for each
    key the rows have, with the number of rows that have it. *)
Definition group_count (key : row -> jsstring) (rows : list row)
  : list (jsstring * nat) :=
  let keys := map key rows in
  map (fun k => (k, count_occ (list_eq_dec N.eq_dec) keys k))
      (nodup (list_eq_dec N.eq_dec) keys).

(** The order in which the server hands out the groups under
    [ORDER BY year DESC] and under [ORDER BY count DESC]: it depends on
    its collation and on how it breaks ties. *)
Variable order_by_year_desc : list (jsstring * nat) -> list (jsstring * nat).
Variable order_by_count_desc : list (jsstring * nat) -> list (jsstring * nat).

(** A statement that reads the committed rows. *)
Definition select {A : Type} (answer : list row -> A) : M num A :=
  fun w =>
    match fault (World.clock w) with
    | Some e => (Err e, tick w)
    | None =>
        match World.table w with
        | None => (Err UndefinedTable, tick w)
        | Some _ => (Ok (answer (World.rows w)), tick w)
        end
    end.

(** [SELECT COUNT( * ) as total FROM berkshire_documents]: the driver
    hands out a [bigint] as text. *)
Definition select_total : M num jsstring :=
  select (fun rows => of_nat (List.length rows)).

(** [SELECT key, COUNT( * ) as count ... GROUP BY key ORDER BY ...] *)
Definition select_counts (key : row -> jsstring)
    (order : list (jsstring * nat) -> list (jsstring * nat))
  : M num (list (jsstring * jsstring)) :=
  select (fun rows =>
            map (fun '(k, n) => (k, of_nat n)) (order (group_count key rows))).

(** [async getStats()] *)
Definition getStats : M num Stats.t :=
  try_catch
    (total <- select_total ;;
     yearResult <- select_counts Row.year order_by_year_desc ;;
     fileResult <- select_counts Row.filename order_by_count_desc ;;
     ret {| Stats.totalDocuments := parseInt total;
            Stats.documentsByYear :=
              map (fun '(year, count) => (year, parseInt count)) yearResult;
            Stats.documentsByFile :=
              map (fun '(filename, count) => (filename, parseInt count))
                  fileResult |})
    (fun error => throw error).

(** [async close()], for a pool that is ended once. *)
Definition close : M num unit := ret tt.

(** [async setupVectorDatabase()]: the store it returns is the one the
    world describes from then on. *)
Definition setupVectorDatabase : M num unit :=
  set_useVectorExtension false ;;;
  VectorStore.initialize fault.

(** [main()] of [processDocuments.ts], given what
    [processBerkshireDocuments()] resolved to or rejected with. *)
Definition main (processed : Result (list document)) : M num unit :=
  try_catch
    (match processed with
     | Err e => throw e
     | Ok documents =>
         if Nat.eqb (List.length documents) 0 then ret tt
         else
           setupVectorDatabase ;;;
           VectorStore.storeDocuments fault documents ;;;
           (_ <- getStats ;; close)
     end)
    (fun _ => ret tt).

End Tools.

End Tools.

(** Vocabulary of the properties of the tools. *)
Module ToolProperties.

Section Outcomes.

Context {num : Type} `{JsNumber num}.

(** What the JavaScript branch of [searchSimilar] gives over the rows of
    [w], whatever the mode of the store [w] describes. *)
Definition scalar_search (fault : nat -> option Error)
    (scan : list (Row.t num) -> list (Row.t num))
    (queryEmbedding : list num) (limit : Z) (filters : option (Filters.t num))
    (w : World.t num) : Result (list (SearchResult.t num)) :=
  match fault (World.clock w) with
  | Some e => Err e
  | None =>
      match World.table w with
      | None => Err UndefinedTable
      | Some col =>
          match
            VectorStore.map_rows (VectorStore.score col queryEmbedding)
              (SimilarityProperties.selected scan filters w)
          with
          | Err e => Err e
          | Ok similarities =>
              Ok (VectorStore.rank similarities limit filters)
          end
      end
  end.

(** The ranks 1, 2, ..., [n]. *)
Definition ranks (n : nat) : list Z := map (fun i => Z.of_nat i + 1) (seq 0 n).

(** The sum of the counts, when all of them could be read. *)
Fixpoint total_count (groups : list (jsstring * option Z)) : option Z :=
  match groups with
  | [] => Some 0
  | (_, count) :: rest =>
      match count, total_count rest with
      | Some c, Some total => Some (c + total)
      | _, _ => None
      end
  end.

(** The world after [n] more statements. *)
Fixpoint ticks (n : nat) (w : World.t num) : World.t num :=
  match n with
  | O => w
  | S n' => Database.tick (ticks n' w)
  end.

End Outcomes.

End ToolProperties.

(** Inputs for the properties of the tools. *)
Module ToolInputs.

(** [Math.round] on binary64: the closest integer, the one towards
    [+∞] of two that are as close; [-0] for what rounds to zero from
    below. *)
Definition round_binary64 (x : float) : float :=
  match Prim2SF x with
  | S754_finite s m e =>
      if 0 <=? e then x
      else
        let scale := 2 ^ (- e) in
        let n :=
          if s then (2 * Z.pos m + scale - 1) / (2 * scale)
          else (2 * Z.pos m + scale) / (2 * scale) in
        let r := PrimFloat.of_uint63 (Uint63.of_Z n) in
        if s then PrimFloat.opp r else r
  | _ => x
  end.

(** The numbers 0.7 and 0.8 of binary64. *)
Definition seven_tenths : float := (7 / 10)%float.
Definition eight_tenths : float := (8 / 10)%float.

(** An embedding service that answers every query with the first axis
    of 1536 dimensions. *)
Definition embed_east (query : jsstring) : Result (list float) :=
  Ok (Inputs.padded [1%float]).

(** The order of the groups as they come. *)
Definition as_grouped (groups : list (jsstring * nat))
  : list (jsstring * nat) := groups.

End ToolInputs.

(** Vocabulary of the properties of the script. *)
Module ScriptProperties.

Section Frames.

Context {num : Type}.

(** The rows, committed and of the open transaction, are those of
    [w0]. *)
Definition same_rows (w0 w : World.t num) : Prop :=
  World.rows w = World.rows w0 /\ World.txn w = World.txn w0.

(** The statements that do not touch the rows. *)
Definition schema_statement (s : Stmt num) : Prop :=
  match s with
  | Begin | Commit | Rollback | Upsert _ => False
  | _ => True
  end.

End Frames.

(** A batch of two documents with a 1536-dimensional embedding each. *)
Definition two_letters : list (ProcessedDocument.t float) :=
  [Inputs.document_with "1999.pdf_chunk_0" (repeat 0%float 1536);
   Inputs.document_with "2000.pdf_chunk_0" (repeat 1%float 1536)].

End ScriptProperties.

(* ================================================================== *)
(** * The text of a PDF and the statistics tool *)
(* ================================================================== *)

Module PdfText.

Section Extract.

(** [decodeURIComponent(s)], which throws on a malformed escape. *)
Variable decodeURIComponent : jsstring -> Result jsstring.

(** [textItem.R.forEach(textRun => { text += decodeURIComponent(textRun.T) + ' ' })],
    each run given by its [T]. *)
Fixpoint each_run (runs : list jsstring) (text : jsstring) : Result jsstring :=
  match runs with
  | [] => Ok text
  | T :: rest =>
      match decodeURIComponent T with
      | Err e => Err e
      | Ok decoded => each_run rest (text ++ decoded ++ lit " ")
      end
  end.

(** [page.Texts.forEach(textItem => ...)] *)
Fixpoint each_text (texts : list (list jsstring)) (text : jsstring)
  : Result jsstring :=
  match texts with
  | [] => Ok text
  | runs :: rest =>
      match each_run runs text with
      | Err e => Err e
      | Ok text' => each_text rest text'
      end
  end.

(** [pdfData.Pages.forEach(page => ...)] *)
Fixpoint each_page (pages : list (list (list jsstring))) (text : jsstring)
  : Result jsstring :=
  match pages with
  | [] => Ok text
  | texts :: rest =>
      match each_text texts text with
      | Err e => Err e
      | Ok text' => each_page rest text'
      end
  end.

(** [extractTextFromPDF(filePath)], given what the parser emits for the
    file: [pdfParser_dataError] with an error, or [pdfParser_dataReady]
    with the pages. *)
Definition extractTextFromPDF (event : Result (list (list (list jsstring))))
  : Result jsstring :=
  match event with
  | Err e => Err e
  | Ok pages =>
      match each_page pages [] with
      | Err e => Err e
      | Ok text => Ok (trim text)
      end
  end.

End Extract.

(** The runs of a document in reading order. *)
Definition reading_order (pages : list (list (list jsstring)))
  : list jsstring :=
  List.concat (List.concat pages).

(** The decoded runs, a space after each. *)
Definition spaced (decoded : list jsstring) : jsstring :=
  List.concat (map (fun s => s ++ lit " ") decoded).

(** A decoder that gives every run back, and a page of two texts. *)
Definition plain (s : jsstring) : Result jsstring := Ok s.

Definition one_page : list (list (list jsstring)) :=
  [[[lit " Dear"; lit "shareholders"]; [lit "1999 "]]].

End PdfText.

(** [statistics] in what [getDocumentStats] resolves to; the time stamp
    [lastUpdated] is left out. *)
Module Statistics.
Record t : Type := {
  totalDocuments : option Z;
  availableYears : list jsstring;
  yearBreakdown : list (jsstring * option Z);
  fileBreakdown : list (jsstring * option Z);
  dataSource : jsstring
}.
End Statistics.

(** What [getDocumentStats] resolves to.  A field the object does not
    have is [None]; [error] holds the error caught. *)
Module StatsResponse.
Record t : Type := {
  success : bool;
  error : option Error;
  statistics : option Statistics.t;
  summary : option jsstring
}.
End StatsResponse.

Module StatsTool.

Import Database.

(** A number in a template literal: an integer in decimal, or [NaN]. *)
Definition number_text (x : option Z) : jsstring :=
  match x with
  | Some z =>
      if z <? 0 then lit "-" ++ of_nat (Z.to_nat (- z))
      else of_nat (Z.to_nat z)
  | None => lit "NaN"
  end.

(** [xs.join(separator)] *)
Fixpoint join (xs : list jsstring) (separator : jsstring) : jsstring :=
  match xs with
  | [] => []
  | [x] => x
  | x :: rest => x ++ separator ++ join rest separator
  end.

Section Tool.

Context {num : Type} `{JsNumber num}.

Variable fault : nat -> option Error.
Variable order_by_year_desc : list (jsstring * nat) -> list (jsstring * nat).
Variable order_by_count_desc : list (jsstring * nat) -> list (jsstring * nat).

(** [async getDocumentStats()] *)
Definition getDocumentStats : M num StatsResponse.t :=
  try_catch
    (Tools.new_VectorStore
       (bind (Tools.getStats fault order_by_year_desc order_by_count_desc)
          (fun stats =>
             let years := map fst (Stats.documentsByYear stats) in
             ret {| StatsResponse.success := true;
                    StatsResponse.error := None;
                    StatsResponse.statistics :=
                      Some {| Statistics.totalDocuments :=
                                Stats.totalDocuments stats;
                              Statistics.availableYears := years;
                              Statistics.yearBreakdown :=
                                Stats.documentsByYear stats;
                              Statistics.fileBreakdown :=
                                Stats.documentsByFile stats;
                              Statistics.dataSource :=
                                lit "Berkshire Hathaway Annual Shareholder Letters" |};
                    StatsResponse.summary :=
                      Some (lit "Database contains "
                            ++ number_text (Stats.totalDocuments stats)
                            ++ lit " document chunks from "
                            ++ of_nat (List.length (Stats.documentsByYear stats))
                            ++ lit " years ("
                            ++ join years (lit ", ")
                            ++ lit ")") |})))
    (fun error =>
       ret {| StatsResponse.success := false;
              StatsResponse.error := Some error;
              StatsResponse.statistics := None;
              StatsResponse.summary := None |}).

End Tool.

End StatsTool.
(* ================================================================== *)
(** * Facts about strings *)
(* ================================================================== *)

Module JsStringFacts.

Lemma length_nonneg (s : jsstring) : 0 <= length s.
Proof. unfold length. lia. Qed.

(** [trimStart] drops a prefix. *)
Lemma trimStart_suffix (s : jsstring) :
  exists p, s = p ++ trimStart s.
Proof.
  induction s as [| x xs [p Hp]]; simpl.
  - now exists [].
  - destruct (is_whitespace x).
    + exists (x :: p). simpl. now f_equal.
    + now exists [].
Qed.

(** [trimEnd] drops a suffix. *)
Lemma trimEnd_prefix (s : jsstring) :
  exists q, s = trimEnd s ++ q.
Proof.
  destruct (trimStart_suffix (rev s)) as [p Hp].
  exists (rev p). unfold trimEnd.
  rewrite <- rev_app_distr, <- Hp. now rewrite rev_involutive.
Qed.

Lemma trimStart_starts_clean (s : jsstring) : starts_clean (trimStart s).
Proof.
  induction s as [| x xs IH]; simpl; [exact I |].
  destruct (is_whitespace x) eqn:E; [exact IH | exact E].
Qed.

Lemma trimStart_clean_id (s : jsstring) :
  starts_clean s -> trimStart s = s.
Proof. destruct s as [| x xs]; simpl; [reflexivity | now intros ->]. Qed.

Lemma trimStart_idem (s : jsstring) : trimStart (trimStart s) = trimStart s.
Proof. apply trimStart_clean_id, trimStart_starts_clean. Qed.

Lemma trimEnd_idem (s : jsstring) : trimEnd (trimEnd s) = trimEnd s.
Proof.
  unfold trimEnd. now rewrite rev_involutive, trimStart_idem.
Qed.

Lemma trimEnd_starts_clean (s : jsstring) :
  starts_clean s -> starts_clean (trimEnd s).
Proof.
  intros Hs. destruct (trimEnd_prefix s) as [q Hq].
  destruct (trimEnd s) as [| x r]; [exact I |].
  rewrite Hq in Hs. exact Hs.
Qed.

(** A trimmed string is its own trimming. *)
Lemma trim_idem (s : jsstring) : trim (trim s) = trim s.
Proof.
  unfold trim.
  rewrite (trimStart_clean_id (trimEnd (trimStart s))).
  - apply trimEnd_idem.
  - apply trimEnd_starts_clean, trimStart_starts_clean.
Qed.

End JsStringFacts.

(* ================================================================== *)
(** * Facts about the chunker *)
(* ================================================================== *)

Module ChunkerFacts.

Import Chunker JsStringFacts ChunkProperties.

(** At the chunk sizes 10 and 1000 the product is the integer that seven
    tenths gives. *)
Lemma threshold_double_10 : integer_of (threshold_double 10) = Some 7.
Proof. vm_compute. reflexivity. Qed.

Lemma threshold_double_1000 : integer_of (threshold_double 1000) = Some 700.
Proof. vm_compute. reflexivity. Qed.

(** At 90 it is no integer: it falls short of 63, which seven tenths
    gives. *)
Lemma threshold_double_90 :
  integer_of (threshold_double 90) = None
  /\ (threshold_double 90 <? 63)%float = true.
Proof. split; vm_compute; reflexivity. Qed.

(** Where the product is an integer, the test is the one of integers. *)
Lemma past_threshold_integer (boundary start chunkSize product : Z) :
  integer_of (threshold_double chunkSize) = Some product ->
  past_threshold boundary start chunkSize = (start + product <? boundary).
Proof. unfold past_threshold. now intros ->. Qed.

(** Where seven tenths of the size is computed exactly, the test is the
    one the specification words. *)
Lemma past_threshold_exact (boundary start size : Z) :
  exact_threshold size ->
  past_threshold boundary start size
  = ChunkerSpec.past_seventy_percent boundary start size.
Proof.
  intros [product [Hp He]]. rewrite (past_threshold_integer _ _ _ _ Hp).
  unfold ChunkerSpec.past_seventy_percent.
  destruct (start + product <? boundary) eqn:E1;
    destruct (10 * start + 7 * size <? 10 * boundary) eqn:E2;
    try reflexivity;
    rewrite ?Z.ltb_lt, ?Z.ltb_ge in *; lia.
Qed.

Lemma lastIndexOf_from_ge (c : code_unit) (s : jsstring) :
  forall i found, -1 <= found -> 0 <= i -> -1 <= lastIndexOf_from c s i found.
Proof.
  induction s as [| x xs IH]; intros i found Hf Hi; cbn [lastIndexOf_from].
  - exact Hf.
  - apply IH; [destruct (N.eqb x c) |]; lia.
Qed.

(** [lastIndexOf] answers [-1] or an index. *)
Lemma lastIndexOf_ge (s : jsstring) (c : code_unit) : -1 <= lastIndexOf s c.
Proof. apply lastIndexOf_from_ge; lia. Qed.

Section Progress.

Variables (content : jsstring) (chunkSize overlap : Z).

Hypothesis Hadv : advancing chunkSize overlap.

Lemma chunk_step_advances (start : Z) :
  start < length content ->
  start < fst (chunk_step content chunkSize overlap start).
Proof.
  destruct Hadv as [Ho [product [Hp Hs]]]. intros Hlt. unfold chunk_step.
  rewrite (past_threshold_integer _ _ _ _ Hp).
  set (e := Z.min (start + chunkSize) (length content)).
  destruct (e <? length content) eqn:He.
  - apply Z.ltb_lt in He.
    match goal with |- context [if ?c then _ else _] => destruct c eqn:Hb end;
      simpl.
    + apply Z.ltb_lt in Hb. lia.
    + subst e. lia.
  - apply Z.ltb_ge in He. simpl. subst e. lia.
Qed.

(** With enough fuel for the distance left, the loop returns. *)
Lemma chunk_loop_terminates (fuel : nat) :
  forall start chunks,
    length content - start <= Z.of_nat fuel ->
    exists r, chunk_loop fuel content chunkSize overlap start chunks = Some r.
Proof.
  induction fuel as [| fuel IH]; intros start chunks Hf.
  - simpl. destruct (start <? length content) eqn:E.
    + apply Z.ltb_lt in E. lia.
    + now eexists.
  - cbn [chunk_loop]. destruct (start <? length content) eqn:E.
    + apply Z.ltb_lt in E.
      pose proof (chunk_step_advances start E) as Hadv'.
      destruct (chunk_step content chunkSize overlap start) as [s' c].
      simpl in Hadv'. apply IH. lia.
    + now eexists.
Qed.

Lemma chunkDocument_terminates :
  exists r, chunkDocument content chunkSize overlap = Some r.
Proof.
  apply chunk_loop_terminates. unfold length. lia.
Qed.

(** The cursor strictly increases from one iteration to the next. *)
Lemma chunk_starts_increasing (fuel : nat) :
  forall start,
    StronglySorted Z.lt (chunk_starts fuel content chunkSize overlap start)
    /\ Forall (fun s => start <= s)
              (chunk_starts fuel content chunkSize overlap start).
Proof.
  induction fuel as [| fuel IH]; intros start; simpl.
  - destruct (start <? length content); split; constructor.
  - destruct (start <? length content) eqn:E; [| split; constructor].
    apply Z.ltb_lt in E.
    pose proof (chunk_step_advances start E) as Hlt.
    destruct (IH (fst (chunk_step content chunkSize overlap start)))
      as [Hs Hf].
    split.
    + constructor; [exact Hs |].
      eapply Forall_impl; [| exact Hf]. simpl. intros; lia.
    + constructor; [lia |].
      eapply Forall_impl; [| exact Hf]. simpl. intros; lia.
Qed.

End Progress.

(** What the loop returns is what it was entered with, followed by the
    substantial chunks of the iterations it ran, in the order it ran
    them. *)
Lemma chunk_loop_trace (content : jsstring) (chunkSize overlap : Z)
    (fuel : nat) :
  forall start chunks r,
    chunk_loop fuel content chunkSize overlap start chunks = Some r ->
    r = fold_left push_substantial
          (map (fun s => snd (chunk_step content chunkSize overlap s))
               (chunk_starts fuel content chunkSize overlap start))
          chunks.
Proof.
  induction fuel as [| fuel IH]; intros start chunks r; simpl.
  - destruct (start <? length content); [discriminate | now intros [= <-]].
  - destruct (start <? length content); [| now intros [= <-]].
    destruct (chunk_step content chunkSize overlap start) as [s' c] eqn:E.
    intros H. apply IH in H. cbn [map fold_left fst]. rewrite E. exact H.
Qed.

(** Pushing the substantial chunks one by one keeps, in order, the
    trimmed chunks longer than 50. *)
Lemma fold_push_substantial (raw : list jsstring) :
  forall chunks,
    fold_left push_substantial raw chunks
    = chunks ++ filter (fun c => 50 <? length c) (map trim raw).
Proof.
  induction raw as [| c raw IH]; intros chunks; simpl.
  - now rewrite app_nil_r.
  - rewrite IH. unfold push_substantial.
    destruct (50 <? length (trim c)); [| reflexivity].
    now rewrite <- app_assoc.
Qed.

(** Each raw chunk is a slice of the text that begins at the cursor and
    ends at an index that is not negative. *)
Lemma chunk_step_slice (content : jsstring) (chunkSize overlap start : Z) :
  0 <= start -> 0 <= chunkSize ->
  exists e, 0 <= e
            /\ snd (chunk_step content chunkSize overlap start)
               = slice content start e.
Proof.
  intros Hs Hc. unfold chunk_step.
  set (e := Z.min (start + chunkSize) (length content)).
  assert (He : 0 <= e) by (subst e; pose proof (length_nonneg content); lia).
  destruct (e <? length content); [| now exists e].
  set (boundary := Z.max (lastIndexOf (slice content start e) period)
                         (lastIndexOf (slice content start e) newline)).
  assert (Hb : -1 <= boundary)
    by (subst boundary;
        pose proof (lastIndexOf_ge (slice content start e) period); lia).
  destruct (past_threshold boundary start chunkSize); cbn [snd].
  - exists (boundary + 1). split; [lia | reflexivity].
  - now exists e.
Qed.

End ChunkerFacts.

(* ================================================================== *)
(** * Properties of the chunker *)
(* ================================================================== *)

Module ChunkerTheorems.

Import Chunker ChunkerFacts JsStringFacts ChunkProperties Inputs.

Lemma stuck_loop (fuel : nat) :
  forall chunks, chunk_loop fuel stuck_text 10 9 0 chunks = None.
Proof.
  induction fuel as [| fuel IH]; intros chunks; [reflexivity |].
  change (chunk_loop fuel stuck_text 10 9 0
            (push_substantial chunks (lit "aaaaaaaa.")) = None).
  apply IH.
Qed.

(** C1.  With chunk size 10 and overlap 9 (so [0 <= o < s]) and a text of
    20 code units with a full stop at index 8, the truncation branch of
    the first iteration moves the cursor from 0 to [8 + 1 - 9 = 0]: the
    cursor does not increase, and the loop has not returned after any
    number of iterations. *)
Theorem chunkDocument_overlap_9_of_10_never_returns :
  (0 <= 9 < 10 /\ 10 <= length stuck_text)
  /\ chunk_step stuck_text 10 9 0 = (0, lit "aaaaaaaa.")
  /\ forall fuel, chunkDocument_fuel fuel stuck_text 10 9 = None.
Proof.
  split; [split; [lia | vm_compute; discriminate] |].
  split; [reflexivity |].
  intros fuel. apply stuck_loop.
Qed.

(** X2.  At a chunk size where binary64 computes seven tenths of the size
    exactly, on the first window the index in the chunk is the position
    in the text, and the code does what the specification says. *)
Theorem chunk_step_agrees_at_0 (content : jsstring) (size overlap : Z) :
  exact_threshold size ->
  0 < size -> size < length content ->
  chunk_step content size overlap 0
  = ChunkerSpec.spec_chunk_step content size overlap 0.
Proof.
  intros Hx Hs Hl.
  unfold chunk_step, ChunkerSpec.spec_chunk_step, ChunkerSpec.boundary_position.
  rewrite !Z.add_0_l, (past_threshold_exact _ _ _ Hx).
  replace (Z.min size (length content)) with size by lia.
  destruct (size <? length content) eqn:E; [| apply Z.ltb_ge in E; lia].
  set (found := Z.max (lastIndexOf (slice content 0 size) period)
                      (lastIndexOf (slice content 0 size) newline)).
  destruct (found <? 0) eqn:F.
  - apply Z.ltb_lt in F.
    replace (ChunkerSpec.past_seventy_percent found 0 size) with false;
      [reflexivity |].
    symmetry. unfold ChunkerSpec.past_seventy_percent. apply Z.ltb_ge. lia.
  - reflexivity.
Qed.

(** The first window of a 20-unit text with a full stop at index 8, chunk
    size 10 (where [10 * 0.7] is 7): the code and the specification both
    end the chunk at the full stop and move the cursor to 9. *)
Lemma chunk_step_agrees_at_0_witness :
  exact_threshold 10
  /\ chunk_step stuck_text 10 0 0
     = ChunkerSpec.spec_chunk_step stuck_text 10 0 0
  /\ chunk_step stuck_text 10 0 0 = (9, lit "aaaaaaaa.").
Proof.
  assert (Hx : exact_threshold 10)
    by (exists 7; split; [exact threshold_double_10 | reflexivity]).
  split; [exact Hx |]. split; [| reflexivity].
  apply (chunk_step_agrees_at_0 stuck_text 10 0 Hx);
    [lia | vm_compute; reflexivity].
Defined.

(** At the chunk size 90 the two part: a full stop at index 63 is past
    [90 * 0.7] as binary64 has it, and the code ends the chunk there,
    while it is not past seven tenths of the window, all of which the
    specification takes.  The cursor of the code goes 0, 64, 154. *)
Example chunk_step_differs_at_90 :
  chunk_step rounded_text 90 0 0
  = (64, repeat 97%N 63 ++ [period])
  /\ fst (ChunkerSpec.spec_chunk_step rounded_text 90 0 0) = 90
  /\ chunk_starts 164 rounded_text 90 0 0 = [0; 64; 154].
Proof. repeat split; vm_compute; reflexivity. Qed.

(** C2.  On the second window of a 31-unit text (chunk size 10, overlap
    0; the first iteration leaves the cursor at 10, and the window
    [[10, 20)] is short of the end) the last full stop is at position 18
    of the text, past [10 + 10 * 0.7 = 17]: as specified the chunk is the
    text from 10 to 18 included and the cursor moves to 19.  The code
    compares the index {e in the chunk}, 8, with 17, takes the whole
    window and moves the cursor to 20. *)
Theorem chunk_step_boundary_is_window_relative :
  fst (chunk_step two_window_text 10 0 0) = 10
  /\ Z.min (10 + 10) (length two_window_text) < length two_window_text
  /\ ChunkerSpec.boundary_position two_window_text 10 10 = Some 18
  /\ past_threshold 18 10 10 = true
  /\ ChunkerSpec.spec_chunk_step two_window_text 10 0 10
     = (19, lit "bbbbbbbb.")
  /\ chunk_step two_window_text 10 0 10 = (20, lit "bbbbbbbb.b").
Proof.
  repeat split; vm_compute; reflexivity.
Qed.

(** X1.  At a chunk size whose product by 0.7 is an integer in binary64
    (7 at 10, 700 at 1000), when the overlap is less than the chunk size
    and no more than that product, [chunkDocument] returns for every
    text, and the cursor strictly increases from one iteration to the
    next. *)
Theorem chunkDocument_returns_for_moderate_overlap (content : jsstring)
    (chunkSize overlap : Z) :
  advancing chunkSize overlap ->
  (exists chunks, chunkDocument content chunkSize overlap = Some chunks)
  /\ StronglySorted Z.lt
       (chunk_starts (List.length content) content chunkSize overlap 0).
Proof.
  intros Hadv. split.
  - apply chunk_loop_terminates; [exact Hadv | unfold length; lia].
  - apply (chunk_starts_increasing content chunkSize overlap Hadv).
Qed.

(** The text on which overlap 9 loops, chunked with overlap 7: the cursor
    goes 0, 2, 5, 8, 11 and the call returns (no chunk is longer than
    50). *)
Lemma chunkDocument_returns_witness :
  advancing 10 7
  /\ chunkDocument stuck_text 10 7 = Some []
  /\ chunk_starts 20 stuck_text 10 7 0 = [0; 2; 5; 8; 11]
  /\ ((exists chunks, chunkDocument stuck_text 10 7 = Some chunks)
      /\ StronglySorted Z.lt
           (chunk_starts (List.length stuck_text) stuck_text 10 7 0)).
Proof.
  assert (Ha : advancing 10 7).
  { split; [lia |]. exists 7. split; [exact threshold_double_10 | lia]. }
  split; [exact Ha |]. split; [reflexivity |]. split; [vm_compute; reflexivity |].
  exact (chunkDocument_returns_for_moderate_overlap stuck_text 10 7 Ha).
Defined.

(** The call [chunkDocument(content, 1000, 200)] returns, and what it
    returns is trimmed, substantial and in the order of the text. *)
Lemma advancing_1000_200 : advancing 1000 200.
Proof.
  split; [lia |]. exists 700. split; [exact threshold_double_1000 | lia].
Qed.

Lemma windows_of_starts (content : jsstring) (chunkSize overlap : Z)
    (starts : list Z) :
  0 <= chunkSize ->
  Forall (fun s => 0 <= s) starts ->
  exists windows : list (Z * Z),
    map fst windows = starts
    /\ Forall (fun '(from, to) => 0 <= from /\ 0 <= to) windows
    /\ map (fun '(from, to) => slice content from to) windows
       = map (fun s => snd (chunk_step content chunkSize overlap s)) starts.
Proof.
  intros Hc. induction 1 as [| s starts Hs _ [ws [Hf [Hb Hw]]]].
  - exists []. repeat split. constructor.
  - destruct (chunk_step_slice content chunkSize overlap s Hs Hc)
      as [e [He Hsl]].
    exists ((s, e) :: ws). simpl. rewrite Hf, Hw, Hsl.
    repeat split. constructor; [split; assumption | exact Hb].
Qed.

Lemma kept_trimmed_substantial (raw : list jsstring) :
  Forall trimmed_substantial
         (filter (fun c => 50 <? length c) (map trim raw)).
Proof.
  apply Forall_forall. intros c Hc.
  apply filter_In in Hc. destruct Hc as [Hin Hlen].
  apply in_map_iff in Hin. destruct Hin as [r [<- _]].
  split; [apply trim_idem | now apply Z.ltb_lt].
Qed.

Lemma chunkDocument_default (content : jsstring) :
  exists chunks,
    chunkDocument content 1000 200 = Some chunks
    /\ Forall trimmed_substantial chunks
    /\ in_document_order content chunks.
Proof.
  destruct (chunkDocument_terminates content 1000 200 advancing_1000_200)
    as [chunks Hc].
  exists chunks. split; [exact Hc |].
  pose proof (chunk_loop_trace _ _ _ _ _ _ _ Hc) as Ht.
  rewrite fold_push_substantial in Ht. simpl in Ht. subst chunks.
  split; [apply kept_trimmed_substantial |].
  destruct (chunk_starts_increasing content 1000 200 advancing_1000_200
              (List.length content) 0) as [Hsorted Hfrom].
  destruct (windows_of_starts content 1000 200
              (chunk_starts (List.length content) content 1000 200 0))
    as [ws [Hf [Hb Hs]]]; [lia | exact Hfrom |].
  exists ws. split; [now rewrite Hf |]. split; [exact Hb |].
  rewrite <- Hs, map_map. f_equal. apply map_ext. now intros [from to].
Qed.

Section Numbering.

Context {num : Type}.

(** The indexed loop numbers the chunks from 0 in their order. *)
Lemma chunk_records_numbered (doc : RawDocument.t) (chunks : list jsstring) :
  forall pre,
    map (DocumentProcessor.chunk_record (num := num) doc (pre ++ chunks))
        (seq (List.length pre) (List.length chunks))
    = numbered_from doc (List.length pre) chunks.
Proof.
  induction chunks as [| c chunks IH]; intros pre; [reflexivity |].
  cbn [List.length seq map numbered_from]. f_equal.
  - unfold DocumentProcessor.chunk_record. now rewrite nth_middle.
  - specialize (IH (pre ++ [c])).
    rewrite <- app_assoc, length_app, Nat.add_1_r in IH. exact IH.
Qed.

Lemma numbered_from_chunkIndex (doc : RawDocument.t) (chunks : list jsstring) :
  forall i,
    map (fun d => Metadata.chunkIndex (ProcessedDocument.metadata d))
        (numbered_from (num := num) doc i chunks)
    = map Z.of_nat (seq i (List.length chunks)).
Proof.
  induction chunks as [| c chunks IH]; intros i; [reflexivity |].
  simpl. now rewrite IH.
Qed.

Lemma createDocumentChunks_from_spec (documents : list RawDocument.t) :
  forall processedDocs : list (ProcessedDocument.t num),
  exists chunkss : list (list jsstring),
    Forall2 (chunks_of (num := num)) documents chunkss
    /\ DocumentProcessor.createDocumentChunks_from documents processedDocs
       = Some (processedDocs
               ++ List.concat (map (fun '(doc, chunks) => numbered_from doc 0 chunks)
                              (combine documents chunkss))).
Proof.
  induction documents as [| doc rest IH]; intros acc.
  - exists []. split; [constructor |]. simpl. now rewrite app_nil_r.
  - destruct (chunkDocument_default (RawDocument.content doc))
      as [chunks [Hc [Ht Ho]]].
    destruct (IH (DocumentProcessor.push_chunk_records acc doc chunks))
      as [chunkss [HF Hr]].
    exists (chunks :: chunkss). split.
    + constructor; [| exact HF].
      repeat split; try assumption. apply numbered_from_chunkIndex.
    + cbn [DocumentProcessor.createDocumentChunks_from]. rewrite Hc, Hr.
      unfold DocumentProcessor.push_chunk_records.
      pose proof (chunk_records_numbered doc chunks []) as Hn.
      cbn [app List.length] in Hn. rewrite Hn.
      cbn [combine map List.concat]. now rewrite <- app_assoc.
Qed.

(** C7.  [createDocumentChunks] returns for every list of documents.  For
    each document its chunks are those [chunkDocument(content, 1000, 200)]
    returns: each is its own trimming and longer than 50 code units, and
    they are the substantial trimmed slices of the text at strictly
    increasing positions counted from its start, in that order.  The
    records of the document are its chunks numbered from 0: the [i]-th
    has [chunkIndex = i], id [filename + "_chunk_" + i] and the [i]-th
    chunk as content, so the [chunkIndex] values are [0, 1, 2, ...]; the
    result lists the documents' records in the order of the documents. *)
Theorem createDocumentChunks_numbers_kept_chunks
    (documents : list RawDocument.t) :
  exists chunkss : list (list jsstring),
    Forall2 (chunks_of (num := num)) documents chunkss
    /\ DocumentProcessor.createDocumentChunks (num := num) documents
       = Some (List.concat (map (fun '(doc, chunks) => numbered_from doc 0 chunks)
                           (combine documents chunkss))).
Proof.
  destruct (createDocumentChunks_from_spec documents []) as [chunkss [HF Hr]].
  exists chunkss. split; [exact HF | exact Hr].
Qed.

End Numbering.

End ChunkerTheorems.

(* ================================================================== *)
(** * Properties of the cosine similarity *)
(* ================================================================== *)

Module CosineTheorems.

Import VectorStore SimilarityProperties.

Section Cosine.

Context {num : Type} `{JsNumber num}.

(** The indexed loop computes the three sums component by component. *)
Lemma accumulate_from (a b : list num) :
  forall (pre_a pre_b : list num) (acc : num * num * num),
    List.length pre_a = List.length pre_b ->
    List.length a = List.length b ->
    fold_left
      (fun '(dotProduct, norm1, norm2) i =>
         let x := nth i (pre_a ++ a) num_zero in
         let y := nth i (pre_b ++ b) num_zero in
         (num_add dotProduct (num_mul x y),
          num_add norm1 (num_mul x x),
          num_add norm2 (num_mul y y)))
      (seq (List.length pre_a) (List.length a)) acc
    = (fold_left (fun acc '(x, y) => num_add acc (num_mul x y)) (combine a b)
                 (fst (fst acc)),
       fold_left (fun acc x => num_add acc (num_mul x x)) a (snd (fst acc)),
       fold_left (fun acc x => num_add acc (num_mul x x)) b (snd acc)).
Proof.
  revert b.
  induction a as [| x a IH]; intros [| y b] pre_a pre_b [[d n1] n2] Hp Hl;
    try discriminate.
  - reflexivity.
  - cbn [List.length seq fold_left combine fst snd].
    assert (Ea : nth (List.length pre_a) (pre_a ++ x :: a) num_zero = x)
      by apply nth_middle.
    assert (Eb : nth (List.length pre_a) (pre_b ++ y :: b) num_zero = y)
      by (rewrite Hp; apply nth_middle).
    rewrite Ea, Eb.
    specialize (IH b (pre_a ++ [x]) (pre_b ++ [y])).
    rewrite <- !app_assoc, length_app, Nat.add_1_r in IH.
    cbn [app] in IH. cbv zeta in IH. rewrite IH.
    + reflexivity.
    + rewrite !length_app. simpl. lia.
    + simpl in Hl. lia.
Qed.

Lemma accumulate_sums (a b : list num) :
  List.length a = List.length b ->
  accumulate a b (seq 0 (List.length a))
  = (dot a b, sum_of_squares a, sum_of_squares b).
Proof.
  intros Hl. exact (accumulate_from a b [] [] _ eq_refl Hl).
Qed.

Lemma cosine_equal_lengths (a b : list num) :
  List.length a = List.length b ->
  calculateCosineSimilarity a b
  = if num_eqb (norm a) num_zero || num_eqb (norm b) num_zero
    then Ok num_zero
    else Ok (num_div (dot a b) (num_mul (norm a) (norm b))).
Proof.
  intros Hl. unfold calculateCosineSimilarity.
  rewrite (proj2 (Nat.eqb_eq _ _) Hl). cbn [negb].
  rewrite (accumulate_sums a b Hl). reflexivity.
Qed.

Lemma cosine_different_lengths (a b : list num) :
  List.length a <> List.length b ->
  calculateCosineSimilarity a b = Err VectorsMustHaveSameLength.
Proof.
  intros Hl. unfold calculateCosineSimilarity.
  now rewrite (proj2 (Nat.eqb_neq _ _) Hl).
Qed.

(** C6.  [calculateCosineSimilarity(a, b)] throws, and then the length
    error, exactly when the lengths differ.  For equal lengths it returns
    0 when the norm of either vector is 0, and otherwise the dot product
    divided by the product of the norms. *)
Theorem calculateCosineSimilarity_contract (a b : list num) :
  (calculateCosineSimilarity a b = Err VectorsMustHaveSameLength
   <-> List.length a <> List.length b)
  /\ (forall e, calculateCosineSimilarity a b = Err e ->
                e = VectorsMustHaveSameLength)
  /\ (List.length a = List.length b ->
      calculateCosineSimilarity a b
      = if num_eqb (norm a) num_zero || num_eqb (norm b) num_zero
        then Ok num_zero
        else Ok (num_div (dot a b) (num_mul (norm a) (norm b)))).
Proof.
  destruct (Nat.eq_dec (List.length a) (List.length b)) as [Hl | Hl].
  - rewrite (cosine_equal_lengths a b Hl). split; [split |]; [| | split].
    + destruct (_ || _); discriminate.
    + intros Hn. contradiction.
    + intros e. destruct (_ || _); discriminate.
    + reflexivity.
  - rewrite (cosine_different_lengths a b Hl). split; [split |]; [| | split].
    + intros _. exact Hl.
    + reflexivity.
    + intros e. congruence.
    + intros He. contradiction.
Qed.

End Cosine.

End CosineTheorems.

(* ================================================================== *)
(** * The order of binary64 *)
(* ================================================================== *)

Module FloatOrderFacts.

Import FloatOrder.

Lemma SFltb_key (f1 f2 : spec_float) :
  is_nan f1 = false -> is_nan f2 = false ->
  (SFltb f1 f2 = true <-> lex_lt (key f1) (key f2)).
Proof.
  unfold SFltb.
  destruct f1 as [s1 | s1 | | s1 m1 e1], f2 as [s2 | s2 | | s2 m2 e2];
    try discriminate; intros _ _;
    try (destruct s1); try (destruct s2); cbn;
    try (split; [discriminate | lia]);
    try (split; [lia | reflexivity]);
    fold (Pos.compare m1 m2);
    destruct (Z.compare_spec e1 e2); cbn;
    try (split; [discriminate | lia]);
    try (split; [lia | reflexivity]);
    destruct (Pos.compare_spec m1 m2); cbn;
    try (split; [discriminate | lia]);
    try (split; [lia | reflexivity]).
Qed.

(** ** Digits and shifts *)

Lemma digits2_pos_bounds (m : positive) :
  2 ^ (Z.pos (digits2_pos m) - 1) <= Z.pos m < 2 ^ Z.pos (digits2_pos m).
Proof.
  induction m as [m IH | m IH |]; cbn [digits2_pos].
  - rewrite Pos2Z.inj_succ.
    replace (Z.succ (Z.pos (digits2_pos m)) - 1)
      with (Z.succ (Z.pos (digits2_pos m) - 1)) by lia.
    rewrite !Z.pow_succ_r by lia. lia.
  - rewrite Pos2Z.inj_succ.
    replace (Z.succ (Z.pos (digits2_pos m)) - 1)
      with (Z.succ (Z.pos (digits2_pos m) - 1)) by lia.
    rewrite !Z.pow_succ_r by lia. lia.
  - cbn. lia.
Qed.

Lemma iter_xO (d m : positive) :
  Z.pos (Pos.iter xO m d) = Z.pos m * 2 ^ Z.pos d.
Proof.
  revert m. induction d as [| d IH] using Pos.peano_ind; intros m.
  - cbn. lia.
  - rewrite Pos.iter_succ, Pos2Z.inj_succ, Z.pow_succ_r by lia.
    rewrite Pos2Z.inj_xO, IH. lia.
Qed.

Lemma shl_align_value (m : positive) (e e' : Z) :
  e' <= e ->
  Z.pos (fst (shl_align m e e')) = Z.pos m * 2 ^ (e - e')
  /\ snd (shl_align m e e') = e'.
Proof.
  intros He. unfold shl_align.
  destruct (e' - e) as [| d | d] eqn:E; cbn [fst snd].
  - replace (e - e') with 0 by lia. split; lia.
  - lia.
  - rewrite iter_xO. replace (e - e') with (Z.pos d) by lia. split; lia.
Qed.

Lemma shr_1_m (mrs : shr_record) :
  0 <= shr_m mrs -> shr_m (shr_1 mrs) = shr_m mrs / 2.
Proof.
  destruct mrs as [m r s]. cbn [shr_m]. intros Hm. unfold shr_1.
  destruct m as [| [p | p |] | p]; cbn [shr_m].
  - reflexivity.
  - apply Z.div_unique with 1; lia.
  - apply Z.div_unique with 0; lia.
  - reflexivity.
  - lia.
Qed.

Lemma iter_shr_1 (p : positive) :
  forall mrs, 0 <= shr_m mrs ->
    shr_m (iter_pos shr_1 p mrs) = shr_m mrs / 2 ^ Z.pos p.
Proof.
  induction p as [p IH | p IH |]; intros mrs Hm; cbn [iter_pos].
  - assert (HP : 0 < 2 ^ Z.pos p) by (apply Z.pow_pos_nonneg; lia).
    assert (H1 : 0 <= shr_m (shr_1 mrs))
      by (rewrite shr_1_m by exact Hm; apply Z.div_pos; lia).
    assert (H2 : 0 <= shr_m (iter_pos shr_1 p (shr_1 mrs)))
      by (rewrite IH by exact H1; apply Z.div_pos; lia).
    rewrite IH by exact H2. rewrite IH by exact H1.
    rewrite shr_1_m by exact Hm.
    rewrite !Z.div_div by lia. f_equal.
    replace (Z.pos p~1) with (1 + Z.pos p + Z.pos p) by lia.
    rewrite !Z.pow_add_r by lia. change (2 ^ 1) with 2. lia.
  - assert (HP : 0 < 2 ^ Z.pos p) by (apply Z.pow_pos_nonneg; lia).
    assert (H2 : 0 <= shr_m (iter_pos shr_1 p mrs))
      by (rewrite IH by exact Hm; apply Z.div_pos; lia).
    rewrite IH by exact H2. rewrite IH by exact Hm.
    rewrite Z.div_div by lia. f_equal.
    replace (Z.pos p~0) with (Z.pos p + Z.pos p) by lia.
    rewrite Z.pow_add_r by lia. reflexivity.
  - rewrite shr_1_m by exact Hm. reflexivity.
Qed.

Lemma fexp_eq (e : Z) : fexp prec emax e = Z.max (e - 53) (-1074).
Proof. reflexivity. Qed.

(** Shifting a positive mantissa to its place leaves it positive. *)
Lemma shr_fexp_pos (m e : Z) (l : location) :
  0 < m -> -1074 <= e ->
  0 < shr_m (fst (shr_fexp prec emax m e l))
  /\ -1074 <= snd (shr_fexp prec emax m e l).
Proof.
  intros Hm He. unfold shr_fexp. rewrite fexp_eq.
  assert (Hr : shr_m (shr_record_of_loc m l) = m)
    by (destruct l as [| []]; reflexivity).
  destruct m as [| p | p]; try lia. cbn [Zdigits2].
  pose proof (digits2_pos_bounds p) as Hd.
  set (d := Z.pos (digits2_pos p)) in *.
  unfold shr.
  destruct (Z.max (d + e - 53) (-1074) - e) as [| n | n] eqn:En;
    cbn [fst snd]; rewrite ?Hr; try lia.
  rewrite iter_shr_1 by (rewrite Hr; lia). rewrite Hr.
  split; [| lia].
  apply Z.div_str_pos. split; [apply Z.pow_pos_nonneg; lia |].
  apply Z.le_trans with (2 ^ (d - 1)); [| lia].
  apply Z.pow_le_mono_r; lia.
Qed.

Lemma round_nearest_even_pos (m : Z) (l : location) :
  0 < m -> 0 < round_nearest_even m l.
Proof.
  intros Hm. unfold round_nearest_even.
  destruct l as [| []]; try lia. destruct (Z.even m); lia.
Qed.

(** The sign of a rounded number is the one it was given: rounding a
    positive mantissa at an exponent the format has gives a finite
    number or an infinity, never zero. *)
Lemma binary_round_aux_signed (s : bool) (m e : Z) (l : location) :
  0 < m -> -1074 <= e -> signed s (binary_round_aux prec emax s m e l).
Proof.
  intros Hm He. unfold binary_round_aux.
  destruct (shr_fexp_pos m e l Hm He) as [H1 H2].
  destruct (shr_fexp prec emax m e l) as [mrs1 e1]. cbn [fst snd] in H1, H2.
  pose proof (round_nearest_even_pos (shr_m mrs1) (loc_of_shr_record mrs1) H1)
    as Hr.
  destruct (shr_fexp_pos _ e1 loc_Exact Hr H2) as [H3 H4].
  destruct (shr_fexp prec emax _ e1 loc_Exact) as [mrs2 e2].
  cbn [fst snd] in H3, H4.
  destruct (shr_m mrs2) as [| p | p]; try lia.
  destruct (e2 <=? emax - prec); reflexivity.
Qed.

Lemma binary_round_signed (s : bool) (m : positive) (e : Z) :
  -1074 <= e -> signed s (binary_round prec emax s m e).
Proof.
  intros He. unfold binary_round.
  destruct (shl_align m e (fexp prec emax (Z.pos (digits2_pos m) + e)))
    as [mz ez] eqn:E.
  apply binary_round_aux_signed; [lia |].
  unfold shl_align in E. rewrite fexp_eq in E.
  destruct (Z.max (Z.pos (digits2_pos m) + e - 53) (-1074) - e);
    injection E as _ <-; lia.
Qed.

(** ** The order of the numbers a format holds *)

Lemma canonical_bounds (m : positive) (e : Z) :
  canonical_mantissa prec emax m e = true ->
  -1074 <= e /\ Z.pos (digits2_pos m) <= 53
  /\ (-1074 < e -> Z.pos (digits2_pos m) = 53).
Proof.
  unfold canonical_mantissa. rewrite fexp_eq. intros Hc.
  apply Z.eqb_eq in Hc. lia.
Qed.

(** Of two numbers in canonical form, the one with the smaller exponent
    is the smaller. *)
Lemma canonical_lt (m1 m2 : positive) (e1 e2 : Z) :
  canonical_mantissa prec emax m1 e1 = true ->
  canonical_mantissa prec emax m2 e2 = true ->
  e1 < e2 -> Z.pos m1 < Z.pos m2 * 2 ^ (e2 - e1).
Proof.
  intros H1 H2 He.
  destruct (canonical_bounds m1 e1 H1) as [Hmin1 [Hd1 _]].
  destruct (canonical_bounds m2 e2 H2) as [_ [_ Hd2]].
  specialize (Hd2 ltac:(lia)).
  pose proof (digits2_pos_bounds m1) as B1.
  pose proof (digits2_pos_bounds m2) as B2.
  rewrite Hd2 in B2.
  assert (Hp : 2 ^ Z.pos (digits2_pos m1) <= 2 ^ 53)
    by (apply Z.pow_le_mono_r; lia).
  assert (Hk : 2 ^ 1 <= 2 ^ (e2 - e1)) by (apply Z.pow_le_mono_r; lia).
  change (2 ^ 1) with 2 in Hk. change (53 - 1) with 52 in B2.
  assert (H52 : (2 : Z) ^ 53 = 2 ^ 52 * 2) by reflexivity.
  nia.
Qed.

(** The sign of the difference of the aligned mantissas tells which of
    two finite numbers is the smaller. *)
Lemma aligned_difference (s1 s2 : bool) (m1 m2 : positive) (e1 e2 : Z) :
  canonical_mantissa prec emax m1 e1 = true ->
  canonical_mantissa prec emax m2 e2 = true ->
  let ez := Z.min e1 e2 in
  let D := cond_Zopp s1 (Z.pos (fst (shl_align m1 e1 ez)))
           - cond_Zopp s2 (Z.pos (fst (shl_align m2 e2 ez))) in
  D < 0 <-> lex_lt (key (S754_finite s1 m1 e1)) (key (S754_finite s2 m2 e2)).
Proof.
  intros H1 H2 ez D. subst D.
  destruct (shl_align_value m1 e1 ez ltac:(subst ez; lia)) as [-> _].
  destruct (shl_align_value m2 e2 ez ltac:(subst ez; lia)) as [-> _].
  assert (Hcases : (e1 = e2 /\ ez = e1) \/ (e1 < e2 /\ ez = e1)
                   \/ (e2 < e1 /\ ez = e2)) by (subst ez; lia).
  destruct Hcases as [[He Hz] | [[He Hz] | [He Hz]]]; rewrite Hz.
  - subst e2. rewrite !Z.sub_diag. change (2 ^ 0) with 1.
    destruct s1, s2; cbv beta iota zeta delta [lex_lt key cond_Zopp]; lia.
  - pose proof (canonical_lt m1 m2 e1 e2 H1 H2 He) as Hlt.
    rewrite Z.sub_diag. change (2 ^ 0) with 1.
    destruct s1, s2; cbv beta iota zeta delta [lex_lt key cond_Zopp]; lia.
  - pose proof (canonical_lt m2 m1 e2 e1 H2 H1 He) as Hlt.
    rewrite Z.sub_diag. change (2 ^ 0) with 1.
    destruct s1, s2; cbv beta iota zeta delta [lex_lt key cond_Zopp]; lia.
Qed.

Lemma valid_canonical (s : bool) (m : positive) (e : Z) :
  SpecFloat.valid_binary prec emax (S754_finite s m e) = true ->
  canonical_mantissa prec emax m e = true.
Proof.
  cbn. unfold bounded. intros H. apply andb_true_iff in H. tauto.
Qed.

(** The difference of two numbers is below zero exactly when the first
    is below the second. *)
Lemma SFsub_negative (X Y : spec_float) :
  SpecFloat.valid_binary prec emax X = true ->
  SpecFloat.valid_binary prec emax Y = true ->
  SFltb (SFsub prec emax X Y) (S754_zero false) = SFltb X Y.
Proof.
  intros HX HY.
  destruct X as [sx | sx | | sx mx ex], Y as [sy | sy | | sy my ey];
    try (destruct sx; destruct sy; reflexivity);
    try (destruct sx; reflexivity); try (destruct sy; reflexivity);
    try reflexivity.
  apply valid_canonical in HX, HY.
  pose proof (aligned_difference sx sy mx my ex ey HX HY) as HA.
  cbv zeta in HA.
  pose proof (SFltb_key (S754_finite sx mx ex) (S754_finite sy my ey)
                eq_refl eq_refl) as HK.
  assert (Hez : -1074 <= Z.min ex ey)
    by (destruct (canonical_bounds _ _ HX), (canonical_bounds _ _ HY); lia).
  unfold SFsub.
  set (D := cond_Zopp sx (Z.pos (fst (shl_align mx ex (Z.min ex ey))))
            - cond_Zopp sy (Z.pos (fst (shl_align my ey (Z.min ex ey))))) in *.
  destruct D as [| p | p] eqn:Ed; unfold binary_normalize.
  - destruct (SFltb (S754_finite sx mx ex) (S754_finite sy my ey)) eqn:EL;
      [| reflexivity].
    exfalso. assert (HL : 0 < 0) by (apply HA, HK; reflexivity). lia.
  - pose proof (binary_round_signed false p _ Hez) as Hs.
    destruct (binary_round prec emax false p (Z.min ex ey)) as [| s | | s m e];
      cbn in Hs; try contradiction; subst s.
    all: destruct (SFltb (S754_finite sx mx ex) (S754_finite sy my ey)) eqn:EL;
      [| reflexivity].
    all: exfalso; assert (HL : Z.pos p < 0) by (apply HA, HK; reflexivity); lia.
  - pose proof (binary_round_signed true p _ Hez) as Hs.
    destruct (binary_round prec emax true p (Z.min ex ey)) as [| s | | s m e];
      cbn in Hs; try contradiction; subst s.
    all: destruct (SFltb (S754_finite sx mx ex) (S754_finite sy my ey)) eqn:EL;
      [reflexivity |].
    all: exfalso; assert (HL : false = true) by (apply HK, HA; lia);
      discriminate.
Qed.

(** ** The laws, for the numbers of JavaScript *)

Local Open Scope float_scope.

Lemma is_nan_eqb (x : float) :
  (x =? x) = true -> is_nan (Prim2SF x) = false.
Proof.
  rewrite eqb_spec. now destruct (Prim2SF x).
Qed.

Lemma ltb_irrefl (x : float) : (x <? x) = false.
Proof.
  rewrite ltb_spec. destruct (is_nan (Prim2SF x)) eqn:N.
  - now destruct (Prim2SF x).
  - destruct (SFltb (Prim2SF x) (Prim2SF x)) eqn:E; [| reflexivity].
    apply (SFltb_key _ _ N N) in E.
    destruct (key (Prim2SF x)) as [[a b] c]. cbn in E. lia.
Qed.

Lemma ltb_numbers (x y : float) :
  (x <? y) = true ->
  is_nan (Prim2SF x) = false /\ is_nan (Prim2SF y) = false.
Proof.
  rewrite ltb_spec. unfold SFltb.
  destruct (Prim2SF x), (Prim2SF y); try discriminate; now split.
Qed.

Lemma ltb_trans (x y z : float) :
  (x <? y) = true -> (y <? z) = true -> (x <? z) = true.
Proof.
  intros Hxy Hyz.
  destruct (ltb_numbers _ _ Hxy) as [Nx Ny].
  destruct (ltb_numbers _ _ Hyz) as [_ Nz].
  rewrite ltb_spec in *.
  apply (SFltb_key _ _ Nx Ny) in Hxy. apply (SFltb_key _ _ Ny Nz) in Hyz.
  apply (SFltb_key _ _ Nx Nz).
  destruct (key (Prim2SF x)) as [[a1 a2] a3], (key (Prim2SF y)) as [[b1 b2] b3],
    (key (Prim2SF z)) as [[c1 c2] c3].
  cbn in *. lia.
Qed.

Lemma ltb_cotrans (x y z : float) :
  (y =? y) = true ->
  (x <? y) = false -> (y <? z) = false -> (x <? z) = false.
Proof.
  intros Hy Hxy Hyz. apply is_nan_eqb in Hy.
  destruct (x <? z) eqn:Hxz; [| reflexivity]. exfalso.
  destruct (ltb_numbers _ _ Hxz) as [Nx Nz].
  rewrite ltb_spec in *.
  apply (SFltb_key _ _ Nx Nz) in Hxz.
  assert (H1 : ~ lex_lt (key (Prim2SF x)) (key (Prim2SF y)))
    by (intros H1; apply (SFltb_key _ _ Nx Hy) in H1; congruence).
  assert (H2 : ~ lex_lt (key (Prim2SF y)) (key (Prim2SF z)))
    by (intros H2; apply (SFltb_key _ _ Hy Nz) in H2; congruence).
  destruct (key (Prim2SF x)) as [[a1 a2] a3], (key (Prim2SF y)) as [[b1 b2] b3],
    (key (Prim2SF z)) as [[c1 c2] c3].
  cbn in *. lia.
Qed.

Lemma sub_negative (x y : float) : (x - y <? 0) = (x <? y).
Proof.
  rewrite !ltb_spec, sub_spec.
  change (Prim2SF 0) with (S754_zero false).
  apply SFsub_negative; apply Prim2SF_valid.
Qed.

(** The numbers of JavaScript are ordered as ranking needs. *)
#[export] Instance float_OrderedNumber : OrderedNumber float.
Proof.
  constructor.
  - exact ltb_irrefl.
  - exact ltb_trans.
  - exact ltb_cotrans.
  - exact sub_negative.
Qed.

End FloatOrderFacts.

(* ================================================================== *)
(** * Facts about arrays *)
(* ================================================================== *)

Module JsArrayFacts.

Import JsArray.

(** [xs.slice(0, limit)] for a limit that is not negative. *)
Lemma slice_0_limit {A : Type} (xs : list A) (limit : Z) :
  0 <= limit -> slice xs 0 limit = firstn (Z.to_nat limit) xs.
Proof.
  intros Hl. unfold slice, clamp_index.
  set (len := Z.of_nat (List.length xs)).
  assert (Hlen : 0 <= len) by (subst len; lia).
  replace (0 <? 0) with false by reflexivity.
  replace (limit <? 0) with false by (symmetry; apply Z.ltb_ge; lia).
  replace (Z.min 0 len) with 0 by lia.
  cbn [Z.to_nat skipn]. rewrite Z.sub_0_r.
  destruct (Z.le_gt_cases limit len) as [Hle | Hgt].
  - now replace (Z.max (Z.min limit len) 0) with limit by lia.
  - replace (Z.max (Z.min limit len) 0) with len by lia.
    subst len. rewrite Nat2Z.id.
    rewrite firstn_all. symmetry. apply firstn_all2. lia.
Qed.


Section SortFacts.

Context {A num : Type} `{OrderedNumber num}.

(** Elements are ranked by a key, larger keys first. *)
Variables (key : A -> num) (before : A -> A -> bool).

Hypothesis before_key : forall a b, before a b = num_ltb (key b) (key a).


(** Elements whose key is a number. *)
Local Abbreviation numeric := (fun a : A => is_number (key a) = true).


Lemma insert_by_perm (x : A) (xs : list A) :
  Permutation (insert_by before x xs) (x :: xs).
Proof.
  induction xs as [| y ys IH]; simpl; [reflexivity |].
  destruct (before y x); [| reflexivity].
  rewrite IH. apply perm_swap.
Qed.

Lemma sort_by_perm (xs : list A) : Permutation (sort_by before xs) xs.
Proof.
  induction xs as [| x xs IH]; simpl; [reflexivity |].
  rewrite insert_by_perm. now constructor.
Qed.





End SortFacts.

End JsArrayFacts.

(* ================================================================== *)
(** * Properties of the similarity search *)
(* ================================================================== *)

Module SearchFacts.

Import Database VectorStore SimilarityProperties JsArrayFacts.

Section Ranking.

Context {num : Type} `{OrderedNumber num}.

Local Abbreviation result := (SearchResult.t num).





End Ranking.

Section Search.

Context {num : Type} `{JsNumber num}.

Local Abbreviation result := (SearchResult.t num).

Variable fault : nat -> option Error.
Variable scan : list (Row.t num) -> list (Row.t num).
Variable nearest : NearestQuery.t num -> list (Row.t num)
                   -> list (Row.t num * num).







End Search.

End SearchFacts.

Module SearchTheorems.

Import Database VectorStore SimilarityProperties SearchProperties JsArrayFacts
  SearchFacts Inputs FloatOrderFacts.

Section Ranked.

Context {num : Type} `{OrderedNumber num}.

Variable fault : nat -> option Error.
Variable scan : list (Row.t num) -> list (Row.t num).
Variable nearest : NearestQuery.t num -> list (Row.t num)
                   -> list (Row.t num * num).


End Ranked.



Section Zero.

Context {num : Type} `{JsNumber num}.

Variable fault : nat -> option Error.
Variable scan : list (Row.t num) -> list (Row.t num).
Variable nearest : NearestQuery.t num -> list (Row.t num)
                   -> list (Row.t num * num).

(** C10.  With [minSimilarity] equal to 0 a search does what it does
    without [minSimilarity], in both branches: the query of the pgvector
    branch carries no threshold and the JavaScript branch sorts and
    limits all the similarities.  The threshold is in the query, and
    the results of the JavaScript branch are those with
    [similarity >= minSimilarity], when [minSimilarity] is a number
    other than 0. *)
Theorem searchSimilar_zero_minSimilarity_is_no_threshold
    (queryEmbedding : list num) (limit : Z) (year filename : option jsstring)
    (m : num) :
  num_eqb m num_zero = true ->
  (forall w,
      searchSimilar fault scan nearest queryEmbedding limit
                    (filters_with year filename (Some m)) w
      = searchSimilar fault scan nearest queryEmbedding limit
                      (filters_with year filename None) w)
  /\ NearestQuery.threshold
       (nearest_query queryEmbedding limit (filters_with year filename (Some m)))
     = None
  /\ (forall similarities,
         rank similarities limit (filters_with year filename (Some m))
         = JsArray.slice (sort similarities) 0 limit)
  /\ (forall m',
         truthy m' = true ->
         NearestQuery.threshold
           (nearest_query queryEmbedding limit
                          (filters_with year filename (Some m')))
         = Some m'
         /\ forall similarities,
             rank similarities limit (filters_with year filename (Some m'))
             = JsArray.slice
                 (sort (filter (fun r => num_leb m' (SearchResult.similarity r))
                               similarities))
                 0 limit).
Proof.
  intros Hz.
  assert (Ht : truthy m = false).
  { unfold truthy. rewrite Hz. apply andb_false_r. }
  assert (Hf : minSimilarity_filter (filters_with year filename (Some m)) = None).
  { unfold minSimilarity_filter, filters_with. cbn. now rewrite Ht. }
  assert (Hq : forall l,
             nearest_query queryEmbedding l (filters_with year filename (Some m))
             = nearest_query queryEmbedding l (filters_with year filename None)).
  { intros l. unfold nearest_query. now rewrite Hf. }
  assert (Hr : forall similarities,
             rank similarities limit (filters_with year filename (Some m))
             = JsArray.slice (sort similarities) 0 limit).
  { intros similarities. unfold rank. now rewrite Hf. }
  repeat split.
  - intros w. unfold searchSimilar. rewrite Hq.
    unfold try_catch, bind.
    destruct (get_useVectorExtension w) as [[[|] | e] w1]; try reflexivity.
    change (where_clause (filters_with year filename (Some m)))
      with (where_clause (filters_with (num := num) year filename None)).
    destruct (select_documents fault scan _ w1) as [[[col rows] | e] w2];
      [| reflexivity].
    destruct (map_rows _ rows) as [similarities | e]; [| reflexivity].
    unfold ret. now rewrite Hr.
  - unfold nearest_query. exact Hf.
  - exact Hr.
  - unfold nearest_query, minSimilarity_filter, filters_with. cbn.
    now rewrite H0.
  - intros similarities. unfold rank, minSimilarity_filter, filters_with. cbn.
    now rewrite H0.
Qed.

End Zero.

(** C10, on binary64, over a [vector(1536)] column read by a store that
    was not initialised: with [minSimilarity: 0] the search is the
    search without it, and a row whose similarity is [-1] is returned;
    with [minSimilarity: 0.5] it is not. *)
Lemma searchSimilar_zero_minSimilarity_witness :
  num_eqb 0%float num_zero = true
  /\ (forall w,
         searchSimilar no_fault as_inserted no_answer (padded [1%float]) 5
                       (filters_with None None (Some 0%float)) w
         = searchSimilar no_fault as_inserted no_answer (padded [1%float]) 5
                         (filters_with None None None) w)
  /\ (exists results w',
         searchSimilar no_fault as_inserted no_answer (padded [1%float]) 5
                       (filters_with None None (Some 0%float))
                       (vector_world opposite_row)
         = (Ok results, w')
         /\ map SearchResult.similarity results = [(-1)%float])
  /\ fst (searchSimilar no_fault as_inserted no_answer (padded [1%float]) 5
             (filters_with None None (Some 0.5%float))
             (vector_world opposite_row))
     = Ok [].
Proof.
  split; [reflexivity |]. split; [| split].
  - exact (proj1 (searchSimilar_zero_minSimilarity_is_no_threshold
                    no_fault as_inserted no_answer (padded [1%float]) 5
                    None None 0%float eq_refl)).
  - eexists. eexists. split; vm_compute; reflexivity.
  - vm_compute. reflexivity.
Defined.

End SearchTheorems.

(* ================================================================== *)
(** * Properties of the store *)
(* ================================================================== *)

Module StoreTheorems.

Import Database VectorStore StoreProperties.

Section Initialize.

Context {num : Type}.

Variable fault : nat -> option Error.

(** C9.  [initialize()] resolves exactly when none of the six statements
    other than the probe fails: getting a connection, [SELECT 1], the
    creation of the table and of its three indexes.  Whatever the probe
    does, it only chooses the mode: the vector mode when it succeeds,
    the JSON mode when it fails.  An error [initialize()] throws is the
    error one of those six statements met. *)
Theorem initialize_probe_failure_is_not_fatal (w : World.t num) :
  (fst (initialize fault w) = Ok tt
   <-> fault (World.clock w) = None
       /\ fault (1 + World.clock w)%nat = None
       /\ fault (3 + World.clock w)%nat = None
       /\ fault (4 + World.clock w)%nat = None
       /\ fault (5 + World.clock w)%nat = None
       /\ fault (6 + World.clock w)%nat = None)
  /\ (fst (initialize fault w) = Ok tt ->
      World.useVectorExtension (snd (initialize fault w))
      = match fault (2 + World.clock w)%nat with
        | None => true
        | Some _ => false
        end)
  /\ (forall e,
         fst (initialize fault w) = Err e ->
         exists k, In k [0; 1; 3; 4; 5; 6]%nat
                   /\ fault (k + World.clock w)%nat = Some e).
Proof.
  unfold initialize, try_catch, bind, query, get_useVectorExtension,
    set_useVectorExtension, throw.
  cbn.
  destruct (fault (World.clock w)) as [e0 |] eqn:F0; cbn.
  { split; [split; [discriminate | intros [? _]; discriminate] |].
    split; [discriminate |].
    intros e [= <-]. exists 0%nat. cbn. auto. }
  destruct (fault (S (World.clock w))) as [e1 |] eqn:F1; cbn.
  { split; [split; [discriminate | intros [_ [? _]]; discriminate] |].
    split; [discriminate |].
    intros e [= <-]. exists 1%nat. cbn. auto. }
  destruct (fault (S (S (World.clock w)))) as [e2 |] eqn:F2; cbn;
    destruct (World.table w) as [col |] eqn:T; cbn;
    (destruct (fault (S (S (S (World.clock w))))) as [e3 |] eqn:F3; cbn;
     [ split; [split; [discriminate | intros [_ [_ [? _]]]; discriminate] |];
       split; [discriminate |];
       intros e [= <-]; exists 3%nat; cbn; auto 10 |]);
    rewrite ?T; cbn;
    (destruct (fault (S (S (S (S (World.clock w)))))) as [e4 |] eqn:F4; cbn;
     [ split; [split; [discriminate | intros [_ [_ [_ [? _]]]]; discriminate] |];
       split; [discriminate |];
       intros e [= <-]; exists 4%nat; cbn; auto 10 |]);
    rewrite ?T; cbn;
    (destruct (fault (S (S (S (S (S (World.clock w))))))) as [e5 |] eqn:F5; cbn;
     [ split; [split; [discriminate
                      | intros [_ [_ [_ [_ [? _]]]]]; discriminate] |];
       split; [discriminate |];
       intros e [= <-]; exists 5%nat; cbn; auto 10 |]);
    rewrite ?T; cbn;
    (destruct (fault (S (S (S (S (S (S (World.clock w)))))))) as [e6 |] eqn:F6;
     cbn;
     [ split; [split; [discriminate
                      | intros [_ [_ [_ [_ [_ ?]]]]]; discriminate] |];
       split; [discriminate |];
       intros e [= <-]; exists 6%nat; cbn; auto 10 |]);
    (split; [split; [intros _; repeat split; assumption | reflexivity] |];
     split; [reflexivity | discriminate]).
Qed.

End Initialize.

Section Upserts.

Context {num : Type}.

Local Abbreviation row := (Row.t num).
Local Abbreviation document := (ProcessedDocument.t num).

Lemma jsstring_eqb_eq (a b : jsstring) : JsString.eqb a b = true <-> a = b.
Proof.
  unfold JsString.eqb. destruct (list_eq_dec N.eq_dec a b); split;
    congruence.
Qed.

(** An upsert leaves the frame of every row it finds, in place, and adds
    at most one row after them. *)
Lemma upsert_frame (now : nat) (doc : document) (table : list row) :
  exists added,
    map frame (upsert now doc table) = map frame table ++ added.
Proof.
  induction table as [| r rest [added IH]]; simpl.
  - now exists [frame (inserted_row now doc)].
  - destruct (JsString.eqb (Row.id r) (ProcessedDocument.id doc)).
    + exists []. now rewrite app_nil_r.
    + exists added. simpl. now rewrite IH.
Qed.

Lemma upsert_all_frame (began : nat) (docs : list document) :
  forall table,
  exists added,
    map frame (fold_left (fun rs d => upsert began d rs) docs table)
    = map frame table ++ added.
Proof.
  induction docs as [| d docs IH]; intros table; simpl.
  - exists []. now rewrite app_nil_r.
  - destruct (IH (upsert began d table)) as [added2 H2].
    destruct (upsert_frame began d table) as [added1 H1].
    exists (added1 ++ added2). now rewrite H2, H1, app_assoc.
Qed.

(** The [id] of an upserted document is in the table afterwards, and a
    table that had it keeps its length. *)
Lemma upsert_has_id (now : nat) (doc : document) (table : list row) :
  In (ProcessedDocument.id doc) (map Row.id (upsert now doc table)).
Proof.
  induction table as [| r rest IH]; simpl; [now left |].
  destruct (JsString.eqb (Row.id r) (ProcessedDocument.id doc)) eqn:E; simpl.
  - left. now apply jsstring_eqb_eq.
  - now right.
Qed.

Lemma upsert_known_id (now : nat) (doc : document) (table : list row) :
  In (ProcessedDocument.id doc) (map Row.id table) ->
  map Row.id (upsert now doc table) = map Row.id table.
Proof.
  induction table as [| r rest IH]; simpl; [contradiction |].
  destruct (JsString.eqb (Row.id r) (ProcessedDocument.id doc)) eqn:E;
    [reflexivity |].
  intros [Hr | Hin].
  - apply jsstring_eqb_eq in Hr. congruence.
  - simpl. now rewrite IH.
Qed.

Lemma upsert_keeps_ids (now : nat) (doc : document) (table : list row) (i : jsstring) :
  In i (map Row.id table) -> In i (map Row.id (upsert now doc table)).
Proof.
  induction table as [| r rest IH]; simpl; [contradiction |].
  destruct (JsString.eqb (Row.id r) (ProcessedDocument.id doc));
    simpl; intros [Hr | Hin]; auto.
Qed.

Lemma upsert_all_has_ids (began : nat) (docs : list document) :
  forall table,
    incl (map Row.id table ++ map ProcessedDocument.id docs)
         (map Row.id (fold_left (fun rs d => upsert began d rs) docs table)).
Proof.
  induction docs as [| d docs IH]; intros table i Hi; simpl in *.
  - now rewrite app_nil_r in Hi.
  - apply IH. apply in_app_or in Hi. apply in_or_app.
    destruct Hi as [Hi | [<- | Hi]].
    + left. now apply upsert_keeps_ids.
    + left. apply upsert_has_id.
    + now right.
Qed.

Lemma upsert_all_known_ids (began : nat) (docs : list document) :
  forall table,
    incl (map ProcessedDocument.id docs) (map Row.id table) ->
    map Row.id (fold_left (fun rs d => upsert began d rs) docs table)
    = map Row.id table.
Proof.
  induction docs as [| d docs IH]; intros table Hi; simpl; [reflexivity |].
  assert (Hd : In (ProcessedDocument.id d) (map Row.id table))
    by (apply Hi; now left).
  rewrite IH; [now apply upsert_known_id |].
  rewrite (upsert_known_id _ _ _ Hd).
  intros i Hin. apply Hi. now right.
Qed.

End Upserts.

Section StoreDocuments.

Context {num : Type}.

Local Abbreviation document := (ProcessedDocument.t num).

Variable fault : nat -> option Error.

Lemma upsert_doc_in_txn (doc : document) (w : World.t num) began working :
  World.txn w = Some (began, working) ->
  (upsert_doc fault) doc w
  = match fault (World.clock w) with
    | Some e => (Err e, tick w)
    | None =>
        if accepted (World.table w) doc
        then (Ok tt, tick (with_txn w (Some (began, upsert began doc working))))
        else (Err (refusal (World.table w)), tick w)
    end.
Proof.
  destruct w as [mode table rows txn clock]. cbn [World.txn]. intros ->.
  unfold upsert_doc, bind, get_useVectorExtension, query, accepted, refusal.
  destruct mode; cbn; destruct (fault clock); try reflexivity;
    destruct table as [col |]; try reflexivity;
    match goal with
    | |- context [accepts ?c doc] => destruct (accepts c doc); reflexivity
    end.
Qed.

(** The loop inside a transaction: the committed rows stay as they are;
    either every document is upserted into the rows of the transaction,
    or the loop throws at the first upsert that fails, with its
    error. *)
Lemma upsert_loop (docs : list document) :
  forall (w : World.t num) began working,
    World.txn w = Some (began, working) ->
    World.rows (snd (for_of docs (upsert_doc fault) w)) = World.rows w
    /\ World.table (snd (for_of docs (upsert_doc fault) w)) = World.table w
    /\ match fst (for_of docs (upsert_doc fault) w) with
       | Ok _ =>
           World.txn (snd (for_of docs (upsert_doc fault) w))
           = Some (began, fold_left (fun rs d => upsert began d rs) docs working)
           /\ World.clock (snd (for_of docs (upsert_doc fault) w))
              = (List.length docs + World.clock w)%nat
           /\ forall i d,
               nth_error docs i = Some d ->
               fault (i + World.clock w)%nat = None
               /\ accepted (World.table w) d = true
       | Err e =>
           (exists working',
               World.txn (snd (for_of docs (upsert_doc fault) w))
               = Some (began, working'))
           /\ exists i d,
               nth_error docs i = Some d
               /\ World.clock (snd (for_of docs (upsert_doc fault) w))
                  = (S i + World.clock w)%nat
               /\ (forall j d',
                      (j < i)%nat -> nth_error docs j = Some d' ->
                      fault (j + World.clock w)%nat = None
                      /\ accepted (World.table w) d' = true)
               /\ match fault (i + World.clock w)%nat with
                  | Some e' => e = e'
                  | None =>
                      accepted (World.table w) d = false
                      /\ e = refusal (World.table w)
                  end
       end.
Proof.
  induction docs as [| d docs IH]; intros w began working Ht.
  - cbn. split; [reflexivity |]. split; [reflexivity |].
    split; [exact Ht |]. split; [reflexivity |].
    intros [| i] d' Hd; discriminate.
  - cbn [for_of]. unfold bind.
    rewrite (upsert_doc_in_txn d w began working Ht).
    destruct (fault (World.clock w)) as [e |] eqn:F.
    { cbn [fst snd tick World.rows World.table World.txn World.clock].
      split; [reflexivity |]. split; [reflexivity |].
      split; [now exists working |].
      exists O, d. cbn [nth_error plus]. rewrite F.
      split; [reflexivity |]. split; [reflexivity |].
      split; [intros j d' Hj; lia | reflexivity]. }
    destruct (accepted (World.table w) d) eqn:A.
    2:{ cbn [fst snd tick World.rows World.table World.txn World.clock].
        split; [reflexivity |]. split; [reflexivity |].
        split; [now exists working |].
        exists O, d. cbn [nth_error plus]. rewrite F.
        split; [reflexivity |]. split; [reflexivity |].
        split; [intros j d' Hj; lia | now split]. }
    set (w1 := tick (with_txn w (Some (began, upsert began d working)))).
    destruct (IH w1 began (upsert began d working) eq_refl) as [Hr [Htb Hm]].
    change (World.table w1) with (World.table w) in *.
    change (World.clock w1) with (S (World.clock w)) in *.
    change (World.rows w1) with (World.rows w) in *.
    split; [exact Hr |]. split; [exact Htb |].
    destruct (fst (for_of docs (upsert_doc fault) w1)) as [[] | e].
    + destruct Hm as [Htx [Hc Hall]].
      split; [exact Htx |]. split.
      * rewrite Hc. cbn. lia.
      * intros [| i] d' Hd.
        -- injection Hd as <-. cbn. now split.
        -- specialize (Hall i d' Hd).
           replace (S i + World.clock w)%nat
             with (i + S (World.clock w))%nat by lia.
           exact Hall.
    + destruct Hm as [Hw [i [d' [Hd [Hc [Hbefore Hat]]]]]].
      split; [exact Hw |].
      exists (S i), d'. split; [exact Hd |]. split.
      * rewrite Hc. lia.
      * replace (S i + World.clock w)%nat
          with (i + S (World.clock w))%nat by lia.
        split; [| exact Hat].
        intros [| j] d'' Hj Hd''.
        -- injection Hd'' as <-. cbn. now split.
        -- replace (S j + World.clock w)%nat
             with (j + S (World.clock w))%nat by lia.
           apply (Hbefore j d''); [lia | exact Hd''].
Qed.

Lemma storeDocuments_unfold (documents : list document) (w : World.t num) :
  storeDocuments fault documents w
  = match fault (World.clock w) with
    | Some e => (Err e, tick w)
    | None =>
        match
          bind (query fault Begin)
               (fun _ => bind (for_of documents (upsert_doc fault))
                              (fun _ => query fault Commit)) (tick w)
        with
        | (Ok a, w') => (Ok a, w')
        | (Err e, w') =>
            bind (query fault Rollback) (fun _ => @throw num unit e) w'
        end
    end.
Proof.
  unfold storeDocuments, finally, try_catch.
  unfold bind at 1. unfold query at 1. cbn [apply_stmt interrupted].
  destruct (fault (World.clock w)); [reflexivity |].
  destruct (bind (query fault Begin) _ (tick w)) as [[a | e] w']; [reflexivity |].
  now destruct (bind (query fault Rollback) _ w').
Qed.

(** Rolling back and throwing again leaves the committed rows alone and
    no transaction open; what is thrown is the error at hand, or the one
    the [ROLLBACK] met. *)
Lemma rollback_throws (e : Error) (w : World.t num) :
  bind (query fault Rollback) (fun _ => @throw num unit e) w
  = (Err match fault (World.clock w) with Some e' => e' | None => e end,
     tick (with_txn w None)).
Proof.
  unfold bind, query, throw. cbn [apply_stmt interrupted].
  now destruct (fault (World.clock w)).
Qed.

Lemma query_begin (w : World.t num) :
  query fault Begin w
  = match fault (World.clock w) with
    | Some e => (Err e, tick w)
    | None =>
        (Ok tt,
         tick (with_txn w (Some match World.txn w with
                                | Some open => open
                                | None => (World.clock w, World.rows w)
                                end)))
    end.
Proof.
  unfold query. cbn [apply_stmt interrupted].
  destruct (fault (World.clock w)); [reflexivity |].
  destruct w as [mode table rows [[b wk] |] clock]; reflexivity.
Qed.

Lemma query_commit (w : World.t num) began working :
  World.txn w = Some (began, working) ->
  query fault Commit w
  = match fault (World.clock w) with
    | Some e => (Err e, tick w)
    | None => (Ok tt, tick (with_txn (with_rows w working) None))
    end.
Proof. intros Ht. unfold query. cbn [apply_stmt interrupted]. now rewrite Ht. Qed.

(** No statement of the call fails exactly when nothing fails from
    outside and the server accepts every document. *)
Lemma no_statement_error (documents : list document) (w : World.t num) :
  (forall k, (k <= List.length documents + 2)%nat ->
             statement_error fault w documents k = None)
  <-> (forall k, (k <= List.length documents + 2)%nat ->
                 fault (k + World.clock w)%nat = None)
      /\ Forall (fun d => accepted (World.table w) d = true) documents.
Proof.
  unfold statement_error. split.
  - intros Hall. split.
    + intros k Hk. specialize (Hall k Hk).
      now destruct (fault (k + World.clock w)%nat).
    + apply Forall_forall. intros d Hd.
      destruct (In_nth_error _ _ Hd) as [i Hi].
      assert (Hlt : (i < List.length documents)%nat)
        by (apply nth_error_Some; congruence).
      specialize (Hall (S (S i)) ltac:(lia)).
      destruct (fault (S (S i) + World.clock w)%nat); [discriminate |].
      rewrite Hi in Hall.
      now destruct (accepted (World.table w) d).
  - intros [Hf Ha] k Hk. rewrite (Hf k Hk).
    destruct k as [| [| i]]; try reflexivity.
    destruct (nth_error documents i) as [d |] eqn:Hi; [| reflexivity].
    rewrite Forall_forall in Ha. now rewrite (Ha d (nth_error_In _ _ Hi)).
Qed.

(** What a call of [storeDocuments] does, statement by statement. *)
Lemma storeDocuments_steps (documents : list document) (w w' : World.t num)
    (r : Result unit) :
  storeDocuments fault documents w = (r, w') ->
  World.table w' = World.table w
  /\ match r with
     | Ok _ =>
         (forall k, (k <= List.length documents + 2)%nat ->
                    statement_error fault w documents k = None)
         /\ World.rows w'
            = fold_left (fun rs d => upsert (fst (transaction_base w)) d rs)
                        documents (snd (transaction_base w))
         /\ World.txn w' = None
     | Err e =>
         World.rows w' = World.rows w
         /\ exists k e0,
             (k <= List.length documents + 2)%nat
             /\ (forall j, (j < k)%nat ->
                           statement_error fault w documents j = None)
             /\ statement_error fault w documents k = Some e0
             /\ match k with
                | O => e = e0 /\ World.txn w' = World.txn w
                | S _ =>
                    e = match fault (S k + World.clock w)%nat with
                        | Some e' => e'
                        | None => e0
                        end
                    /\ World.txn w' = None
                end
     end.
Proof.
  rewrite storeDocuments_unfold. unfold statement_error.
  destruct (fault (World.clock w)) as [e |] eqn:F0.
  { intros [= <- <-]. cbn [tick World.table World.rows World.txn].
    split; [reflexivity |]. split; [reflexivity |].
    exists O, e. cbn [plus]. rewrite F0.
    split; [lia |]. split; [intros j Hj; lia |]. now repeat split. }
  unfold bind at 1. rewrite query_begin.
  change (World.clock (tick w)) with (S (World.clock w)).
  destruct (fault (S (World.clock w))) as [e |] eqn:F1.
  { rewrite rollback_throws. intros [= <- <-].
    cbn [tick World.table World.rows World.txn with_txn World.clock].
    split; [reflexivity |]. split; [reflexivity |].
    exists 1%nat, e. cbn [plus]. rewrite F1.
    split; [lia |]. split; [| now repeat split].
    intros j Hj. assert (j = O) by lia. subst j. cbn [plus]. now rewrite F0. }
  assert (Hopen : match World.txn (tick w) with
                  | Some open => open
                  | None => (S (World.clock w), World.rows (tick w))
                  end = transaction_base w).
  { unfold transaction_base. cbn [tick World.txn World.rows].
    now destruct (World.txn w). }
  rewrite Hopen. clear Hopen.
  destruct (transaction_base w) as [began working] eqn:Ebase.
  cbn [fst snd].
  set (w2 := tick (with_txn (tick w) (Some (began, working)))).
  destruct (upsert_loop documents w2 began working eq_refl) as [Hr [Htb Hm]].
  change (World.table w2) with (World.table w) in *.
  change (World.rows w2) with (World.rows w) in *.
  change (World.clock w2) with (S (S (World.clock w))) in *.
  unfold bind at 1.
  destruct (for_of documents (upsert_doc fault) w2) as [[[] | e] w3];
    cbn [fst snd] in *.
  - destruct Hm as [Htx [Hc Hall]].
    rewrite (query_commit w3 _ _ Htx), Hc.
    destruct (fault (List.length documents + S (S (World.clock w)))%nat)
      as [e |] eqn:F3.
    + rewrite rollback_throws. intros [= <- <-].
      cbn [tick World.table World.rows World.txn with_txn World.clock].
      split; [exact Htb |]. split; [exact Hr |].
      exists (List.length documents + 2)%nat, e.
      split; [lia |]. split; [| split].
      * intros j Hj. destruct j as [| [| i]]; cbn [plus];
          rewrite ?F0, ?F1; try reflexivity.
        destruct (nth_error documents i) as [d |] eqn:Hi.
        -- destruct (Hall i d Hi) as [Hf Ha].
           replace (S (S (i + World.clock w)))
             with (i + S (S (World.clock w)))%nat by lia.
           now rewrite Hf, Ha.
        -- apply nth_error_None in Hi. lia.
      * replace (List.length documents + 2 + World.clock w)%nat
          with (List.length documents + S (S (World.clock w)))%nat by lia.
        now rewrite F3.
      * replace (List.length documents + 2)%nat
          with (S (S (List.length documents))) by lia.
        split; [| reflexivity].
        rewrite Hc.
        replace (S (S (S (List.length documents))) + World.clock w)%nat
          with (S (List.length documents + S (S (World.clock w)))) by lia.
        reflexivity.
    + intros [= <- <-].
      cbn [tick World.table World.rows World.txn with_txn with_rows].
      split; [exact Htb |]. split; [| split; reflexivity].
      intros k Hk. destruct k as [| [| i]]; cbn [plus];
        rewrite ?F0, ?F1; try reflexivity.
      replace (S (S (i + World.clock w)))
        with (i + S (S (World.clock w)))%nat by lia.
      destruct (nth_error documents i) as [d |] eqn:Hi.
      * destruct (Hall i d Hi) as [Hf Ha]. now rewrite Hf, Ha.
      * apply nth_error_None in Hi.
        assert (i = List.length documents) by lia. subst i.
        now rewrite F3.
  - destruct Hm as [_ [i [d [Hd [Hc [Hbefore Hat]]]]]].
    rewrite rollback_throws, Hc. intros [= <- <-].
    cbn [tick World.table World.rows World.txn with_txn].
    split; [exact Htb |]. split; [exact Hr |].
    assert (Hlt : (i < List.length documents)%nat)
      by (apply nth_error_Some; congruence).
    exists (S (S i)),
      match fault (i + S (S (World.clock w)))%nat with
      | Some e' => e'
      | None => refusal (World.table w)
      end.
    split; [lia |]. split; [| split].
    + intros j Hj. destruct j as [| [| j']]; cbn [plus];
        rewrite ?F0, ?F1; try reflexivity.
      replace (S (S (j' + World.clock w)))
        with (j' + S (S (World.clock w)))%nat by lia.
      destruct (nth_error documents j') as [d' |] eqn:Hj'.
      * destruct (Hbefore j' d' ltac:(lia) Hj') as [Hf Ha]. now rewrite Hf, Ha.
      * apply nth_error_None in Hj'. lia.
    + cbn [plus].
      replace (S (S (i + World.clock w)))
        with (i + S (S (World.clock w)))%nat by lia.
      destruct (fault (i + S (S (World.clock w)))%nat); [reflexivity |].
      rewrite Hd. destruct Hat as [-> _]. reflexivity.
    + split; [| reflexivity].
      replace (S (S (S i)) + World.clock w)%nat
        with (S (i + S (S (World.clock w)))) by lia.
      destruct (fault (S (i + S (S (World.clock w))))); [reflexivity |].
      destruct (fault (i + S (S (World.clock w)))%nat);
        [exact Hat | now destruct Hat].
Qed.

Lemma storeDocuments_run (documents : list document) (w : World.t num) :
  World.table (snd (storeDocuments fault documents w)) = World.table w
  /\ match fst (storeDocuments fault documents w) with
     | Ok _ =>
         (forall k, (k <= List.length documents + 2)%nat ->
                    statement_error fault w documents k = None)
         /\ World.rows (snd (storeDocuments fault documents w))
            = fold_left (fun rs d => upsert (fst (transaction_base w)) d rs)
                        documents (snd (transaction_base w))
         /\ World.txn (snd (storeDocuments fault documents w)) = None
     | Err e =>
         World.rows (snd (storeDocuments fault documents w)) = World.rows w
         /\ exists k e0,
             (k <= List.length documents + 2)%nat
             /\ (forall j, (j < k)%nat ->
                           statement_error fault w documents j = None)
             /\ statement_error fault w documents k = Some e0
             /\ match k with
                | O =>
                    e = e0
                    /\ World.txn (snd (storeDocuments fault documents w))
                       = World.txn w
                | S _ =>
                    e = match fault (S k + World.clock w)%nat with
                        | Some e' => e'
                        | None => e0
                        end
                    /\ World.txn (snd (storeDocuments fault documents w))
                       = None
                end
     end.
Proof.
  destruct (storeDocuments fault documents w) as [r w'] eqn:Hs.
  exact (storeDocuments_steps documents w w' r Hs).
Qed.

(** An error a statement of the call met is one from outside or a
    refusal of the server. *)
Lemma statement_error_originates (documents : list document)
    (w : World.t num) (k : nat) (e : Error) :
  statement_error fault w documents k = Some e -> originates fault e.
Proof.
  unfold statement_error, originates, refusal.
  destruct (fault (k + World.clock w)%nat) as [e' |] eqn:F.
  - intros [= <-]. left. now exists (k + World.clock w)%nat.
  - destruct k as [| [| i]]; try discriminate.
    destruct (nth_error documents i); [| discriminate].
    destruct (accepted _ _); [discriminate |].
    intros [= <-]. destruct (World.table w); auto.
Qed.

(** What [storeDocuments] leaves behind when no transaction was open. *)
Lemma storeDocuments_outcome (documents : list document) (w w' : World.t num)
    (r : Result unit) :
  World.txn w = None ->
  storeDocuments fault documents w = (r, w') ->
  World.table w' = World.table w
  /\ match r with
     | Ok _ =>
         World.rows w'
         = fold_left (fun rs d => upsert (S (World.clock w)) d rs) documents
                     (World.rows w)
         /\ World.txn w' = None
         /\ forall i d,
             nth_error documents i = Some d ->
             fault (i + (2 + World.clock w))%nat = None
             /\ accepted (World.table w) d = true
     | Err e => World.rows w' = World.rows w /\ originates fault e
     end.
Proof.
  intros Ht Hs.
  destruct (storeDocuments_run documents w) as [Htb Hm].
  rewrite Hs in Htb, Hm. cbn [fst snd] in Htb, Hm.
  split; [exact Htb |].
  destruct r as [[] | e].
  - destruct Hm as [Hall [Hr Hx]].
    unfold transaction_base in Hr. rewrite Ht in Hr. cbn [fst snd] in Hr.
    split; [exact Hr |]. split; [exact Hx |].
    intros i d Hd.
    assert (Hlt : (i < List.length documents)%nat)
      by (apply nth_error_Some; congruence).
    destruct (proj1 (no_statement_error documents w) Hall) as [Hf Ha].
    split.
    + replace (i + (2 + World.clock w))%nat
        with (S (S i) + World.clock w)%nat by lia.
      apply Hf. lia.
    + rewrite Forall_forall in Ha. exact (Ha d (nth_error_In _ _ Hd)).
  - destruct Hm as [Hr [k [e0 [_ [_ [Hk He]]]]]].
    split; [exact Hr |].
    pose proof (statement_error_originates _ _ _ _ Hk) as Ho.
    destruct k as [| k]; [destruct He as [-> _]; exact Ho |].
    destruct He as [-> _].
    destruct (fault (S (S k) + World.clock w)%nat) as [e' |] eqn:F;
      [| exact Ho].
    left. now exists (S (S k) + World.clock w)%nat.
Qed.

(** A call that resolves has had every document of the batch accepted,
    whatever the state it was made in. *)
Lemma storeDocuments_resolves_accepted (documents : list document)
    (w w' : World.t num) :
  storeDocuments fault documents w = (Ok tt, w') ->
  forall d, In d documents -> accepted (World.table w) d = true.
Proof.
  intros Hs d Hd.
  destruct (storeDocuments_run documents w) as [_ Hm].
  rewrite Hs in Hm. cbn [fst] in Hm. destruct Hm as [Hall _].
  destruct (proj1 (no_statement_error documents w) Hall) as [_ Ha].
  rewrite Forall_forall in Ha. exact (Ha d Hd).
Qed.


End StoreDocuments.


Section Resubmission.

Context {num : Type}.

Variables fault fault' : nat -> option Error.

(** C8.  Called with no transaction open, [storeDocuments] leaves the
    [id], [filename], [year], [chunk_index], [total_chunks], [source] and
    [created_at] of every row the table had, in place, whatever the batch
    submits again, and only adds rows after them; and when a batch has
    been stored, storing the same batch again leaves the number of rows
    as it is. *)
Theorem storeDocuments_resubmission_frame
    (documents : list (ProcessedDocument.t num)) (w : World.t num) :
  World.txn w = None ->
  (exists added,
      map frame (World.rows (snd (storeDocuments fault documents w)))
      = map frame (World.rows w) ++ added)
  /\ (fst (storeDocuments fault documents w) = Ok tt ->
      List.length
        (World.rows
           (snd (storeDocuments fault' documents
                                (snd (storeDocuments fault documents w)))))
      = List.length (World.rows (snd (storeDocuments fault documents w)))).
Proof.
  intros Ht.
  destruct (storeDocuments fault documents w) as [r w1] eqn:Hs.
  destruct (storeDocuments_outcome fault documents w w1 r Ht Hs) as [_ Hm].
  cbn [fst snd]. split.
  - destruct r as [[] | e].
    + destruct Hm as [-> _]. apply upsert_all_frame.
    + destruct Hm as [-> _]. exists []. now rewrite app_nil_r.
  - intros ->. destruct Hm as [Hr [Ht1 _]].
    destruct (storeDocuments fault' documents w1) as [r2 w2] eqn:Hs2.
    destruct (storeDocuments_outcome fault' documents w1 w2 r2 Ht1 Hs2)
      as [_ Hm2].
    cbn [snd]. destruct r2 as [[] | e].
    + destruct Hm2 as [-> _].
      rewrite <- (length_map Row.id), <- (length_map Row.id (World.rows w1)).
      f_equal. apply upsert_all_known_ids.
      rewrite Hr. intros i Hi.
      apply upsert_all_has_ids. apply in_or_app. now right.
    + now destruct Hm2 as [-> _].
Qed.

End Resubmission.

Section Typing.

Context {num : Type} `{JsNumber num}.

Local Abbreviation world := (World.t num).

Lemma upsert_fits (col : ColType) (now : nat) (doc : ProcessedDocument.t num)
    (rows : list (Row.t num)) :
  accepts col doc = true ->
  fits (Some col) rows -> fits (Some col) (upsert now doc rows).
Proof.
  intros Ha. unfold accepts in Ha. apply andb_true_iff in Ha as [_ Ha].
  destruct col as [n |]; cbn; [| trivial].
  assert (Hd : forall v, ProcessedDocument.embedding doc = Some v ->
                         List.length v = n).
  { intros v Hv. rewrite Hv in Ha. cbn in Ha. now apply Nat.eqb_eq. }
  induction rows as [| r rows IH]; intros Hf; cbn.
  - constructor; [exact Hd | constructor].
  - inversion Hf as [| ? ? Hr Hrs]; subst.
    destruct (JsString.eqb (Row.id r) (ProcessedDocument.id doc)).
    + constructor; [exact Hd | exact Hrs].
    + constructor; [exact Hr | now apply IH].
Qed.

Lemma well_typed_tick (w : world) : well_typed w -> well_typed (tick w).
Proof. intros Hw. exact Hw. Qed.

Lemma apply_stmt_well_typed (s : Stmt num) (w w' : world) :
  creates_known_table s ->
  well_typed w -> apply_stmt s w = Ok w' -> well_typed w'.
Proof.
  intros Hs [Ht [Hr Hx]]. unfold well_typed.
  destruct s; cbn [apply_stmt]; intros Ha;
    try (injection Ha as <-; now repeat split).
  - (* CreateTable *)
    destruct (World.table w) eqn:T; injection Ha as <-; cbn.
    + rewrite T. now repeat split.
    + cbn in Hr. repeat split.
      * destruct col as [n |]; cbn in Hs; subst; auto.
      * rewrite Hr. destruct col; cbn; auto.
      * destruct (World.txn w) as [[b wk] |]; [| exact I].
        cbn in Hx. rewrite Hx. destruct col; cbn; auto.
  - destruct (World.table w) eqn:T; [| discriminate].
    injection Ha as <-. rewrite !T. now repeat split.
  - destruct (World.table w) eqn:T; [| discriminate].
    injection Ha as <-. rewrite !T. now repeat split.
  - destruct (World.table w) eqn:T; [| discriminate].
    injection Ha as <-. rewrite !T. now repeat split.
  - (* Begin *)
    destruct (World.txn w) as [[b wk] |] eqn:X; injection Ha as <-; cbn.
    + rewrite X. now repeat split.
    + now repeat split.
  - (* Commit *)
    destruct (World.txn w) as [[b wk] |] eqn:X; injection Ha as <-; cbn.
    + now repeat split.
    + rewrite X. now repeat split.
  - (* Upsert *)
    destruct (World.table w) as [col |] eqn:T; [| discriminate].
    destruct (accepts col doc) eqn:A; [| discriminate].
    destruct (World.txn w) as [[b wk] |] eqn:X; injection Ha as <-; cbn;
      rewrite ?T, ?X; repeat split; try assumption;
      now apply upsert_fits.
Qed.

Variable fault : nat -> option Error.

Lemma preserves_query (s : Stmt num) :
  creates_known_table s -> preserves (query fault s).
Proof.
  intros Hs w Hw. unfold query.
  destruct (fault (World.clock w)).
  - destruct s; try exact Hw.
    destruct Hw as [Ht [Hr _]]. now repeat split.
  - destruct (apply_stmt s w) as [w' |] eqn:Ha; [| exact Hw].
    exact (apply_stmt_well_typed s w w' Hs Hw Ha).
Qed.

Lemma preserves_ret {A} (a : A) : preserves (ret (num := num) a).
Proof. intros w Hw. exact Hw. Qed.

Lemma preserves_throw {A} (e : Error) : preserves (@throw num A e).
Proof. intros w Hw. exact Hw. Qed.

Lemma preserves_bind {A B} (m : M num A) (k : A -> M num B) :
  preserves m -> (forall a, preserves (k a)) -> preserves (bind m k).
Proof.
  intros Hm Hk w Hw. unfold bind. specialize (Hm w Hw).
  destruct (m w) as [[a | e] w']; [now apply Hk | exact Hm].
Qed.

Lemma preserves_try_catch {A} (m : M num A) (h : Error -> M num A) :
  preserves m -> (forall e, preserves (h e)) -> preserves (try_catch m h).
Proof.
  intros Hm Hh w Hw. unfold try_catch. specialize (Hm w Hw).
  destruct (m w) as [[a | e] w']; [exact Hm | now apply Hh].
Qed.

Lemma preserves_finally {A} (m : M num A) :
  preserves m -> preserves (finally m (fun w => w)).
Proof.
  intros Hm w Hw. unfold finally. specialize (Hm w Hw).
  now destruct (m w).
Qed.

Lemma preserves_get : preserves (get_useVectorExtension (num := num)).
Proof. intros w Hw. exact Hw. Qed.

Lemma preserves_set (b : bool) :
  preserves (set_useVectorExtension (num := num) b).
Proof. intros w Hw. exact Hw. Qed.

Lemma preserves_for_of {A} (xs : list A) (body : A -> M num unit) :
  (forall x, preserves (body x)) -> preserves (for_of xs body).
Proof.
  intros Hb. induction xs as [| x xs IH]; cbn [for_of].
  - apply preserves_ret.
  - apply preserves_bind; [apply Hb | intros _; exact IH].
Qed.

Lemma preserves_if {A} (b : bool) (m1 m2 : M num A) :
  preserves m1 -> preserves m2 -> preserves (if b then m1 else m2).
Proof. now destruct b. Qed.

Lemma preserves_select_documents scan (ps : list Predicate) :
  preserves (select_documents (num := num) fault scan ps).
Proof.
  intros w Hw. unfold select_documents.
  destruct (fault (World.clock w)); [exact Hw |].
  destruct (World.table w); exact Hw.
Qed.

Lemma preserves_select_nearest nearest (q : NearestQuery.t num) :
  preserves (select_nearest fault nearest q).
Proof.
  intros w Hw. unfold select_nearest.
  destruct (fault (World.clock w)); [exact Hw |].
  destruct (World.table w) as [[n |] |]; exact Hw.
Qed.

End Typing.

Create HintDb store_typing.

#[export] Hint Resolve preserves_query preserves_ret preserves_throw
  preserves_bind preserves_try_catch preserves_finally preserves_get
  preserves_set preserves_for_of preserves_if preserves_select_documents
  preserves_select_nearest : store_typing.

Section Reachable.

Context {num : Type} `{JsNumber num}.

Lemma preserves_initialize fault : preserves (initialize (num := num) fault).
Proof.
  unfold initialize.
  repeat (first [ apply preserves_try_catch | apply preserves_bind
                | apply preserves_if
                | match goal with |- forall _, _ => intro end ]);
    auto with store_typing; apply preserves_query; cbn; auto.
Qed.

Lemma preserves_storeDocuments fault (documents : list (ProcessedDocument.t num)) :
  preserves (storeDocuments fault documents).
Proof.
  unfold storeDocuments.
  repeat (first [ apply preserves_try_catch | apply preserves_bind
                | apply preserves_finally | apply preserves_for_of
                | apply preserves_if
                | match goal with |- forall _, _ => intro end ]);
    auto with store_typing; apply preserves_query; exact I.
Qed.

Lemma preserves_searchSimilar fault scan nearest (queryEmbedding : list num)
    (limit : Z) (filters : option (Filters.t num)) :
  preserves (searchSimilar fault scan nearest queryEmbedding limit filters).
Proof.
  unfold searchSimilar.
  apply preserves_try_catch; [| intro; apply preserves_throw].
  apply preserves_bind; [apply preserves_get |].
  intros [|].
  - apply preserves_bind; [apply preserves_select_nearest |].
    intro. apply preserves_ret.
  - apply preserves_bind; [apply preserves_select_documents |].
    intros [col rows]. destruct (map_rows _ rows);
      [apply preserves_ret | apply preserves_throw].
Qed.

Lemma reachable_well_typed (w : World.t num) : reachable w -> well_typed w.
Proof.
  induction 1.
  - unfold well_typed. cbn. auto.
  - now apply preserves_initialize.
  - now apply preserves_storeDocuments.
  - now apply preserves_searchSimilar.
Qed.

(** C5, as amended.  In every state of the store whose table has the
    column [vector(1536)] (the column [initialize] creates in the vector
    mode), every persisted embedding has 1536 components, so all have one
    length; and a batch with an embedding of another length is refused:
    the call throws.  (With the [JSONB] column of the JSON mode nothing
    checks the length.) *)
Theorem reachable_vector_column_dimension (w : World.t num) :
  reachable w ->
  World.table w = Some (VectorCol 1536) ->
  Forall (fun r => forall v, Row.embedding r = Some v ->
                             List.length v = 1536%nat)
         (World.rows w)
  /\ uniform_dimension w
  /\ (forall fault documents d v,
         In d documents ->
         ProcessedDocument.embedding d = Some v ->
         List.length v <> 1536%nat ->
         exists e, fst (storeDocuments fault documents w) = Err e).
Proof.
  intros Hr Ht.
  destruct (reachable_well_typed w Hr) as [_ [Hf _]].
  rewrite Ht in Hf. cbn in Hf.
  split; [exact Hf |]. split.
  - intros r1 r2 v1 v2 H1 H2 E1 E2.
    rewrite Forall_forall in Hf.
    now rewrite (Hf r1 H1 v1 E1), (Hf r2 H2 v2 E2).
  - intros fault documents d v Hd Hv Hl.
    destruct (storeDocuments fault documents w) as [[[] | e] w'] eqn:Hs;
      [| now exists e].
    pose proof (storeDocuments_resolves_accepted fault documents w w' Hs d Hd)
      as Ha.
    unfold accepted, accepts in Ha. rewrite Ht, Hv in Ha.
    apply andb_true_iff in Ha as [_ Ha]. cbn in Ha.
    apply Nat.eqb_eq in Ha. contradiction.
Qed.

End Reachable.

(** The store after [initialize] in the vector mode and a batch of one
    document with 1536 components. *)
Lemma reachable_vector_column_witness :
  reachable
    (snd (storeDocuments Inputs.no_fault Inputs.full_batch
            (snd (initialize Inputs.no_fault Inputs.empty_world))))
  /\ World.table
       (snd (storeDocuments Inputs.no_fault Inputs.full_batch
               (snd (initialize Inputs.no_fault Inputs.empty_world))))
     = Some (VectorCol 1536)
  /\ List.length
       (World.rows
          (snd (storeDocuments Inputs.no_fault Inputs.full_batch
                  (snd (initialize Inputs.no_fault Inputs.empty_world)))))
     = 1%nat
  /\ Forall (fun r => forall v, Row.embedding r = Some v ->
                                List.length v = 1536%nat)
            (World.rows
               (snd (storeDocuments Inputs.no_fault Inputs.full_batch
                       (snd (initialize Inputs.no_fault Inputs.empty_world))))).
Proof.
  assert (Hr : reachable
                 (snd (storeDocuments Inputs.no_fault Inputs.full_batch
                         (snd (initialize Inputs.no_fault Inputs.empty_world))))).
  { apply reachable_storeDocuments, reachable_initialize, reachable_new. }
  assert (Ht : World.table
                 (snd (storeDocuments Inputs.no_fault Inputs.full_batch
                         (snd (initialize Inputs.no_fault Inputs.empty_world))))
               = Some (VectorCol 1536)).
  { vm_compute. reflexivity. }
  split; [exact Hr |]. split; [exact Ht |].
  split; [vm_compute; reflexivity |].
  exact (proj1 (reachable_vector_column_dimension _ Hr Ht)).
Defined.

(** C5, as stated, fails in the JSON mode.  The probe fails, [initialize]
    creates the [JSONB] column, and a batch whose embeddings have one and
    two components is stored whole. *)
Lemma mixed_dimensions_counterexample :
  ~ (forall w : World.t float, reachable w -> uniform_dimension w).
Proof.
  intros Hall.
  set (w := snd (storeDocuments Inputs.no_fault Inputs.mixed_batch
                   (snd (initialize (Inputs.fault_at 2) Inputs.empty_world)))).
  assert (Hr : reachable w).
  { apply reachable_storeDocuments, reachable_initialize, reachable_new. }
  assert (Hrows : map Row.embedding (World.rows w)
                  = [Some [1%float]; Some [1%float; 2%float]]).
  { vm_compute. reflexivity. }
  destruct (World.rows w) as [| r1 [| r2 [| r3 rest]]] eqn:E;
    try discriminate.
  injection Hrows as H1 H2.
  specialize (Hall w Hr r1 r2 [1%float] [1%float; 2%float]).
  rewrite E in Hall.
  specialize (Hall (or_introl eq_refl) (or_intror (or_introl eq_refl)) H1 H2).
  discriminate.
Qed.

(** C8, evaluated: a table with the row ["a"], a batch that submits ["a"]
    again and ["b"] anew, stored twice. *)
Lemma storeDocuments_resubmission_witness :
  World.txn (Inputs.scalar_world Inputs.stored_row) = None
  /\ map Row.embedding
         (World.rows
            (snd (storeDocuments Inputs.no_fault Inputs.second_batch
                                 (Inputs.scalar_world Inputs.stored_row))))
     = [Some [2%float]; Some [3%float]]
  /\ (exists added,
         map frame
             (World.rows
                (snd (storeDocuments Inputs.no_fault Inputs.second_batch
                                     (Inputs.scalar_world Inputs.stored_row))))
         = map frame (World.rows (Inputs.scalar_world Inputs.stored_row))
           ++ added)
  /\ (fst (storeDocuments Inputs.no_fault Inputs.second_batch
                          (Inputs.scalar_world Inputs.stored_row))
      = Ok tt ->
      List.length
        (World.rows
           (snd (storeDocuments Inputs.no_fault Inputs.second_batch
                   (snd (storeDocuments Inputs.no_fault Inputs.second_batch
                           (Inputs.scalar_world Inputs.stored_row))))))
      = List.length
          (World.rows
             (snd (storeDocuments Inputs.no_fault Inputs.second_batch
                                  (Inputs.scalar_world Inputs.stored_row))))).
Proof.
  split; [reflexivity |]. split; [vm_compute; reflexivity |].
  apply (storeDocuments_resubmission_frame Inputs.no_fault Inputs.no_fault
           Inputs.second_batch (Inputs.scalar_world Inputs.stored_row)).
  reflexivity.
Defined.

End StoreTheorems.

(* ================================================================== *)
(** * Properties of the rest of the document processor *)
(* ================================================================== *)

Module IngestionTheorems.

Import Ingestion IngestionProperties ChunkProperties.

Lemma match_four_digits_leftmost (s : jsstring) :
  (exists i,
      digits_at s i = true
      /\ (forall j, (j < i)%nat -> digits_at s j = false)
      /\ match_four_digits s = Some (firstn 4 (skipn i s)))
  \/ ((forall i, digits_at s i = false) /\ match_four_digits s = None).
Proof.
  induction s as [| a rest IH].
  - right. split; [| reflexivity]. intros [| i]; reflexivity.
  - cbn [match_four_digits]. destruct (four_digits (a :: rest)) eqn:E.
    + left. exists 0%nat. split; [exact E |]. split; [| reflexivity].
      intros j Hj. inversion Hj.
    + destruct IH as [[i [Hi [Hmin Hm]]] | [Hnone Hm]].
      * left. exists (S i). split; [exact Hi |]. split; [| exact Hm].
        intros [| j] Hj; [exact E |]. apply Hmin. apply Nat.succ_lt_mono, Hj.
      * right. split; [| exact Hm].
        intros [| i]; [exact E | apply Hnone].
Qed.

(** X3.  [extractYearFromFilename] returns the four digits of the
    leftmost place of the file name where four digits stand in a row,
    and ["unknown"] when there is no such place. *)
Theorem extractYearFromFilename_leftmost_digits (filename : jsstring) :
  (exists i,
      digits_at filename i = true
      /\ (forall j, (j < i)%nat -> digits_at filename j = false)
      /\ extractYearFromFilename filename = firstn 4 (skipn i filename)
      /\ List.length (extractYearFromFilename filename) = 4%nat
      /\ forallb is_digit (extractYearFromFilename filename) = true)
  \/ ((forall i, digits_at filename i = false)
      /\ extractYearFromFilename filename = lit "unknown").
Proof.
  unfold extractYearFromFilename.
  destruct (match_four_digits_leftmost filename)
    as [[i [Hi [Hmin Hm]]] | [Hnone Hm]]; rewrite Hm.
  - left. exists i. split; [exact Hi |]. split; [exact Hmin |].
    split; [reflexivity |].
    unfold digits_at, four_digits in Hi.
    destruct (skipn i filename) as [| a [| b [| c [| d rest]]]];
      try discriminate.
    apply andb_true_iff in Hi as [Hi Hd].
    apply andb_true_iff in Hi as [Hi Hc].
    apply andb_true_iff in Hi as [Ha Hb].
    cbn. split; [reflexivity |]. now rewrite Ha, Hb, Hc, Hd.
  - right. now split.
Qed.

(** ** The length of a chunk *)

Lemma slice_length_le (s : jsstring) (a b : Z) :
  0 <= a -> 0 <= b -> length (slice s a b) <= Z.max 0 (b - a).
Proof.
  intros Ha Hb. unfold length, slice, JsArray.slice, JsArray.clamp_index.
  replace (a <? 0) with false by (symmetry; apply Z.ltb_ge; lia).
  replace (b <? 0) with false by (symmetry; apply Z.ltb_ge; lia).
  rewrite length_firstn. lia.
Qed.

Lemma lastIndexOf_from_lt (c : code_unit) (s : jsstring) :
  forall i found,
    found < i -> lastIndexOf_from c s i found < i + length s.
Proof.
  unfold length.
  induction s as [| x xs IH]; intros i found Hf; cbn [lastIndexOf_from].
  - cbn. lia.
  - specialize (IH (i + 1) (if N.eqb x c then i else found)).
    cbn [List.length]. rewrite Nat2Z.inj_succ.
    destruct (N.eqb x c); lia.
Qed.

Lemma lastIndexOf_lt (s : jsstring) (c : code_unit) :
  lastIndexOf s c < length s.
Proof.
  unfold lastIndexOf.
  pose proof (lastIndexOf_from_lt c s 0 (-1)). lia.
Qed.

Lemma trim_length_le (s : jsstring) : length (trim s) <= length s.
Proof.
  unfold trim, length.
  destruct (JsStringFacts.trimStart_suffix s) as [p Hp].
  destruct (JsStringFacts.trimEnd_prefix (trimStart s)) as [q Hq].
  apply (f_equal (@List.length _)) in Hp, Hq.
  rewrite length_app in Hp, Hq. lia.
Qed.

(** A pass through the loop from a cursor that is not negative takes at
    most [chunkSize] units. *)
Lemma chunk_step_length_le (content : jsstring) (chunkSize overlap start : Z) :
  0 <= start -> 0 <= chunkSize ->
  length (snd (Chunker.chunk_step content chunkSize overlap start))
  <= chunkSize.
Proof.
  intros Hs Hc. unfold Chunker.chunk_step.
  set (e := Z.min (start + chunkSize) (length content)).
  assert (He : 0 <= e).
  { subst e. pose proof (JsStringFacts.length_nonneg content). lia. }
  pose proof (slice_length_le content start e Hs He) as Hchunk.
  destruct (e <? length content); cbn [snd]; [| subst e; lia].
  set (boundary := Z.max (lastIndexOf (slice content start e) period)
                         (lastIndexOf (slice content start e) newline)).
  assert (Hb : -1 <= boundary < length (slice content start e)).
  { subst boundary.
    pose proof (ChunkerFacts.lastIndexOf_ge (slice content start e) period).
    pose proof (lastIndexOf_lt (slice content start e) period).
    pose proof (lastIndexOf_lt (slice content start e) newline). lia. }
  destruct (Chunker.past_threshold boundary start chunkSize); cbn [snd].
  - assert (Hb1 : 0 <= boundary + 1) by lia.
    pose proof (slice_length_le content start (boundary + 1) Hs Hb1).
    subst e. lia.
  - subst e. lia.
Qed.

Lemma chunkDocument_lengths (content : jsstring) (chunkSize overlap : Z) :
  advancing chunkSize overlap ->
  exists chunks,
    Chunker.chunkDocument content chunkSize overlap = Some chunks
    /\ Forall (fun c => 50 < length c <= chunkSize) chunks.
Proof.
  intros Hadv.
  destruct (ChunkerFacts.chunkDocument_terminates content chunkSize overlap Hadv)
    as [chunks Hc].
  exists chunks. split; [exact Hc |].
  pose proof (ChunkerFacts.chunk_loop_trace _ _ _ _ _ _ _ Hc) as Ht.
  rewrite ChunkerFacts.fold_push_substantial in Ht. cbn [app] in Ht.
  subst chunks.
  destruct (ChunkerFacts.chunk_starts_increasing content chunkSize overlap Hadv
              (List.length content) 0) as [_ Hpos].
  apply Forall_forall. intros c Hin.
  apply filter_In in Hin. destruct Hin as [Hin Hlen].
  apply Z.ltb_lt in Hlen. split; [exact Hlen |].
  apply in_map_iff in Hin. destruct Hin as [raw [<- Hraw]].
  apply in_map_iff in Hraw. destruct Hraw as [s [<- Hs]].
  rewrite Forall_forall in Hpos. specialize (Hpos s Hs).
  pose proof (trim_length_le
                (snd (Chunker.chunk_step content chunkSize overlap s))).
  pose proof (chunk_step_length_le content chunkSize overlap s Hpos).
  destruct Hadv as [Ho _]. lia.
Qed.

(** X5.  At a chunk size whose product by 0.7 is an integer in binary64,
    when the overlap is less than the chunk size and no more than that
    product, [chunkDocument] returns chunks of more than 50 and at most
    [chunkSize] code units. *)
Theorem chunkDocument_chunk_lengths (content : jsstring)
    (chunkSize overlap : Z) :
  advancing chunkSize overlap ->
  exists chunks,
    Chunker.chunkDocument content chunkSize overlap = Some chunks
    /\ Forall (fun c => 50 < length c <= chunkSize) chunks.
Proof. apply chunkDocument_lengths. Qed.

(** A text of 96 units in chunks of at most 70 (where [70 * 0.7] is 49)
    with an overlap of 30: the first chunk ends at the second full stop,
    the second one is the rest from thirty units before, trimmed. *)
Lemma chunkDocument_chunk_lengths_witness :
  advancing 70 30
  /\ Chunker.chunkDocument IngestionInputs.letter_text 70 30
     = Some [lit "To the shareholders. Our gain in net worth during the year was large.";
             lit "rth during the year was large. We thank all our managers."]
  /\ exists chunks,
      Chunker.chunkDocument IngestionInputs.letter_text 70 30 = Some chunks
      /\ Forall (fun c => 50 < length c <= 70) chunks.
Proof.
  assert (Ha : advancing 70 30).
  { split; [lia |]. exists 49. split; [vm_compute; reflexivity | lia]. }
  split; [exact Ha |]. split; [vm_compute; reflexivity |].
  exact (chunkDocument_chunk_lengths IngestionInputs.letter_text 70 30 Ha).
Defined.

(** ** Chunk identifiers *)

Lemma lit_digits (d : Decimal.uint) :
  all_digits (lit (NilEmpty.string_of_uint d)).
Proof.
  induction d; cbn; constructor; try reflexivity; assumption.
Qed.

Lemma of_nat_digits (n : nat) : all_digits (of_nat n).
Proof. apply lit_digits. Qed.

Lemma lit_inj (s t : string) : lit s = lit t -> s = t.
Proof.
  unfold lit. intros H.
  rewrite <- (string_of_list_ascii_of_string s),
          <- (string_of_list_ascii_of_string t).
  f_equal. revert H.
  generalize (list_ascii_of_string t). generalize (list_ascii_of_string s).
  induction l as [| a l IH]; intros [| b m] H; try discriminate.
  - reflexivity.
  - cbn in H. injection H as Hab Hlm. f_equal; [| now apply IH].
    rewrite <- (ascii_N_embedding a), <- (ascii_N_embedding b).
    now rewrite Hab.
Qed.

Lemma of_nat_inj (i j : nat) : of_nat i = of_nat j -> i = j.
Proof.
  unfold of_nat. intros H. apply lit_inj in H.
  assert (Hu : Nat.to_uint i = Nat.to_uint j).
  { pose proof (NilEmpty.usu (Nat.to_uint i)) as Hi.
    rewrite H, NilEmpty.usu in Hi. now injection Hi. }
  rewrite <- (DecimalNat.Unsigned.of_to i), <- (DecimalNat.Unsigned.of_to j).
  now rewrite Hu.
Qed.

(** Two strings that end in digits after a same non-digit end in the
    same digits. *)
Lemma digits_then_mark (u : code_unit) (p q r s : jsstring) :
  is_digit u = false -> all_digits p -> all_digits q ->
  p ++ u :: r = q ++ u :: s -> p = q /\ r = s.
Proof.
  intros Hu Hp. revert q.
  induction Hp as [| x p Hx Hp IH]; intros q Hq H.
  - destruct Hq as [| y q Hy Hq]; cbn in H.
    + injection H as <-. now split.
    + injection H as <- _. congruence.
  - destruct Hq as [| y q Hy Hq]; cbn in H.
    + injection H as -> _. congruence.
    + injection H as <- H. destruct (IH q Hq H) as [-> ->]. now split.
Qed.

(** The identifier of a chunk tells the file name and the index. *)
Lemma chunk_id_inj (filename1 filename2 : jsstring) (i j : nat) :
  filename1 ++ lit "_chunk_" ++ of_nat i
  = filename2 ++ lit "_chunk_" ++ of_nat j ->
  filename1 = filename2 /\ i = j.
Proof.
  intros H. apply (f_equal (@rev _)) in H.
  rewrite !rev_app_distr in H.
  change (rev (lit "_chunk_")) with (95%N :: rev (lit "_chunk")) in H.
  rewrite <- !app_assoc in H. cbn [app] in H.
  destruct (digits_then_mark 95%N (rev (of_nat i)) (rev (of_nat j))
              (rev (lit "_chunk") ++ rev filename1)
              (rev (lit "_chunk") ++ rev filename2))
    as [Hd Hf]; try assumption.
  - reflexivity.
  - apply Forall_rev, of_nat_digits.
  - apply Forall_rev, of_nat_digits.
  - split.
    + apply app_inv_head in Hf.
      rewrite <- (rev_involutive filename1), <- (rev_involutive filename2).
      now rewrite Hf.
    + apply of_nat_inj.
      rewrite <- (rev_involutive (of_nat i)), <- (rev_involutive (of_nat j)).
      now rewrite Hd.
Qed.

Section Identifiers.

Context {num : Type}.

Lemma numbered_from_ids (doc : RawDocument.t) (chunks : list jsstring) :
  forall i,
    map ProcessedDocument.id (numbered_from (num := num) doc i chunks)
    = map (fun k => RawDocument.filename doc ++ lit "_chunk_" ++ of_nat k)
          (seq i (List.length chunks)).
Proof.
  induction chunks as [| c chunks IH]; intros i; [reflexivity |].
  cbn. now rewrite IH.
Qed.

Lemma numbered_ids_NoDup (documents : list RawDocument.t) :
  forall chunkss : list (list jsstring),
    NoDup (map RawDocument.filename documents) ->
    NoDup (map ProcessedDocument.id
             (List.concat
                (map (fun '(doc, chunks) => numbered_from (num := num) doc 0 chunks)
                     (combine documents chunkss)))).
Proof.
  induction documents as [| doc rest IH]; intros [| chunks chunkss] Hn;
    try (cbn; constructor).
  cbn [combine map List.concat]. rewrite map_app.
  inversion Hn as [| ? ? Hnotin Hrest]; subst.
  apply NoDup_app.
  - rewrite numbered_from_ids.
    apply NoDup_map_NoDup_ForallPairs; [| apply seq_NoDup].
    intros a b _ _ Hab. now apply chunk_id_inj in Hab.
  - now apply IH.
  - intros x Hx Hx'. apply Hnotin.
    rewrite numbered_from_ids in Hx.
    apply in_map_iff in Hx. destruct Hx as [k [<- _]].
    apply in_map_iff in Hx'. destruct Hx' as [d [Hid Hd]].
    apply in_concat in Hd. destruct Hd as [l [Hl Hdl]].
    apply in_map_iff in Hl. destruct Hl as [[doc' chunks'] [<- Hpair]].
    apply in_combine_l in Hpair.
    assert (Hd' : In (ProcessedDocument.id d)
                     (map ProcessedDocument.id
                          (numbered_from (num := num) doc' 0 chunks')))
      by now apply in_map.
    rewrite numbered_from_ids in Hd'.
    apply in_map_iff in Hd'. destruct Hd' as [k' [Hk' _]].
    rewrite Hid in Hk'. apply chunk_id_inj in Hk'. destruct Hk' as [Hf _].
    rewrite <- Hf. now apply in_map.
Qed.

(** X4.  The identifier [filename + "_chunk_" + i] tells the file name
    and the index apart, so [createDocumentChunks] gives pairwise distinct
    identifiers to the chunks of documents whose file names are pairwise
    distinct. *)
Theorem createDocumentChunks_distinct_ids (documents : list RawDocument.t) :
  NoDup (map RawDocument.filename documents) ->
  exists processedDocs : list (ProcessedDocument.t num),
    DocumentProcessor.createDocumentChunks documents = Some processedDocs
    /\ NoDup (map ProcessedDocument.id processedDocs).
Proof.
  intros Hn.
  destruct (ChunkerTheorems.createDocumentChunks_from_spec (num := num)
              documents []) as [chunkss [_ Hr]].
  eexists. split; [exact Hr |].
  cbn [app]. now apply numbered_ids_NoDup.
Qed.

End Identifiers.

(** The two letters and the report get the identifiers of their chunks:
    one chunk for each letter, two for the report. *)
Lemma createDocumentChunks_distinct_ids_witness :
  NoDup (map RawDocument.filename
           [IngestionInputs.letter_1999; IngestionInputs.letter_2000;
            IngestionInputs.report_2001])
  /\ option_map (map ProcessedDocument.id)
       (DocumentProcessor.createDocumentChunks (num := float)
          [IngestionInputs.letter_1999; IngestionInputs.letter_2000;
           IngestionInputs.report_2001])
     = Some [lit "1999.pdf_chunk_0"; lit "2000.pdf_chunk_0";
             lit "2001.pdf_chunk_0"; lit "2001.pdf_chunk_1"]
  /\ exists processedDocs : list (ProcessedDocument.t float),
      DocumentProcessor.createDocumentChunks
        [IngestionInputs.letter_1999; IngestionInputs.letter_2000;
         IngestionInputs.report_2001] = Some processedDocs
      /\ NoDup (map ProcessedDocument.id processedDocs).
Proof.
  assert (Hn : NoDup (map RawDocument.filename
                        [IngestionInputs.letter_1999;
                         IngestionInputs.letter_2000;
                         IngestionInputs.report_2001])).
  { repeat constructor; cbn; intuition discriminate. }
  split; [exact Hn |]. split; [vm_compute; reflexivity |].
  exact (createDocumentChunks_distinct_ids (num := float) _ Hn).
Defined.

(** ** Reading the directory *)

Lemma endsWith_suffix (s suffix : jsstring) :
  endsWith s suffix = true -> exists stem, s = stem ++ suffix.
Proof.
  unfold endsWith. intros H. apply StoreTheorems.jsstring_eqb_eq in H.
  exists (firstn (List.length s - List.length suffix) s).
  rewrite <- H at 2. symmetry. apply firstn_skipn.
Qed.

Section Directory.

Variable readdirSync : Result (list jsstring).
Variable extractTextFromPDF : jsstring -> Result jsstring.

Local Abbreviation readable := (readable extractTextFromPDF).

Lemma parse_files_app (files : list jsstring) :
  forall documents,
    parse_files extractTextFromPDF files documents
    = documents ++ parse_files extractTextFromPDF files [].
Proof.
  induction files as [| file rest IH]; intros documents;
    cbn [parse_files]; [now rewrite app_nil_r |].
  destruct (extractTextFromPDF file) as [content | e]; [| apply IH].
  rewrite IH. rewrite (IH ([] ++ _)). cbn [app]. now rewrite <- app_assoc.
Qed.

Lemma parse_files_filenames (files : list jsstring) :
  map RawDocument.filename (parse_files extractTextFromPDF files [])
  = filter (fun file => succeeds (extractTextFromPDF file)) files.
Proof.
  induction files as [| file rest IH]; [reflexivity |].
  cbn [parse_files filter].
  destruct (extractTextFromPDF file) as [content | e]; cbn [succeeds];
    [| exact IH].
  rewrite parse_files_app. cbn [app map]. now rewrite IH.
Qed.

Lemma parse_files_documents (files : list jsstring) :
  Forall (fun d =>
            In (RawDocument.filename d) files
            /\ extractTextFromPDF (RawDocument.filename d)
               = Ok (RawDocument.content d)
            /\ RawDocument.year d
               = extractYearFromFilename (RawDocument.filename d))
         (parse_files extractTextFromPDF files []).
Proof.
  induction files as [| file rest IH]; [constructor |].
  cbn [parse_files].
  assert (IH' : Forall (fun d =>
            In (RawDocument.filename d) (file :: rest)
            /\ extractTextFromPDF (RawDocument.filename d)
               = Ok (RawDocument.content d)
            /\ RawDocument.year d
               = extractYearFromFilename (RawDocument.filename d))
         (parse_files extractTextFromPDF rest [])).
  { eapply Forall_impl; [| exact IH]. cbn beta.
    intros d [Hin Hrest]. split; [now right | exact Hrest]. }
  destruct (extractTextFromPDF file) as [content | e] eqn:E; [| exact IH'].
  rewrite parse_files_app. cbn [app]. constructor; [| exact IH'].
  cbn. repeat split; [now left | exact E].
Qed.

Lemma filter_filter {A : Type} (f g : A -> bool) (l : list A) :
  filter f (filter g l) = filter (fun x => g x && f x) l.
Proof.
  induction l as [| x l IH]; [reflexivity |].
  cbn [filter]. destruct (g x); cbn [filter andb]; [| exact IH].
  destruct (f x); now rewrite IH.
Qed.

Lemma parsePDFs_documents (entries : list jsstring) :
  readdirSync = Ok entries ->
  exists documents,
    parsePDFs readdirSync extractTextFromPDF = Ok documents
    /\ map RawDocument.filename documents = filter readable entries
    /\ Forall (fun d =>
                 extractTextFromPDF (RawDocument.filename d)
                 = Ok (RawDocument.content d)
                 /\ RawDocument.year d
                    = extractYearFromFilename (RawDocument.filename d))
              documents.
Proof.
  intros Hr. unfold parsePDFs. rewrite Hr. eexists. split; [reflexivity |].
  split.
  - rewrite parse_files_filenames. apply filter_filter.
  - eapply Forall_impl; [| apply parse_files_documents].
    cbn beta. tauto.
Qed.

(** X6.  [parsePDFs] rejects only with what [readdirSync] throws.
    Otherwise it resolves to one document for each directory entry whose
    name ends in [".pdf"] and whose text can be extracted, in the order of
    the directory; every other entry is left out.  The content of a
    document is the text extracted from its file and its year is the one
    [extractYearFromFilename] reads in the name. *)
Theorem parsePDFs_readable_entries :
  match readdirSync with
  | Err e => parsePDFs readdirSync extractTextFromPDF = Err e
  | Ok entries =>
      exists documents,
        parsePDFs readdirSync extractTextFromPDF = Ok documents
        /\ map RawDocument.filename documents = filter readable entries
        /\ Forall (fun d =>
                     (exists stem,
                         RawDocument.filename d = stem ++ lit ".pdf")
                     /\ extractTextFromPDF (RawDocument.filename d)
                        = Ok (RawDocument.content d)
                     /\ RawDocument.year d
                        = extractYearFromFilename (RawDocument.filename d))
                  documents
  end.
Proof.
  destruct readdirSync as [entries | e] eqn:Hr.
  - destruct (parsePDFs_documents entries) as [documents [Hp [Hn Hd]]];
      [exact Hr |].
    rewrite Hr in Hp.
    exists documents. split; [exact Hp |]. split; [exact Hn |].
    apply Forall_forall. intros d Hin.
    rewrite Forall_forall in Hd. split; [| now apply Hd].
    assert (Hf : In (RawDocument.filename d) (filter readable entries)).
    { rewrite <- Hn. now apply in_map. }
    apply filter_In in Hf. destruct Hf as [_ Hf].
    apply andb_true_iff in Hf. destruct Hf as [Hf _].
    now apply endsWith_suffix.
  - reflexivity.
Qed.

End Directory.

(** ** Embedding the chunks *)

Lemma subsequence_refl {A : Type} (l : list A) : subsequence l l.
Proof. induction l; constructor; assumption. Qed.

Lemma subsequence_In {A : Type} (xs ys : list A) :
  subsequence xs ys -> forall x, In x xs -> In x ys.
Proof.
  induction 1 as [| x xs ys _ IH | y xs ys _ IH]; intros z Hz.
  - exact Hz.
  - destruct Hz as [-> | Hz]; [now left | right; now apply IH].
  - right. now apply IH.
Qed.

Lemma subsequence_NoDup {A : Type} (xs ys : list A) :
  subsequence xs ys -> NoDup ys -> NoDup xs.
Proof.
  induction 1 as [| x xs ys Hs IH | y xs ys Hs IH]; intros Hn.
  - constructor.
  - inversion Hn as [| ? ? Hnotin Hrest]; subst. constructor.
    + intros Hin. apply Hnotin. eapply subsequence_In; eassumption.
    + now apply IH.
  - inversion Hn; subst. now apply IH.
Qed.

Lemma subsequence_map {A B : Type} (f : A -> B) (xs ys : list A) :
  subsequence xs ys -> subsequence (map f xs) (map f ys).
Proof. induction 1; cbn; constructor; assumption. Qed.

Lemma slice_short (s : jsstring) (limit : Z) :
  length s <= limit -> slice s 0 limit = s.
Proof.
  intros Hl. unfold slice.
  pose proof (JsStringFacts.length_nonneg s).
  rewrite JsArrayFacts.slice_0_limit by lia.
  apply firstn_all2. unfold length in Hl. lia.
Qed.

Section Embeddings.

Context {num : Type}.

Local Abbreviation document := (ProcessedDocument.t num).

Variable embeddings_create : nat -> jsstring -> Result (list num).

Local Abbreviation embedded := (embedded embeddings_create).

Lemma generateEmbeddings_from_app (processedDocs : list document) :
  forall call docsWithEmbeddings,
    generateEmbeddings_from embeddings_create call processedDocs
                            docsWithEmbeddings
    = docsWithEmbeddings
      ++ generateEmbeddings_from embeddings_create call processedDocs [].
Proof.
  induction processedDocs as [| doc rest IH]; intros call acc;
    cbn [generateEmbeddings_from]; [now rewrite app_nil_r |].
  destruct (createEmbedding embeddings_create call
              (ProcessedDocument.content doc)) as [embedding | e];
    [| apply IH].
  rewrite IH. rewrite (IH _ ([] ++ _)). cbn [app]. now rewrite <- app_assoc.
Qed.

Lemma generateEmbeddings_from_selects (processedDocs : list document) :
  forall call,
    let out := generateEmbeddings_from embeddings_create call processedDocs []
    in
    subsequence (map without_embedding out)
                (map without_embedding processedDocs)
    /\ Forall (fun d =>
                 exists k doc embedding,
                   nth_error processedDocs k = Some doc
                   /\ embeddings_create (call + k)
                        (slice (ProcessedDocument.content doc) 0 8000)
                      = Ok embedding
                   /\ d = with_embedding doc embedding)
              out
    /\ List.length out
       = List.length
           (filter (fun '(k, doc) => embedded k doc)
                   (combine (seq call (List.length processedDocs))
                            processedDocs)).
Proof.
  induction processedDocs as [| doc rest IH]; intros call; cbn zeta.
  - cbn. repeat split; constructor.
  - specialize (IH (S call)). cbn zeta in IH.
    destruct IH as [Hsub [Hall Hlen]].
    assert (Hall' : Forall (fun d =>
                 exists k doc' embedding,
                   nth_error (doc :: rest) k = Some doc'
                   /\ embeddings_create (call + k)
                        (slice (ProcessedDocument.content doc') 0 8000)
                      = Ok embedding
                   /\ d = with_embedding doc' embedding)
              (generateEmbeddings_from embeddings_create (S call) rest [])).
    { eapply Forall_impl; [| exact Hall]. cbn beta.
      intros d [k [doc' [embedding [Hk [He Hd]]]]].
      exists (S k), doc', embedding. repeat split; try assumption.
      now replace (call + S k)%nat with (S call + k)%nat by lia. }
    cbn [generateEmbeddings_from List.length seq combine filter].
    unfold embedded at 1. unfold createEmbedding.
    destruct (embeddings_create call
                (slice (ProcessedDocument.content doc) 0 8000))
      as [embedding | e] eqn:E; cbn [succeeds].
    + rewrite generateEmbeddings_from_app. cbn [app map List.length].
      split; [| split].
      * now constructor.
      * constructor; [| exact Hall'].
        exists 0%nat, doc, embedding. repeat split.
        now rewrite Nat.add_0_r.
      * now rewrite Hlen.
    + split; [| split].
      * cbn [map]. now constructor.
      * exact Hall'.
      * exact Hlen.
Qed.

(** X7.  [generateEmbeddings] never rejects.  It asks for one embedding
    per document, in order, from the first 8000 code units of the content;
    it returns the documents whose call resolved, in their order and
    otherwise unchanged, each with the embedding its own call gave, and it
    leaves out the others: as many documents come back as calls
    resolved. *)
Theorem generateEmbeddings_keeps_embedded (processedDocs : list document) :
  let out := generateEmbeddings embeddings_create processedDocs in
  subsequence (map without_embedding out)
              (map without_embedding processedDocs)
  /\ Forall (fun d =>
               exists call doc embedding,
                 nth_error processedDocs call = Some doc
                 /\ embeddings_create call
                      (slice (ProcessedDocument.content doc) 0 8000)
                    = Ok embedding
                 /\ d = with_embedding doc embedding)
            out
  /\ List.length out
     = List.length
         (filter (fun '(call, doc) => embedded call doc)
                 (combine (seq 0 (List.length processedDocs))
                          processedDocs)).
Proof. exact (generateEmbeddings_from_selects processedDocs 0%nat). Qed.

(** ** The whole pipeline *)

Lemma numbered_from_records (doc : RawDocument.t) (chunks : list jsstring) :
  forall i (d : document),
    In d (numbered_from doc i chunks) ->
    exists k c,
      In c chunks
      /\ d = {| ProcessedDocument.id :=
                  RawDocument.filename doc ++ lit "_chunk_" ++ of_nat k;
                ProcessedDocument.content := c;
                ProcessedDocument.metadata :=
                  {| Metadata.filename := RawDocument.filename doc;
                     Metadata.year := RawDocument.year doc;
                     Metadata.pageNumber := None;
                     Metadata.chunkIndex := Z.of_nat k |};
                ProcessedDocument.embedding := None |}.
Proof.
  induction chunks as [| c rest IH]; intros i d Hin; [destruct Hin |].
  cbn [numbered_from] in Hin. destruct Hin as [<- | Hin].
  - exists i, c. split; [now left | reflexivity].
  - destruct (IH _ _ Hin) as [k [c' [Hc Hd]]].
    exists k, c'. split; [now right | exact Hd].
Qed.

Lemma Forall2_combine_In {A B : Type} (P : A -> B -> Prop)
    (l : list A) (l' : list B) :
  Forall2 P l l' -> forall a b, In (a, b) (combine l l') -> P a b.
Proof.
  induction 1 as [| x y l l' Hxy _ IH]; intros a b Hin; [destruct Hin |].
  destruct Hin as [[= <- <-] | Hin]; [exact Hxy | now apply IH].
Qed.

(** What [createDocumentChunks] returns: a record of a chunk of at most
    1000 units of one of the documents. *)
Lemma createDocumentChunks_records (documents : list RawDocument.t) :
  exists processedDocs : list document,
    DocumentProcessor.createDocumentChunks documents = Some processedDocs
    /\ (NoDup (map RawDocument.filename documents) ->
        NoDup (map ProcessedDocument.id processedDocs))
    /\ Forall (fun d =>
                 exists doc k,
                   In doc documents
                   /\ ProcessedDocument.id d
                      = RawDocument.filename doc ++ lit "_chunk_" ++ of_nat k
                   /\ ProcessedDocument.metadata d
                      = {| Metadata.filename := RawDocument.filename doc;
                           Metadata.year := RawDocument.year doc;
                           Metadata.pageNumber := None;
                           Metadata.chunkIndex := Z.of_nat k |}
                   /\ trimmed_substantial (ProcessedDocument.content d)
                   /\ length (ProcessedDocument.content d) <= 1000)
              processedDocs.
Proof.
  destruct (ChunkerTheorems.createDocumentChunks_from_spec (num := num)
              documents []) as [chunkss [HF Hr]].
  eexists. split; [exact Hr |]. cbn [app]. split.
  - apply numbered_ids_NoDup.
  - apply Forall_forall. intros d Hd.
    apply in_concat in Hd. destruct Hd as [l [Hl Hdl]].
    apply in_map_iff in Hl. destruct Hl as [[doc chunks] [<- Hpair]].
    pose proof (Forall2_combine_In _ _ _ HF _ _ Hpair) as [Hc [Hts _]].
    destruct (numbered_from_records _ _ _ _ Hdl) as [k [c [Hin ->]]].
    exists doc, k. cbn.
    split; [exact (in_combine_l _ _ _ _ Hpair) |].
    split; [reflexivity |]. split; [reflexivity |].
    rewrite Forall_forall in Hts. split; [now apply Hts |].
    destruct (chunkDocument_lengths (RawDocument.content doc) 1000 200
                ChunkerTheorems.advancing_1000_200) as [chunks' [Hc' Hlen]].
    rewrite Hc in Hc'. injection Hc' as <-.
    rewrite Forall_forall in Hlen. now apply Hlen.
Qed.

Variable readdirSync : Result (list jsstring).
Variable extractTextFromPDF : jsstring -> Result jsstring.

(** X8.  When the directory can be read, [processDocuments] resolves,
    whatever the files hold and whatever the embedding service answers.
    Each document it returns is a chunk of a PDF of the directory: its
    content is trimmed, of more than 50 and at most 1000 code units, so
    the embedding it carries is the one the service gave for the whole
    content, nothing cut at 8000; its year is the one read in the file
    name; its identifier is the file name, ["_chunk_"] and the chunk
    index.  When no two entries of the directory are equal, no two
    identifiers are. *)
Theorem processDocuments_embedded_chunks (entries : list jsstring) :
  readdirSync = Ok entries ->
  exists out : list document,
    processDocuments embeddings_create readdirSync extractTextFromPDF
    = Some (Ok out)
    /\ (NoDup entries -> NoDup (map ProcessedDocument.id out))
    /\ Forall (fun d =>
                 let meta := ProcessedDocument.metadata d in
                 In (Metadata.filename meta) entries
                 /\ readable extractTextFromPDF (Metadata.filename meta) = true
                 /\ Metadata.year meta
                    = extractYearFromFilename (Metadata.filename meta)
                 /\ (exists k,
                        Metadata.chunkIndex meta = Z.of_nat k
                        /\ ProcessedDocument.id d
                           = Metadata.filename meta ++ lit "_chunk_"
                             ++ of_nat k)
                 /\ trimmed_substantial (ProcessedDocument.content d)
                 /\ length (ProcessedDocument.content d) <= 1000
                 /\ exists call embedding,
                      ProcessedDocument.embedding d = Some embedding
                      /\ embeddings_create call (ProcessedDocument.content d)
                         = Ok embedding)
              out.
Proof.
  intros Hr.
  destruct (parsePDFs_documents readdirSync extractTextFromPDF entries Hr)
    as [documents [Hp [Hn Hd]]].
  destruct (createDocumentChunks_records documents)
    as [processedDocs [Hc [Hids Hrec]]].
  destruct (generateEmbeddings_from_selects processedDocs 0%nat)
    as [Hsub [Hall _]].
  fold (generateEmbeddings embeddings_create processedDocs) in Hsub, Hall.
  exists (generateEmbeddings embeddings_create processedDocs).
  unfold processDocuments. rewrite Hp, Hc. split; [reflexivity |]. split.
  - intros Hnd.
    assert (Hout : map ProcessedDocument.id
                     (generateEmbeddings embeddings_create processedDocs)
                   = map ProcessedDocument.id
                       (map without_embedding
                          (generateEmbeddings embeddings_create processedDocs)))
      by (rewrite map_map; reflexivity).
    rewrite Hout.
    apply (subsequence_NoDup _ (map ProcessedDocument.id
                                   (map without_embedding processedDocs))).
    + now apply subsequence_map.
    + rewrite map_map. cbn [without_embedding ProcessedDocument.id].
      apply Hids. rewrite Hn. now apply NoDup_filter.
  - apply Forall_forall. intros d Hin.
    rewrite Forall_forall in Hall, Hrec, Hd.
    destruct (Hall d Hin) as [call [chunk [embedding [Hnth [He ->]]]]].
    apply nth_error_In in Hnth.
    destruct (Hrec chunk Hnth) as [doc [k [Hdoc [Hid [Hmeta [Hts Hlen]]]]]].
    destruct (Hd doc Hdoc) as [Htext Hyear].
    assert (Hf : In (RawDocument.filename doc)
                    (filter (readable extractTextFromPDF) entries)).
    { rewrite <- Hn. now apply in_map. }
    apply filter_In in Hf. destruct Hf as [Hentry Hreadable].
    cbn [with_embedding ProcessedDocument.metadata ProcessedDocument.content
         ProcessedDocument.id ProcessedDocument.embedding].
    cbn zeta. rewrite Hmeta. cbn [Metadata.filename Metadata.year
                                    Metadata.chunkIndex].
    split; [exact Hentry |]. split; [exact Hreadable |].
    split; [exact Hyear |].
    split; [exists k; split; [reflexivity | exact Hid] |].
    split; [exact Hts |]. split; [exact Hlen |].
    exists call, embedding. split; [reflexivity |].
    rewrite slice_short in He by lia. exact He.
Qed.

End Embeddings.

(** The directory of the inputs: the notes are no PDF and the damaged file
    cannot be read; the letter of 1999 gives one chunk, whose embedding
    is had, the report of 2001 two, the first of which the service
    refuses. *)
Lemma processDocuments_embedded_chunks_witness :
  option_map
    (fun r => match r with
              | Ok out => map (fun d => (ProcessedDocument.id d,
                                         ProcessedDocument.embedding d)) out
              | Err _ => []
              end)
    (processDocuments IngestionInputs.embedder (Ok IngestionInputs.directory)
                      IngestionInputs.texts)
  = Some [(lit "1999.pdf_chunk_0", Some [1%float; 2%float]);
          (lit "2001.pdf_chunk_1", Some [1%float; 2%float])]
  /\ exists out : list (ProcessedDocument.t float),
      processDocuments IngestionInputs.embedder (Ok IngestionInputs.directory)
                       IngestionInputs.texts
      = Some (Ok out)
      /\ (NoDup IngestionInputs.directory ->
          NoDup (map ProcessedDocument.id out))
      /\ Forall (fun d =>
                   let meta := ProcessedDocument.metadata d in
                   In (Metadata.filename meta) IngestionInputs.directory
                   /\ readable IngestionInputs.texts (Metadata.filename meta)
                      = true
                   /\ Metadata.year meta
                      = extractYearFromFilename (Metadata.filename meta)
                   /\ (exists k,
                          Metadata.chunkIndex meta = Z.of_nat k
                          /\ ProcessedDocument.id d
                             = Metadata.filename meta ++ lit "_chunk_"
                               ++ of_nat k)
                   /\ trimmed_substantial (ProcessedDocument.content d)
                   /\ length (ProcessedDocument.content d) <= 1000
                   /\ exists call embedding,
                        ProcessedDocument.embedding d = Some embedding
                        /\ IngestionInputs.embedder call
                             (ProcessedDocument.content d)
                           = Ok embedding)
                out.
Proof.
  split; [vm_compute; reflexivity |].
  exact (processDocuments_embedded_chunks IngestionInputs.embedder
           (Ok IngestionInputs.directory) IngestionInputs.texts
           IngestionInputs.directory eq_refl).
Defined.

End IngestionTheorems.

(* ================================================================== *)
(** * What a search reads, and when it fails *)
(* ================================================================== *)

Module RetrievalTheorems.

Import Database VectorStore SimilarityProperties SearchProperties.

Lemma In_slice {A : Type} (xs : list A) (a b : Z) (x : A) :
  In x (JsArray.slice xs a b) -> In x xs.
Proof.
  unfold JsArray.slice.
  match goal with
  | |- In _ (firstn ?count (skipn ?from _)) -> _ =>
      intros Hin;
      rewrite <- (firstn_skipn from xs); apply in_or_app; right;
      rewrite <- (firstn_skipn count (skipn from xs)); apply in_or_app;
      now left
  end.
Qed.

Section Search.

Context {num : Type} `{JsNumber num}.

Local Abbreviation row := (Row.t num).
Local Abbreviation result := (SearchResult.t num).

Variable fault : nat -> option Error.
Variable scan : list row -> list row.
Variable nearest : NearestQuery.t num -> list row -> list (row * num).

(** What the JavaScript branch does, statement by statement. *)
Lemma searchSimilar_scalar_unfold (queryEmbedding : list num) (limit : Z)
    (filters : option (Filters.t num)) (w : World.t num) :
  World.useVectorExtension w = false ->
  searchSimilar fault scan nearest queryEmbedding limit filters w
  = match fault (World.clock w) with
    | Some e => (Err e, tick w)
    | None =>
        match World.table w with
        | None => (Err UndefinedTable, tick w)
        | Some col =>
            match
              map_rows (score col queryEmbedding) (selected scan filters w)
            with
            | Err e => (Err e, tick w)
            | Ok similarities =>
                (Ok (rank similarities limit filters), tick w)
            end
        end
    end.
Proof.
  intros Hm. unfold searchSimilar, try_catch, bind, get_useVectorExtension.
  rewrite Hm. unfold select_documents, selected.
  destruct (fault (World.clock w)); [reflexivity |].
  destruct (World.table w); [| reflexivity].
  now destruct (map_rows _ _).
Qed.

(** What the pgvector branch does. *)
Lemma searchSimilar_vector_unfold (queryEmbedding : list num) (limit : Z)
    (filters : option (Filters.t num)) (w : World.t num) :
  World.useVectorExtension w = true ->
  searchSimilar fault scan nearest queryEmbedding limit filters w
  = match fault (World.clock w) with
    | Some e => (Err e, tick w)
    | None =>
        match World.table w with
        | None => (Err UndefinedTable, tick w)
        | Some JsonbCol => (Err UndefinedFunction, tick w)
        | Some (VectorCol _) =>
            (Ok (map (fun '(r, similarity) => result_of r similarity)
                     (nearest (nearest_query queryEmbedding limit filters)
                              (World.rows w))),
             tick w)
        end
    end.
Proof.
  intros Hm. unfold searchSimilar, try_catch, bind, get_useVectorExtension.
  rewrite Hm. unfold select_nearest.
  destruct (fault (World.clock w)); [reflexivity |].
  now destruct (World.table w) as [[n |] |].
Qed.

Lemma searchSimilar_world (queryEmbedding : list num) (limit : Z)
    (filters : option (Filters.t num)) (w : World.t num) :
  snd (searchSimilar fault scan nearest queryEmbedding limit filters w)
  = tick w.
Proof.
  destruct (World.useVectorExtension w) eqn:Hm.
  - rewrite (searchSimilar_vector_unfold _ _ _ _ Hm).
    destruct (fault (World.clock w)); [reflexivity |].
    now destruct (World.table w) as [[n |] |].
  - rewrite (searchSimilar_scalar_unfold _ _ _ _ Hm).
    destruct (fault (World.clock w)); [reflexivity |].
    destruct (World.table w); [| reflexivity].
    now destruct (map_rows _ _).
Qed.

(** X9.  [searchSimilar] reads only: in either mode, whether it resolves
    or rejects, it sends one statement and leaves the mode of the store,
    the table, its rows and an open transaction as they were. *)
Theorem searchSimilar_reads_only (queryEmbedding : list num) (limit : Z)
    (filters : option (Filters.t num)) (w : World.t num) :
  let w' := snd (searchSimilar fault scan nearest queryEmbedding limit
                               filters w) in
  World.useVectorExtension w' = World.useVectorExtension w
  /\ World.table w' = World.table w
  /\ World.rows w' = World.rows w
  /\ World.txn w' = World.txn w
  /\ World.clock w' = S (World.clock w).
Proof.
  cbn zeta. rewrite searchSimilar_world. repeat split.
Qed.

Lemma score_cases (col : ColType) (queryEmbedding : list num) (r : row) :
  if comparable col queryEmbedding r
  then exists x, score col queryEmbedding r = Ok x
                 /\ scored queryEmbedding r x
  else score col queryEmbedding r = Err (score_error col r).
Proof.
  unfold comparable, score, score_error, scored, parse_embedding.
  destruct (Row.embedding r) as [v |]; [| now destruct col].
  destruct col as [n |].
  - destruct (Nat.eqb (List.length queryEmbedding) (List.length v)) eqn:El.
    + apply Nat.eqb_eq in El.
      pose proof (CosineTheorems.cosine_equal_lengths queryEmbedding v El)
        as Hc.
      destruct (calculateCosineSimilarity queryEmbedding v)
        as [similarity | e] eqn:Ec;
        [| destruct (_ || _); discriminate].
      eexists. split; [reflexivity |].
      exists v. cbn. repeat split. exact Ec.
    + apply Nat.eqb_neq in El.
      now rewrite (CosineTheorems.cosine_different_lengths _ _ El).
  - destruct v as [| x [| y v]]; try reflexivity.
    now destruct (is_finite x).
Qed.

(** Scoring the rows stops at the first one that cannot be compared with
    the query. *)
Lemma map_rows_score (col : ColType) (queryEmbedding : list num)
    (rows : list row) :
  match first_incomparable col queryEmbedding rows with
  | Some r => map_rows (score col queryEmbedding) rows
              = Err (score_error col r)
  | None =>
      exists candidates,
        map_rows (score col queryEmbedding) rows = Ok candidates
        /\ Forall2 (scored queryEmbedding) rows candidates
  end.
Proof.
  unfold first_incomparable.
  induction rows as [| r rows IH]; cbn [find map_rows].
  - exists []. split; [reflexivity | constructor].
  - pose proof (score_cases col queryEmbedding r) as Hr.
    destruct (comparable col queryEmbedding r); cbn [negb].
    + destruct Hr as [x [-> Hx]].
      destruct (find _ rows) as [bad |].
      * now rewrite IH.
      * destruct IH as [candidates [-> HF]].
        eexists. split; [reflexivity |]. now constructor.
    + now rewrite Hr.
Qed.

(** X10.  The JavaScript branch scores every row that passes the [year]
    and [filename] filters before it ranks, whatever the limit and the
    threshold.  Over a [vector] column, when the statement is answered,
    the search rejects as soon as one of these rows holds no vector
    ([TypeError]) or one whose length is not the query's (the length
    error), with the error of the first such row in the order the server
    hands the rows out; otherwise it resolves to the ranking of the
    selected rows with their cosine similarities.  Over a [JSONB] column,
    whose values the driver hands over parsed, it rejects at the first
    selected row: [JSON.parse] throws a [SyntaxError], or gives a number
    for an array of one, which has no length (the length error); it
    resolves, to no result, only when no row is selected. *)
Theorem searchSimilar_scalar_scores_every_row (queryEmbedding : list num)
    (limit : Z) (filters : option (Filters.t num)) (w : World.t num)
    (col : ColType) :
  World.useVectorExtension w = false ->
  fault (World.clock w) = None ->
  World.table w = Some col ->
  match first_incomparable col queryEmbedding (selected scan filters w) with
  | Some r =>
      fst (searchSimilar fault scan nearest queryEmbedding limit filters w)
      = Err (score_error col r)
  | None =>
      exists candidates,
        Forall2 (scored queryEmbedding) (selected scan filters w) candidates
        /\ fst (searchSimilar fault scan nearest queryEmbedding limit filters w)
           = Ok (rank candidates limit filters)
  end
  /\ (col = JsonbCol ->
      first_incomparable col queryEmbedding (selected scan filters w)
      = hd_error (selected scan filters w)).
Proof.
  intros Hm Hf Ht.
  rewrite (searchSimilar_scalar_unfold _ _ _ _ Hm), Hf, Ht.
  split.
  - pose proof (map_rows_score col queryEmbedding (selected scan filters w))
      as Hs.
    destruct (first_incomparable _ _ _) as [bad |].
    + now rewrite Hs.
    + destruct Hs as [candidates [-> HF]]. now exists candidates.
  - intros ->. unfold first_incomparable.
    now destruct (selected scan filters w).
Qed.

Lemma selected_holds (filters : option (Filters.t num)) (w : World.t num)
    (r : row) :
  hands_out_rows scan ->
  In r (selected scan filters w) ->
  In r (World.rows w)
  /\ (forall y, year_filter filters = Some y -> Row.year r = y)
  /\ (forall n, filename_filter filters = Some n -> Row.filename r = n).
Proof.
  unfold selected, where_clause. intros Hscan Hin.
  apply filter_In in Hin. destruct Hin as [Hin Hall].
  split; [exact (Permutation_in _ (Hscan _) Hin) |].
  rewrite forallb_app in Hall. apply andb_true_iff in Hall.
  destruct Hall as [Hy Hn]. split.
  - intros y Ey. rewrite Ey in Hy. cbn in Hy.
    rewrite andb_true_r in Hy.
    now apply StoreTheorems.jsstring_eqb_eq in Hy.
  - intros n En. rewrite En in Hn. cbn in Hn.
    rewrite andb_true_r in Hn.
    now apply StoreTheorems.jsstring_eqb_eq in Hn.
Qed.

Lemma In_rank (similarities : list result) (limit : Z)
    (filters : option (Filters.t num)) (x : result) :
  In x (rank similarities limit filters) -> In x similarities.
Proof.
  unfold rank. intros Hin. apply In_slice in Hin.
  apply (Permutation_in _ (JsArrayFacts.sort_by_perm _ _)) in Hin.
  destruct (minSimilarity_filter filters); [| exact Hin].
  apply filter_In in Hin. tauto.
Qed.

Lemma Forall2_In_r {A B : Type} (P : A -> B -> Prop) (l : list A)
    (l' : list B) :
  Forall2 P l l' -> forall b, In b l' -> exists a, In a l /\ P a b.
Proof.
  induction 1 as [| a b l l' Hab _ IH]; intros x Hin; [destruct Hin |].
  destruct Hin as [<- | Hin].
  - exists a. split; [now left | exact Hab].
  - destruct (IH x Hin) as [a' [Ha' HP]]. exists a'. split; [now right | exact HP].
Qed.

(** What is ranked are selected rows with their cosine similarities. *)
Lemma rank_scored (col : ColType) (queryEmbedding : list num) (limit : Z)
    (filters : option (Filters.t num)) (w : World.t num)
    (candidates : list result) :
  map_rows (score col queryEmbedding) (selected scan filters w)
  = Ok candidates ->
  Forall (fun x => exists r, In r (selected scan filters w)
                             /\ scored queryEmbedding r x)
         (rank candidates limit filters).
Proof.
  intros Hc.
  pose proof (map_rows_score col queryEmbedding (selected scan filters w))
    as Hs.
  destruct (first_incomparable _ _ _) as [bad |]; [congruence |].
  destruct Hs as [candidates' [Hc' HF]].
  rewrite Hc in Hc'. injection Hc' as <-.
  apply Forall_forall. intros x Hx. apply In_rank in Hx.
  exact (Forall2_In_r _ _ _ HF x Hx).
Qed.

Lemma rank_shows_selected (col : ColType) (queryEmbedding : list num)
    (limit : Z) (filters : option (Filters.t num)) (w : World.t num)
    (candidates : list result) :
  hands_out_rows scan ->
  map_rows (score col queryEmbedding) (selected scan filters w)
  = Ok candidates ->
  Forall (shows_selected filters (World.rows w))
         (rank candidates limit filters).
Proof.
  intros Hscan Hc.
  pose proof (rank_scored col queryEmbedding limit filters w candidates Hc)
    as Hs.
  eapply Forall_impl; [| exact Hs].
  intros x [r [Hr [v [_ [_ Hres]]]]].
  destruct (selected_holds filters w r Hscan Hr) as [Hrow [Hy Hn]].
  exists r. split; [exact Hrow |]. split; [exact Hres |].
  rewrite Hres. cbn [result_of SearchResult.year SearchResult.filename].
  split; assumption.
Qed.

Lemma rank_threshold (similarities : list result) (limit : Z)
    (filters : option (Filters.t num)) (x : result) (m : num) :
  In x (rank similarities limit filters) ->
  minSimilarity_filter filters = Some m ->
  num_geb (SearchResult.similarity x) m = true.
Proof.
  unfold rank. intros Hin Hm. apply In_slice in Hin.
  apply (Permutation_in _ (JsArrayFacts.sort_by_perm _ _)) in Hin.
  rewrite Hm in Hin. apply filter_In in Hin. tauto.
Qed.

Lemma rank_length (similarities : list result) (limit : Z)
    (filters : option (Filters.t num)) :
  0 <= limit ->
  Z.of_nat (List.length (rank similarities limit filters)) <= limit.
Proof.
  intros Hl. unfold rank. rewrite JsArrayFacts.slice_0_limit by exact Hl.
  rewrite length_firstn. lia.
Qed.

(** X11.  When the server hands out the rows it holds, what the
    JavaScript branch resolves to shows committed rows only, with their
    own [id], [content], [filename], [year] and chunk numbers, and only
    rows that pass the [year] and [filename] filters given.  In both
    branches a filter that is the empty string is no filter. *)
Theorem searchSimilar_scalar_shows_selected_rows (queryEmbedding : list num)
    (limit : Z) (filters : option (Filters.t num)) (w w' : World.t num)
    (results : list result) :
  hands_out_rows scan ->
  World.useVectorExtension w = false ->
  searchSimilar fault scan nearest queryEmbedding limit filters w
  = (Ok results, w') ->
  Forall (shows_selected filters (World.rows w)) results
  /\ forall year filename minSimilarity w0,
      searchSimilar fault scan nearest queryEmbedding limit
        (filters_with (match year with Some [] => None | _ => year end)
                      (match filename with Some [] => None | _ => filename end)
                      minSimilarity) w0
      = searchSimilar fault scan nearest queryEmbedding limit
          (filters_with year filename minSimilarity) w0.
Proof.
  intros Hscan Hm Hr. split.
  - rewrite (searchSimilar_scalar_unfold _ _ _ _ Hm) in Hr.
    destruct (fault (World.clock w)); [discriminate |].
    destruct (World.table w) as [col |]; [| discriminate].
    destruct (map_rows _ _) as [candidates | e] eqn:Hc; [| discriminate].
    injection Hr as <- _.
    now apply (rank_shows_selected col queryEmbedding).
  - intros year filename minSimilarity w0.
    unfold searchSimilar, nearest_query, where_clause, rank.
    destruct year as [[| c y] |], filename as [[| c' n] |]; reflexivity.
Qed.

End Search.

Lemma as_inserted_hands_out {num : Type} :
  hands_out_rows (Inputs.as_inserted (num := num)).
Proof. intros rows. reflexivity. Qed.

(** Over a [vector(1536)] column, with a limit of 1 and the first row an
    exact match, the second row, which holds no vector, still makes the
    search fail.  Over a [JSONB] column the search fails at the first
    row, a vector of two components, with a [SyntaxError]. *)
Lemma searchSimilar_scalar_scores_every_row_witness :
  fst (searchSimilar Inputs.no_fault Inputs.as_inserted Inputs.no_answer
         (Inputs.padded [1%float]) 1 None
         (Inputs.vector_world SearchInputs.mixed_rows))
  = Err TypeError
  /\ fst (searchSimilar Inputs.no_fault Inputs.as_inserted Inputs.no_answer
            [1%float; 0%float] 1 None
            (Inputs.scalar_world SearchInputs.json_rows))
     = Err SyntaxError
  /\ (match
        first_incomparable (VectorCol 1536) (Inputs.padded [1%float])
          (selected Inputs.as_inserted None
             (Inputs.vector_world SearchInputs.mixed_rows))
      with
      | Some r =>
          fst (searchSimilar Inputs.no_fault Inputs.as_inserted
                 Inputs.no_answer (Inputs.padded [1%float]) 1 None
                 (Inputs.vector_world SearchInputs.mixed_rows))
          = Err (score_error (VectorCol 1536) r)
      | None =>
          exists candidates,
            Forall2 (scored (Inputs.padded [1%float]))
                    (selected Inputs.as_inserted None
                       (Inputs.vector_world SearchInputs.mixed_rows))
                    candidates
            /\ fst (searchSimilar Inputs.no_fault Inputs.as_inserted
                      Inputs.no_answer (Inputs.padded [1%float]) 1 None
                      (Inputs.vector_world SearchInputs.mixed_rows))
               = Ok (rank candidates 1 None)
      end
      /\ (VectorCol 1536 = JsonbCol ->
          first_incomparable (VectorCol 1536) (Inputs.padded [1%float])
            (selected Inputs.as_inserted None
               (Inputs.vector_world SearchInputs.mixed_rows))
          = hd_error (selected Inputs.as_inserted None
                        (Inputs.vector_world SearchInputs.mixed_rows)))).
Proof.
  split; [vm_compute; reflexivity |].
  split; [vm_compute; reflexivity |].
  apply (searchSimilar_scalar_scores_every_row Inputs.no_fault
           Inputs.as_inserted Inputs.no_answer (Inputs.padded [1%float]) 1
           None (Inputs.vector_world SearchInputs.mixed_rows) (VectorCol 1536));
    reflexivity.
Defined.

(** A search of the year 2000 among the rows of three letters, in a
    [vector(1536)] column read by a store that was not initialised. *)
Lemma searchSimilar_scalar_shows_selected_rows_witness :
  exists results w',
    searchSimilar Inputs.no_fault Inputs.as_inserted Inputs.no_answer
      (Inputs.padded [1%float]) 5 (SearchInputs.only_year "2000")
      (Inputs.vector_world SearchInputs.three_years)
    = (Ok results, w')
    /\ map SearchResult.id results = [lit "c"; lit "b"]
    /\ Forall (shows_selected (SearchInputs.only_year "2000")
                 SearchInputs.three_years)
              results.
Proof.
  eexists. eexists. split; [vm_compute; reflexivity |].
  split; [reflexivity |].
  refine (proj1 (searchSimilar_scalar_shows_selected_rows Inputs.no_fault
                   Inputs.as_inserted Inputs.no_answer
                   (Inputs.padded [1%float]) 5
                   (SearchInputs.only_year "2000")
                   (Inputs.vector_world SearchInputs.three_years) _ _
                   as_inserted_hands_out eq_refl _)).
  vm_compute. reflexivity.
Defined.

End RetrievalTheorems.

(* ================================================================== *)
(** * Invariants of the table *)
(* ================================================================== *)

Module InvariantTheorems.

Import Database VectorStore StoreProperties StoreInvariants.

Section Keeps.

Context {num : Type}.

Local Abbreviation world := (World.t num).

Variable I : world -> Prop.
Hypothesis I_stable : stable I.

Lemma keeps_ret {A} (a : A) : keeps I (ret (num := num) a).
Proof. intros w Hw. exact Hw. Qed.

Lemma keeps_throw {A} (e : Error) : keeps I (@throw num A e).
Proof. intros w Hw. exact Hw. Qed.

Lemma keeps_bind {A B} (m : M num A) (k : A -> M num B) :
  keeps I m -> (forall a, keeps I (k a)) -> keeps I (bind m k).
Proof.
  intros Hm Hk w Hw. unfold bind. specialize (Hm w Hw).
  destruct (m w) as [[a | e] w']; cbn in *; [now apply Hk | exact Hm].
Qed.

Lemma keeps_try_catch {A} (m : M num A) (h : Error -> M num A) :
  keeps I m -> (forall e, keeps I (h e)) -> keeps I (try_catch m h).
Proof.
  intros Hm Hh w Hw. unfold try_catch. specialize (Hm w Hw).
  destruct (m w) as [[a | e] w']; cbn in *; [exact Hm | now apply Hh].
Qed.

Lemma keeps_finally {A} (m : M num A) :
  keeps I m -> keeps I (finally m (fun w => w)).
Proof.
  intros Hm w Hw. unfold finally. specialize (Hm w Hw).
  now destruct (m w).
Qed.

Lemma keeps_for_of {A} (xs : list A) (body : A -> M num unit) :
  (forall x, keeps I (body x)) -> keeps I (for_of xs body).
Proof.
  intros Hb. induction xs as [| x xs IH]; cbn [for_of].
  - apply keeps_ret.
  - apply keeps_bind; [apply Hb | intros _; exact IH].
Qed.

Lemma keeps_if {A} (b : bool) (m1 m2 : M num A) :
  keeps I m1 -> keeps I m2 -> keeps I (if b then m1 else m2).
Proof. now destruct b. Qed.

Lemma keeps_get : keeps I (get_useVectorExtension (num := num)).
Proof. intros w Hw. exact Hw. Qed.

Lemma keeps_set (b : bool) : keeps I (set_useVectorExtension (num := num) b).
Proof. intros w Hw. now apply I_stable. Qed.

Lemma keeps_query (fault : nat -> option Error) (s : Stmt num) :
  keeps I (query fault s).
Proof.
  destruct I_stable as [Htick [_ Hstmt]].
  intros w Hw. unfold query.
  destruct (fault (World.clock w)).
  - cbn [snd]. apply Htick.
    destruct s; try exact Hw. now apply (Hstmt Rollback w).
  - destruct (apply_stmt s w) as [w' |] eqn:Ha; cbn [snd];
      apply Htick; [now apply (Hstmt s w) | exact Hw].
Qed.

Lemma keeps_select_documents (fault : nat -> option Error)
    (scan : list (Row.t num) -> list (Row.t num)) (ps : list Predicate) :
  keeps I (select_documents (num := num) fault scan ps).
Proof.
  destruct I_stable as [Htick _].
  intros w Hw. unfold select_documents.
  destruct (fault (World.clock w)); [now apply Htick |].
  destruct (World.table w); now apply Htick.
Qed.

End Keeps.

Create HintDb store_keeps.

#[local] Hint Resolve keeps_ret keeps_throw keeps_get keeps_set keeps_query
  keeps_select_documents : store_keeps.

Ltac keeps_step :=
  match goal with
  | |- keeps _ (try_catch _ _) => apply keeps_try_catch
  | |- keeps _ (bind _ _) => apply keeps_bind
  | |- keeps _ (finally _ _) => apply keeps_finally
  | |- keeps _ (for_of _ _) => apply keeps_for_of
  | |- keeps _ (if _ then _ else _) => apply keeps_if
  | |- forall _, _ => intro
  end.

Section Stores.

Context {num : Type} `{JsNumber num}.

Local Abbreviation world := (World.t num).
Local Abbreviation row := (Row.t num).
Local Abbreviation document := (ProcessedDocument.t num).

Variable I : world -> Prop.
Hypothesis I_stable : stable I.

Lemma keeps_initialize fault : keeps I (initialize (num := num) fault).
Proof.
  unfold initialize. repeat keeps_step; auto with store_keeps.
Qed.

Lemma keeps_storeDocuments fault (documents : list document) :
  keeps I (storeDocuments fault documents).
Proof.
  unfold storeDocuments, upsert_doc.
  repeat keeps_step; auto with store_keeps.
Qed.

Lemma keeps_searchSimilar fault scan nearest (queryEmbedding : list num)
    (limit : Z) (filters : option (Filters.t num)) :
  keeps I (searchSimilar fault scan nearest queryEmbedding limit filters).
Proof.
  intros w Hw. rewrite RetrievalTheorems.searchSimilar_world.
  now apply I_stable.
Qed.

(** What holds of a new store over an empty database, and is stable,
    holds ever after. *)
Lemma reachable_invariant :
  I {| World.useVectorExtension := false;
       World.table := None;
       World.rows := [];
       World.txn := None;
       World.clock := O |} ->
  forall w, reachable w -> I w.
Proof.
  intros Hnew w Hr. induction Hr.
  - exact Hnew.
  - now apply keeps_initialize.
  - now apply keeps_storeDocuments.
  - now apply keeps_searchSimilar.
Qed.

End Stores.

Section Keys.

Context {num : Type} `{JsNumber num}.

Local Abbreviation world := (World.t num).
Local Abbreviation row := (Row.t num).
Local Abbreviation document := (ProcessedDocument.t num).

Lemma upsert_ids (now : nat) (doc : document) (table : list row)
    (i : jsstring) :
  In i (map Row.id (upsert now doc table)) ->
  In i (map Row.id table) \/ i = ProcessedDocument.id doc.
Proof.
  induction table as [| r rest IH]; cbn [upsert map].
  - cbn. intros [<- | []]. now right.
  - destruct (JsString.eqb (Row.id r) (ProcessedDocument.id doc)); cbn.
    + intros Hin. now left.
    + intros [<- | Hin]; [left; now left |].
      destruct (IH Hin) as [Hrest | ->]; [left; now right | now right].
Qed.

Lemma upsert_unique (now : nat) (doc : document) (table : list row) :
  NoDup (map Row.id table) -> NoDup (map Row.id (upsert now doc table)).
Proof.
  induction table as [| r rest IH]; cbn [upsert map]; intros Hn.
  - cbn. constructor; [intros [] | constructor].
  - destruct (JsString.eqb (Row.id r) (ProcessedDocument.id doc)) eqn:E.
    + exact Hn.
    + inversion Hn as [| ? ? Hnotin Hrest]; subst. cbn [map].
      constructor; [| now apply IH].
      intros Hin. apply upsert_ids in Hin. destruct Hin as [Hin | Heq].
      * now apply Hnotin.
      * apply StoreTheorems.jsstring_eqb_eq in Heq. congruence.
Qed.

Lemma unique_ids_stable : stable (unique_ids (num := num)).
Proof.
  unfold stable, unique_ids. split; [| split].
  - intros w Hw. exact Hw.
  - intros w b Hw. exact Hw.
  - intros s w w' [Hr Hx] Ha.
    destruct s; cbn [apply_stmt] in Ha;
      try (injection Ha as <-; now split).
    + destruct (World.table w); injection Ha as <-; now split.
    + destruct (World.table w); [| discriminate].
      injection Ha as <-. now split.
    + destruct (World.table w); [| discriminate].
      injection Ha as <-. now split.
    + destruct (World.table w); [| discriminate].
      injection Ha as <-. now split.
    + destruct (World.txn w) as [[b wk] |] eqn:X; injection Ha as <-; cbn.
      * rewrite X. now split.
      * now split.
    + destruct (World.txn w) as [[b wk] |] eqn:X; injection Ha as <-; cbn.
      * now split.
      * rewrite X. now split.
    + destruct (World.table w) as [col |]; [| discriminate].
      destruct (accepts col doc); [| discriminate].
      destruct (World.txn w) as [[b wk] |] eqn:X; injection Ha as <-; cbn.
      * split; [exact Hr | now apply upsert_unique].
      * rewrite X. split; [now apply upsert_unique | exact I].
Qed.

(** X12.  [id] stays a key: in every state a store reaches from a new
    database by calls of [initialize], [storeDocuments] and
    [searchSimilar], whatever fails on the way and whatever ids the
    batches repeat, no two rows of the table have the same [id]. *)
Theorem reachable_unique_ids (w : world) :
  reachable w -> NoDup (map Row.id (World.rows w)).
Proof.
  intros Hr.
  refine (proj1 (reachable_invariant unique_ids unique_ids_stable _ w Hr)).
  split; [constructor | exact I].
Qed.

End Keys.

(** A batch that names the same id twice, stored in a new database. *)
Lemma reachable_unique_ids_witness :
  reachable
    (snd (storeDocuments Inputs.no_fault
            (Inputs.second_batch ++ Inputs.second_batch)
            (snd (initialize (Inputs.fault_at 2) Inputs.empty_world))))
  /\ map Row.id
       (World.rows
          (snd (storeDocuments Inputs.no_fault
                  (Inputs.second_batch ++ Inputs.second_batch)
                  (snd (initialize (Inputs.fault_at 2) Inputs.empty_world)))))
     = [lit "a"; lit "b"]
  /\ NoDup
       (map Row.id
          (World.rows
             (snd (storeDocuments Inputs.no_fault
                     (Inputs.second_batch ++ Inputs.second_batch)
                     (snd (initialize (Inputs.fault_at 2)
                                      Inputs.empty_world)))))).
Proof.
  assert (Hr : reachable
                 (snd (storeDocuments Inputs.no_fault
                         (Inputs.second_batch ++ Inputs.second_batch)
                         (snd (initialize (Inputs.fault_at 2)
                                          (Inputs.empty_world (num := float))))))).
  { apply reachable_storeDocuments, reachable_initialize.
    exact reachable_new. }
  split; [exact Hr |]. split; [vm_compute; reflexivity |].
  exact (reachable_unique_ids _ Hr).
Defined.

Section Writes.

Context {num : Type} `{JsNumber num}.

Local Abbreviation world := (World.t num).
Local Abbreviation row := (Row.t num).
Local Abbreviation document := (ProcessedDocument.t num).

Lemma upsert_writes (now : nat) (doc : document) (table : list row) :
  exists r, In r (upsert now doc table) /\ written doc r.
Proof.
  induction table as [| r rest [r' [Hin Hw]]]; cbn [upsert].
  - exists (inserted_row now doc). split; [now left | now repeat split].
  - destruct (JsString.eqb (Row.id r) (ProcessedDocument.id doc)) eqn:E.
    + exists (updated_row now doc r). split; [now left |].
      apply StoreTheorems.jsstring_eqb_eq in E. now repeat split.
    + exists r'. split; [now right | exact Hw].
Qed.

Lemma upsert_other (now : nat) (doc : document) (table : list row) (r : row) :
  Row.id r <> ProcessedDocument.id doc ->
  In r table -> In r (upsert now doc table).
Proof.
  intros Hne. induction table as [| r0 rest IH]; [intros [] |].
  cbn [upsert]. intros [-> | Hin].
  - destruct (JsString.eqb (Row.id r) (ProcessedDocument.id doc)) eqn:E;
      [| now left].
    apply StoreTheorems.jsstring_eqb_eq in E. contradiction.
  - destruct (JsString.eqb (Row.id r0) (ProcessedDocument.id doc));
      right; [exact Hin | now apply IH].
Qed.

Lemma upsert_all_other (now : nat) (docs : list document) (r : row) :
  (forall d, In d docs -> ProcessedDocument.id d <> Row.id r) ->
  forall table,
    In r table -> In r (fold_left (fun rs d => upsert now d rs) docs table).
Proof.
  induction docs as [| d docs IH]; intros Hne table Hin; [exact Hin |].
  cbn [fold_left]. apply IH.
  - intros d' Hd'. apply Hne. now right.
  - apply upsert_other; [| exact Hin].
    intros Heq. apply (Hne d); [now left | now symmetry].
Qed.

Lemma upsert_all_writes (now : nat) (pre post : list document)
    (doc : document) (table : list row) :
  (forall d, In d post -> ProcessedDocument.id d <> ProcessedDocument.id doc) ->
  exists r,
    In r (fold_left (fun rs d => upsert now d rs) (pre ++ doc :: post) table)
    /\ written doc r.
Proof.
  intros Hlast. rewrite fold_left_app. cbn [fold_left].
  destruct (upsert_writes now doc
              (fold_left (fun rs d => upsert now d rs) pre table))
    as [r [Hin Hw]].
  exists r. split; [| exact Hw].
  apply upsert_all_other; [| exact Hin].
  intros d Hd. destruct Hw as [-> _]. now apply Hlast.
Qed.

Variable fault : nat -> option Error.

(** X13.  The last write wins.  When [storeDocuments] resolves, the table
    holds for each document of the batch that no later one of the batch
    shares its [id] with a row with that [id], its [content] and its
    [embedding]; and every row whose [id] the batch does not name is in
    the table as it was. *)
Theorem storeDocuments_last_write_wins (documents : list document)
    (w w' : world) :
  World.txn w = None ->
  storeDocuments fault documents w = (Ok tt, w') ->
  (forall pre doc post,
      documents = pre ++ doc :: post ->
      (forall d, In d post ->
                 ProcessedDocument.id d <> ProcessedDocument.id doc) ->
      exists r, In r (World.rows w') /\ written doc r)
  /\ (forall r,
         In r (World.rows w) ->
         ~ In (Row.id r) (map ProcessedDocument.id documents) ->
         In r (World.rows w')).
Proof.
  intros Hx Hs.
  destruct (StoreTheorems.storeDocuments_outcome fault documents w w' (Ok tt)
              Hx Hs) as [_ [Hrows _]].
  rewrite Hrows. split.
  - intros pre doc post -> Hlast. now apply upsert_all_writes.
  - intros r Hin Hnot. apply upsert_all_other; [| exact Hin].
    intros d Hd Heq. apply Hnot. rewrite <- Heq. now apply in_map.
Qed.

End Writes.

(** The id ["a"] is stored, then submitted twice in one batch: the row
    keeps the embedding of the second submission. *)
Lemma storeDocuments_last_write_wins_witness :
  exists w',
    storeDocuments Inputs.no_fault
      (Inputs.second_batch ++ [Inputs.document_with "a" [4%float]])
      (Inputs.scalar_world Inputs.stored_row)
    = (Ok tt, w')
    /\ map (fun r => (Row.id r, Row.embedding r)) (World.rows w')
       = [(lit "a", Some [4%float]); (lit "b", Some [3%float])]
    /\ (exists r, In r (World.rows w')
                  /\ written (Inputs.document_with "a" [4%float]) r).
Proof.
  eexists. split; [vm_compute; reflexivity |].
  split; [reflexivity |].
  refine (proj1 (storeDocuments_last_write_wins Inputs.no_fault
                   (Inputs.second_batch ++ [Inputs.document_with "a" [4%float]])
                   (Inputs.scalar_world Inputs.stored_row) _ eq_refl _)
                Inputs.second_batch (Inputs.document_with "a" [4%float]) []
                eq_refl _).
  - vm_compute. reflexivity.
  - intros d [].
Defined.

End InvariantTheorems.

(* ================================================================== *)
(** * The cosine similarity on binary64 *)
(* ================================================================== *)

Module CosineNumbers.

Import VectorStore SimilarityProperties.

(** The product of two binary64 numbers does not depend on their
    order. *)
Lemma float_mul_comm (x y : float) : (x * y)%float = (y * x)%float.
Proof.
  apply Prim2SF_inj. rewrite !mul_spec. unfold SF64mul, SFmul.
  destruct (Prim2SF x) as [sx | sx | | sx mx ex],
           (Prim2SF y) as [sy | sy | | sy my ey];
    try reflexivity; try (now rewrite xorb_comm).
  now rewrite xorb_comm, Pos.mul_comm, Z.add_comm.
Qed.

Lemma float_dot_comm (a : list float) :
  forall (b : list float) (acc : float),
    fold_left (fun acc '(x, y) => num_add acc (num_mul x y)) (combine a b) acc
    = fold_left (fun acc '(x, y) => num_add acc (num_mul x y)) (combine b a)
                acc.
Proof.
  induction a as [| x a IH]; intros [| y b] acc; try reflexivity.
  cbn [combine fold_left]. rewrite IH. cbn [num_mul float_JsNumber].
  now rewrite (float_mul_comm x y).
Qed.

(** X14.  On binary64 numbers [calculateCosineSimilarity] is symmetric,
    to the last bit and in what it throws: the loop multiplies and sums
    the same pairs in the same order. *)
Theorem calculateCosineSimilarity_symmetric_binary64 (a b : list float) :
  calculateCosineSimilarity a b = calculateCosineSimilarity b a.
Proof.
  destruct (Nat.eq_dec (List.length a) (List.length b)) as [Hl | Hl].
  - rewrite (CosineTheorems.cosine_equal_lengths a b Hl).
    rewrite (CosineTheorems.cosine_equal_lengths b a (eq_sym Hl)).
    unfold dot. rewrite (float_dot_comm a b).
    rewrite (orb_comm (num_eqb (norm a) num_zero)).
    cbn [num_mul float_JsNumber].
    now rewrite (float_mul_comm (norm a) (norm b)).
  - rewrite (CosineTheorems.cosine_different_lengths a b Hl).
    rewrite (CosineTheorems.cosine_different_lengths b a);
      [reflexivity | congruence].
Qed.

(** X15.  On binary64 the similarity of a vector that is not zero with
    itself is not always 1.  For (1, 3) it is 1 - 2^-52: the two norms
    are the rounded square root of 10, and their product is above 10.
    For (2^-600) it is 0: the square underflows to 0, and a norm that is
    0 makes the answer 0.  For (2^600) it is [NaN]: the square
    overflows.  For (2) it is 1. *)
Theorem calculateCosineSimilarity_self_binary64 :
  calculateCosineSimilarity [1; 3]%float [1; 3]%float
  = Ok 0x1.ffffffffffffep-1%float
  /\ PrimFloat.ltb 0x1.ffffffffffffep-1 1 = true
  /\ calculateCosineSimilarity [0x1p-600%float] [0x1p-600%float]
     = Ok 0%float
  /\ calculateCosineSimilarity [0x1p+600%float] [0x1p+600%float] = Ok nan
  /\ calculateCosineSimilarity [2%float] [2%float] = Ok 1%float.
Proof.
  split; [vm_compute; reflexivity |].
  split; [vm_compute; reflexivity |].
  split; [vm_compute; reflexivity |].
  split; vm_compute; reflexivity.
Qed.

End CosineNumbers.

(* ================================================================== *)
(** * The tools *)
(* ================================================================== *)

Module ToolTheorems.

Import Database VectorStore SimilarityProperties SearchProperties Tools
  ToolProperties.

Section Tools.

Context {num : Type} `{JsNumber num}.

Local Abbreviation row := (Row.t num).
Local Abbreviation result := (SearchResult.t num).
Local Abbreviation world := (World.t num).

Variable fault : nat -> option Error.
Variable scan : list row -> list row.
Variable nearest : NearestQuery.t num -> list row -> list (row * num).
Variable embed_query : jsstring -> Result (list num).
Variable Math_round : num -> num.
Variables n0_5 n0_7 n0_8 n100 : num.

Local Abbreviation searchByText :=
  (searchByText fault scan nearest embed_query).
Local Abbreviation vectorSearch :=
  (vectorSearch fault scan nearest embed_query Math_round n0_7 n0_8 n100).
Local Abbreviation filterDocuments :=
  (filterDocuments fault scan nearest embed_query Math_round n0_5 n100).
Local Abbreviation scalar_search := (scalar_search fault scan).
Local Abbreviation format_result := (format_result Math_round n0_7 n0_8 n100).
Local Abbreviation filtered_document := (filtered_document Math_round n100).

Lemma restore_mode (w : world) (b : bool) :
  with_useVectorExtension (with_useVectorExtension w b)
                          (World.useVectorExtension w) = w.
Proof. now destruct w. Qed.

Lemma restore_mode_tick (w : world) (b : bool) :
  with_useVectorExtension (tick (with_useVectorExtension w b))
                          (World.useVectorExtension w) = tick w.
Proof. now destruct w. Qed.

(** A search by text through a store just made is a search of the
    JavaScript branch. *)
Lemma searchByText_new_store (query : jsstring) (limit : Z)
    (filters : option (Filters.t num)) (w : world) :
  new_VectorStore (searchByText query (Some limit) filters) w
  = match embed_query query with
    | Err e => (Err e, w)
    | Ok queryEmbedding =>
        (scalar_search queryEmbedding limit filters w, tick w)
    end.
Proof.
  unfold new_VectorStore, Tools.searchByText.
  destruct (embed_query query) as [queryEmbedding | e].
  - rewrite RetrievalTheorems.searchSimilar_scalar_unfold by reflexivity.
    unfold ToolProperties.scalar_search, selected.
    cbn [World.clock World.table World.rows with_useVectorExtension].
    destruct (fault (World.clock w));
      [now rewrite restore_mode_tick |].
    destruct (World.table w); [| now rewrite restore_mode_tick].
    destruct (map_rows _ _); now rewrite restore_mode_tick.
  - unfold throw. now rewrite restore_mode.
Qed.

Lemma new_store_then {A B : Type} (m : M num A) (f : A -> B) (w : world) :
  new_VectorStore (bind m (fun a => ret (f a))) w
  = match new_VectorStore m w with
    | (Ok a, w') => (Ok (f a), w')
    | (Err e, w') => (Err e, w')
    end.
Proof.
  unfold new_VectorStore, bind, ret.
  now destruct (m (with_useVectorExtension w false)) as [[a | e] w'].
Qed.

Lemma vectorSearch_unfold (query : jsstring) (limit : option Z)
    (year : option jsstring) (minSimilarity : option num) (w : world) :
  let limit' := match limit with Some l => l | None => 5 end in
  let minSimilarity' :=
    match minSimilarity with Some m => m | None => n0_7 end in
  let filters := filters_with year None (Some minSimilarity') in
  let failure error :=
    {| VectorSearchResponse.success := false;
       VectorSearchResponse.error := Some error;
       VectorSearchResponse.query := query;
       VectorSearchResponse.totalResults := None;
       VectorSearchResponse.results := [];
       VectorSearchResponse.filters := None |} in
  vectorSearch query limit year minSimilarity w
  = match embed_query query with
    | Err e => (Ok (failure e), w)
    | Ok queryEmbedding =>
        match scalar_search queryEmbedding limit' filters w with
        | Err e => (Ok (failure e), tick w)
        | Ok results =>
            (Ok {| VectorSearchResponse.success := true;
                   VectorSearchResponse.error := None;
                   VectorSearchResponse.query := query;
                   VectorSearchResponse.totalResults :=
                     Some (Z.of_nat (List.length results));
                   VectorSearchResponse.results :=
                     map_index format_result 0 results;
                   VectorSearchResponse.filters :=
                     Some (year, minSimilarity') |},
             tick w)
        end
    end.
Proof.
  cbn zeta. unfold Tools.vectorSearch, try_catch.
  rewrite new_store_then, searchByText_new_store.
  destruct (embed_query query) as [queryEmbedding | e]; [| reflexivity].
  unfold filters_with.
  now destruct (scalar_search _ _ _ _).
Qed.


Lemma map_index_length {A B : Type} (f : A -> nat -> B) (xs : list A) :
  forall i, List.length (map_index f i xs) = List.length xs.
Proof.
  induction xs as [| x xs IH]; intros i; cbn; [reflexivity | now rewrite IH].
Qed.

Lemma map_index_In {A B : Type} (f : A -> nat -> B) (xs : list A) :
  forall i y, In y (map_index f i xs) -> exists x k, In x xs /\ y = f x k.
Proof.
  induction xs as [| x xs IH]; intros i y Hin; [destruct Hin |].
  cbn in Hin. destruct Hin as [<- | Hin].
  - exists x, i. split; [now left | reflexivity].
  - destruct (IH _ _ Hin) as [x' [k [Hx Hy]]].
    exists x', k. split; [now right | exact Hy].
Qed.

Lemma map_index_ranks (results : list result) :
  forall i,
    map FormattedResult.rank (map_index format_result i results)
    = map (fun k => Z.of_nat k + 1) (seq i (List.length results)).
Proof.
  induction results as [| x xs IH]; intros i; [reflexivity |].
  cbn. now rewrite IH.
Qed.

Lemma scalar_search_results (queryEmbedding : list num) (limit : Z)
    (filters : option (Filters.t num)) (w : world) (results : list result) :
  scalar_search queryEmbedding limit filters w = Ok results ->
  Forall (fun x => exists r, In r (selected scan filters w)
                             /\ scored queryEmbedding r x)
         results
  /\ (hands_out_rows scan ->
      Forall (shows_selected filters (World.rows w)) results)
  /\ (forall x m, In x results -> minSimilarity_filter filters = Some m ->
                  num_geb (SearchResult.similarity x) m = true)
  /\ (0 <= limit -> Z.of_nat (List.length results) <= limit).
Proof.
  unfold ToolProperties.scalar_search.
  destruct (fault (World.clock w)); [discriminate |].
  destruct (World.table w) as [col |]; [| discriminate].
  destruct (map_rows _ _) as [candidates | e] eqn:Hc; [| discriminate].
  intros [= <-]. split; [| split; [| split]].
  - now apply (RetrievalTheorems.rank_scored scan col).
  - intros Hscan.
    now apply (RetrievalTheorems.rank_shows_selected scan col queryEmbedding).
  - intros x m. apply RetrievalTheorems.rank_threshold.
  - apply RetrievalTheorems.rank_length.
Qed.

(** X17.  What [vectorSearch] reports when it succeeds and the server
    hands out the rows it holds: the query was embedded; [totalResults]
    is the number of results, which is at most a limit that is not
    negative; the ranks are 1, 2, ... in order; every result shows a
    committed row, of the year asked for when one was, with the cosine
    similarity of the embedded query and the vector of that row, which
    is at least the threshold (0.7 unless another is given, and unless
    the threshold is 0); the relevance score is read off this
    similarity, before it is rounded. *)
Theorem vectorSearch_success_shape (query : jsstring) (limit : option Z)
    (year : option jsstring) (minSimilarity : option num) (w w' : world)
    (response : VectorSearchResponse.t num) :
  hands_out_rows scan ->
  vectorSearch query limit year minSimilarity w = (Ok response, w') ->
  VectorSearchResponse.success response = true ->
  let limit' := match limit with Some l => l | None => 5 end in
  let minSimilarity' :=
    match minSimilarity with Some m => m | None => n0_7 end in
  let results := VectorSearchResponse.results response in
  exists queryEmbedding,
    embed_query query = Ok queryEmbedding
    /\ VectorSearchResponse.totalResults response
       = Some (Z.of_nat (List.length results))
    /\ map FormattedResult.rank results = ranks (List.length results)
    /\ (0 <= limit' -> Z.of_nat (List.length results) <= limit')
    /\ Forall
         (fun r =>
            exists stored x,
              In stored (World.rows w)
              /\ scored queryEmbedding stored x
              /\ shows_selected (filters_with year None (Some minSimilarity'))
                                (World.rows w) x
              /\ (truthy minSimilarity' = true ->
                  num_geb (SearchResult.similarity x) minSimilarity' = true)
              /\ FormattedResult.content r = SearchResult.content x
              /\ FormattedResult.source r = source_of x
              /\ FormattedResult.relevanceScore r
                 = relevance n0_7 n0_8 (SearchResult.similarity x)
              /\ FormattedResult.similarity r
                 = round2 Math_round n100 (SearchResult.similarity x))
         results.
Proof.
  intros Hscan Hv Hs. cbn zeta.
  pose proof (vectorSearch_unfold query limit year minSimilarity w) as Hu.
  cbn zeta in Hu. rewrite Hu in Hv. clear Hu.
  destruct (embed_query query) as [queryEmbedding | e];
    [| injection Hv as <- _; discriminate].
  destruct (scalar_search _ _ _ _) as [results | e] eqn:Hr;
    [| injection Hv as <- _; discriminate].
  injection Hv as <- _. exists queryEmbedding.
  split; [reflexivity |].
  cbn [VectorSearchResponse.totalResults VectorSearchResponse.results].
  destruct (scalar_search_results _ _ _ _ _ Hr)
    as [Hscored [Hshow [Hmin Hlen]]].
  specialize (Hshow Hscan).
  rewrite map_index_length. split; [reflexivity |].
  split; [apply map_index_ranks |]. split; [exact Hlen |].
  apply Forall_forall. intros r Hin.
  destruct (map_index_In _ _ _ _ Hin) as [x [k [Hx ->]]].
  rewrite Forall_forall in Hshow, Hscored.
  destruct (Hscored x Hx) as [stored [Hsel Hsc]].
  exists stored, x.
  split; [exact (proj1 (RetrievalTheorems.selected_holds scan _ w stored
                          Hscan Hsel)) |].
  split; [exact Hsc |].
  split; [now apply Hshow |]. split; [| now repeat split].
  intros Ht. apply (Hmin x _ Hx).
  unfold minSimilarity_filter, filters_with. cbn. now rewrite Ht.
Qed.

Lemma substring_0 (s : jsstring) (n : Z) :
  0 <= n -> JsBuiltins.substring s 0 n = firstn (Z.to_nat n) s.
Proof.
  intros Hn. unfold JsBuiltins.substring.
  pose proof (JsStringFacts.length_nonneg s) as Hl.
  replace (Z.min (Z.max 0 0) (length s)) with 0 by lia.
  replace (Z.max n 0) with n by lia.
  replace (Z.min 0 (Z.min n (length s))) with 0 by lia.
  replace (Z.max 0 (Z.min n (length s))) with (Z.min n (length s)) by lia.
  cbn [Z.to_nat skipn]. rewrite Z.sub_0_r.
  unfold length in *.
  destruct (Z.le_ge_cases n (Z.of_nat (List.length s))) as [Hle | Hge].
  - now rewrite Z.min_l by exact Hle.
  - rewrite Z.min_r by exact Hge. rewrite Nat2Z.id.
    rewrite firstn_all. symmetry. apply firstn_all2. lia.
Qed.

Lemma filterDocuments_unfold (year filename searchTerm : option jsstring)
    (limit : option Z) (w : world) :
  let limit' := match limit with Some l => l | None => 10 end in
  let filters := filters_with year filename (Some n0_5) in
  let caught error :=
    {| FilterResponse.success := false;
       FilterResponse.error := Some (Caught error);
       FilterResponse.criteria_year := year;
       FilterResponse.criteria_filename := filename;
       FilterResponse.criteria_searchTerm := Some searchTerm;
       FilterResponse.totalResults := None;
       FilterResponse.documents := None |} in
  filterDocuments year filename searchTerm limit w
  = if given searchTerm then
      match
        embed_query (match searchTerm with Some s => s | None => [] end)
      with
      | Err e => (Ok (caught e), w)
      | Ok queryEmbedding =>
          match scalar_search queryEmbedding limit' filters w with
          | Err e => (Ok (caught e), tick w)
          | Ok results =>
              (Ok {| FilterResponse.success := true;
                     FilterResponse.error := None;
                     FilterResponse.criteria_year := year;
                     FilterResponse.criteria_filename := filename;
                     FilterResponse.criteria_searchTerm := Some searchTerm;
                     FilterResponse.totalResults :=
                       Some (Z.of_nat (List.length results));
                     FilterResponse.documents :=
                       Some (map filtered_document results) |},
               tick w)
          end
      end
    else
      (Ok {| FilterResponse.success := false;
             FilterResponse.error := Some NotImplemented;
             FilterResponse.criteria_year := year;
             FilterResponse.criteria_filename := filename;
             FilterResponse.criteria_searchTerm := None;
             FilterResponse.totalResults := None;
             FilterResponse.documents := None |},
       w).
Proof.
  cbn zeta. unfold Tools.filterDocuments, try_catch.
  destruct (given searchTerm).
  - rewrite new_store_then, searchByText_new_store.
    destruct (embed_query _) as [queryEmbedding | e]; [| reflexivity].
    unfold filters_with. now destruct (scalar_search _ _ _ _).
  - unfold new_VectorStore, ret. now rewrite restore_mode.
Qed.

(** X18.  [filterDocuments] never rejects.  Without a search term, or
    with the empty one, it answers that filtering by metadata is not
    implemented, whatever [year] and [filename] are, and does nothing:
    no query is embedded and no statement sent.  When it succeeds, each
    document shows a row that passes the filters (a committed row, when
    the server hands out the rows it holds), and its content is the
    first 500 code units of the row's followed by ["..."], which is
    appended also when nothing was cut. *)
Theorem filterDocuments_answers (year filename searchTerm : option jsstring)
    (limit : option Z) (w : world) :
  (exists response,
      fst (filterDocuments year filename searchTerm limit w) = Ok response)
  /\ (given searchTerm = false ->
      snd (filterDocuments year filename searchTerm limit w) = w
      /\ exists response,
          fst (filterDocuments year filename searchTerm limit w) = Ok response
          /\ FilterResponse.success response = false
          /\ FilterResponse.error response = Some NotImplemented)
  /\ (forall response,
         hands_out_rows scan ->
         fst (filterDocuments year filename searchTerm limit w) = Ok response ->
         FilterResponse.success response = true ->
         exists documents,
           FilterResponse.documents response = Some documents
           /\ FilterResponse.totalResults response
              = Some (Z.of_nat (List.length documents))
           /\ Forall
                (fun d =>
                   exists x,
                     shows_selected (filters_with year filename (Some n0_5))
                                    (World.rows w) x
                     /\ FilteredDocument.id d = SearchResult.id x
                     /\ FilteredDocument.content d
                        = firstn 500 (SearchResult.content x) ++ lit "..."
                     /\ length (FilteredDocument.content d)
                        = Z.min 500 (length (SearchResult.content x)) + 3)
                documents).
Proof.
  pose proof (filterDocuments_unfold year filename searchTerm limit w) as Hu.
  cbn zeta in Hu. rewrite Hu. clear Hu.
  destruct (given searchTerm).
  - destruct (embed_query _) as [queryEmbedding | e].
    + destruct (scalar_search _ _ _ _) as [results | e] eqn:Hr;
        cbn [fst snd].
      * split; [eexists; reflexivity |]. split; [discriminate |].
        intros response Hscan [= <-] _.
        cbn [FilterResponse.documents FilterResponse.totalResults].
        eexists. split; [reflexivity |].
        rewrite length_map. split; [reflexivity |].
        destruct (scalar_search_results _ _ _ _ _ Hr) as [_ [Hshow _]].
        specialize (Hshow Hscan).
        apply Forall_forall. intros d Hd.
        apply in_map_iff in Hd. destruct Hd as [x [<- Hx]].
        rewrite Forall_forall in Hshow.
        exists x. split; [now apply Hshow |]. split; [reflexivity |].
        unfold Tools.filtered_document. cbn [FilteredDocument.content].
        rewrite substring_0 by lia. split; [reflexivity |].
        unfold length. rewrite length_app, length_firstn.
        change (List.length (lit "...")) with 3%nat.
        change (Z.to_nat 500) with 500%nat. lia.
      * split; [eexists; reflexivity |]. split; [discriminate |].
        intros response _ [= <-]. discriminate.
    + cbn [fst snd]. split; [eexists; reflexivity |].
      split; [discriminate |]. intros response _ [= <-]. discriminate.
  - cbn [fst snd]. split; [eexists; reflexivity |]. split.
    + intros _. split; [reflexivity |]. eexists. now repeat split.
    + intros response _ [= <-]. discriminate.
Qed.

End Tools.

Section Answers.

Context {num : Type} `{JsNumber num}.

Local Abbreviation row := (Row.t num).
Local Abbreviation world := (World.t num).

Variable fault : nat -> option Error.
Variable scan : list row -> list row.
Variable embed_query : jsstring -> Result (list num).
Variable Math_round : num -> num.
Variables n0_5 n0_7 n0_8 n100 : num.


End Answers.

(** Without a search term nothing happens; with one, over a
    [vector(1536)] column, a content of four units comes back with the
    dots. *)
Lemma filterDocuments_answers_witness :
  snd (filterDocuments Inputs.no_fault Inputs.as_inserted Inputs.no_answer
         ToolInputs.embed_east ToolInputs.round_binary64 0.5%float 100%float
         (Some (lit "2000")) None (Some []) None
         (Inputs.vector_world SearchInputs.three_years))
  = Inputs.vector_world SearchInputs.three_years
  /\ exists response,
      fst (filterDocuments Inputs.no_fault Inputs.as_inserted
             Inputs.no_answer ToolInputs.embed_east
             ToolInputs.round_binary64 0.5%float 100%float
             (Some (lit "2000")) None (Some (lit "buy")) None
             (Inputs.vector_world SearchInputs.three_years))
      = Ok response
      /\ FilterResponse.success response = true
      /\ option_map (map (fun d => (FilteredDocument.id d,
                                    FilteredDocument.content d)))
                    (FilterResponse.documents response)
         = Some [(lit "c", lit "text...")]
      /\ exists documents,
          FilterResponse.documents response = Some documents
          /\ FilterResponse.totalResults response
             = Some (Z.of_nat (List.length documents)).
Proof.
  split.
  - exact (proj1 (proj1 (proj2 (filterDocuments_answers Inputs.no_fault
                                  Inputs.as_inserted Inputs.no_answer
                                  ToolInputs.embed_east
                                  ToolInputs.round_binary64 0.5%float
                                  100%float (Some (lit "2000")) None
                                  (Some []) None
                                  (Inputs.vector_world
                                     SearchInputs.three_years)))
                        eq_refl)).
  - eexists. split; [vm_compute; reflexivity |].
    split; [reflexivity |]. split; [vm_compute; reflexivity |].
    pose proof (proj2 (proj2 (filterDocuments_answers Inputs.no_fault
                                Inputs.as_inserted Inputs.no_answer
                                ToolInputs.embed_east
                                ToolInputs.round_binary64 0.5%float
                                100%float (Some (lit "2000")) None
                                (Some (lit "buy")) None
                                (Inputs.vector_world
                                   SearchInputs.three_years)))) as Hs.
    edestruct Hs as [documents [Hd [Ht _]]];
      [exact RetrievalTheorems.as_inserted_hands_out
      | vm_compute; reflexivity | reflexivity |].
    exists documents. split; [exact Hd | exact Ht].
Defined.

(** A search over the rows of three letters in a [vector(1536)] column,
    with the defaults: limit 5, threshold 0.7. *)
Lemma vectorSearch_success_shape_witness :
  exists response w',
    vectorSearch Inputs.no_fault Inputs.as_inserted Inputs.no_answer
      ToolInputs.embed_east ToolInputs.round_binary64
      ToolInputs.seven_tenths ToolInputs.eight_tenths 100%float
      (lit "buy") None None None
      (Inputs.vector_world SearchInputs.rated_rows)
    = (Ok response, w')
    /\ VectorSearchResponse.success response = true
    /\ map (fun r => (FormattedResult.rank r, FormattedResult.relevanceScore r,
                      Source.year (FormattedResult.source r)))
           (VectorSearchResponse.results response)
       = [(1, high, lit "1999"); (2, high, lit "2000");
          (3, medium, lit "2001"); (4, low, lit "2001")]
    /\ VectorSearchResponse.totalResults response = Some 4
    /\ map FormattedResult.rank (VectorSearchResponse.results response)
       = ranks 4.
Proof.
  eexists. eexists. split; [vm_compute; reflexivity |].
  split; [reflexivity |].
  split; [vm_compute; reflexivity |].
  pose proof (vectorSearch_success_shape Inputs.no_fault Inputs.as_inserted
                Inputs.no_answer ToolInputs.embed_east
                ToolInputs.round_binary64 ToolInputs.seven_tenths
                ToolInputs.eight_tenths 100%float (lit "buy") None None None
                (Inputs.vector_world SearchInputs.rated_rows)) as Hs.
  cbn zeta in Hs.
  edestruct Hs as [queryEmbedding [_ [Ht [Hr _]]]];
    [exact RetrievalTheorems.as_inserted_hands_out
    | vm_compute; reflexivity | reflexivity |].
  split; [exact Ht | exact Hr].
Defined.

End ToolTheorems.

(* ================================================================== *)
(** * The statistics *)
(* ================================================================== *)

Module BuiltinFacts.

Import JsBuiltins IngestionProperties.

Lemma digit_cases (c : code_unit) :
  Ingestion.is_digit c = true ->
  (c = 48 \/ c = 49 \/ c = 50 \/ c = 51 \/ c = 52 \/ c = 53 \/ c = 54
   \/ c = 55 \/ c = 56 \/ c = 57)%N.
Proof.
  unfold Ingestion.is_digit. intros Hd.
  apply andb_true_iff in Hd. destruct Hd as [Hl Hu].
  apply N.leb_le in Hl, Hu. lia.
Qed.

Ltac each_digit c H :=
  destruct (digit_cases c H) as
    [-> | [-> | [-> | [-> | [-> | [-> | [-> | [-> | [-> | ->]]]]]]]]].

Ltac read_sign :=
  match goal with
  | |- context [digits_value 10 ?s None] =>
      change (parseInt s)
        with (match digits_value 10 s None with
              | Some mathInt => Some (1 * mathInt)
              | None => None
              end);
      destruct (digits_value 10 s None) as [[| p | p] |]; reflexivity
  end.

(** A string of decimal digits is read in radix 10 from its first
    unit. *)
Lemma parseInt_digits (s : jsstring) :
  all_digits s ->
  parseInt s = digits_value 10 s None.
Proof.
  intros Hd. destruct s as [| c rest]; [reflexivity |].
  inversion Hd as [| ? ? Hc Hrest]; subst.
  each_digit c Hc; try read_sign.
  destruct rest as [| c2 rest2]; [reflexivity |].
  inversion Hrest as [| ? ? Hc2 _]; subst.
  each_digit c2 Hc2; read_sign.
Qed.

Lemma digits_value_decimal (d : Decimal.uint) :
  forall n : nat,
    digits_value 10 (lit (NilEmpty.string_of_uint d)) (Some (Z.of_nat n))
    = Some (Z.of_nat (Nat.of_uint_acc d n)).
Proof.
  induction d; intros n; cbn [NilEmpty.string_of_uint Nat.of_uint_acc];
    [reflexivity | ..];
    (etransitivity; [| apply IHd]);
    unfold lit; cbn [list_ascii_of_string map digits_value];
    match goal with
    | |- context [digit_value ?c] =>
        let v := eval cbv in (digit_value c) in
        change (digit_value c) with v
    end;
    cbv iota beta;
    match goal with
    | |- context [?k <? 10] => change (k <? 10) with true
    end;
    cbv iota; rewrite Nat.tail_mul_spec; f_equal; f_equal; lia.
Qed.

Lemma digits_value_first (d : Decimal.uint) :
  d <> Decimal.Nil ->
  digits_value 10 (lit (NilEmpty.string_of_uint d)) None
  = digits_value 10 (lit (NilEmpty.string_of_uint d)) (Some (Z.of_nat 0)).
Proof.
  destruct d; [congruence | ..]; intros _; reflexivity.
Qed.

(** Reading the decimal text of a count gives the count. *)
Lemma parseInt_of_nat (n : nat) : parseInt (of_nat n) = Some (Z.of_nat n).
Proof.
  rewrite parseInt_digits by apply IngestionTheorems.of_nat_digits.
  unfold of_nat.
  rewrite digits_value_first, digits_value_decimal.
  - fold (Nat.of_uint (Nat.to_uint n)). now rewrite DecimalNat.Unsigned.of_to.
  - rewrite <- (DecimalNat.Unsigned.of_to n) at 1. rewrite DecimalNat.Unsigned.to_of.
    apply DecimalFacts.unorm_nonnil.
Qed.

End BuiltinFacts.

Module StatsTheorems.

Import Database VectorStore Tools ToolProperties.

Lemma list_sum_cons (x : nat) (l : list nat) :
  list_sum (x :: l) = (x + list_sum l)%nat.
Proof. reflexivity. Qed.

Lemma count_occ_sum {A : Type} (dec : forall x y : A, {x = y} + {x <> y})
    (a : A) (l ks : list A) :
  list_sum (map (count_occ dec (a :: l)) ks)
  = (list_sum (map (count_occ dec l) ks) + count_occ dec ks a)%nat.
Proof.
  induction ks as [| k ks IH]; [reflexivity |].
  rewrite !map_cons, !list_sum_cons, IH. cbn [count_occ].
  destruct (dec a k) as [-> | Hne].
  - destruct (dec k k); [lia | contradiction].
  - destruct (dec k a); [congruence | lia].
Qed.

(** The counts of the groups add up to the number of rows. *)
Lemma count_occ_nodup {A : Type} (dec : forall x y : A, {x = y} + {x <> y})
    (l : list A) :
  list_sum (map (count_occ dec l) (nodup dec l)) = List.length l.
Proof.
  induction l as [| a l IH]; [reflexivity |].
  cbn [nodup]. destruct (in_dec dec a l) as [Hin | Hnot].
  - rewrite count_occ_sum, IH.
    assert (Hc : count_occ dec (nodup dec l) a = 1%nat).
    { apply NoDup_count_occ'; [apply NoDup_nodup | now apply nodup_In]. }
    cbn [List.length]. lia.
  - rewrite map_cons, list_sum_cons, count_occ_sum, IH.
    rewrite count_occ_cons_eq by reflexivity.
    rewrite (proj1 (count_occ_not_In dec l a) Hnot).
    assert (Hc : count_occ dec (nodup dec l) a = 0%nat).
    { apply count_occ_not_In. now rewrite nodup_In. }
    cbn [List.length]. lia.
Qed.

Section Stats.

Context {num : Type} `{JsNumber num}.

Local Abbreviation row := (Row.t num).
Local Abbreviation world := (World.t num).

Variable fault : nat -> option Error.
Variable order_by_year_desc : list (jsstring * nat) -> list (jsstring * nat).
Variable order_by_count_desc : list (jsstring * nat) -> list (jsstring * nat).

Local Abbreviation getStats :=
  (getStats fault order_by_year_desc order_by_count_desc).

Local Abbreviation dec := (list_eq_dec N.eq_dec).

(** What [getStats] makes of the groups the server hands out. *)
Lemma counts_parsed (groups : list (jsstring * nat)) :
  map (fun '(k, count) => (k, JsBuiltins.parseInt count))
      (map (fun '(k, n) => (k, of_nat n)) groups)
  = map (fun '(k, n) => (k, Some (Z.of_nat n))) groups.
Proof.
  rewrite map_map. apply map_ext. intros [k n].
  now rewrite BuiltinFacts.parseInt_of_nat.
Qed.

Lemma total_count_parsed (groups : list (jsstring * nat)) :
  total_count (map (fun '(k, n) => (k, Some (Z.of_nat n))) groups)
  = Some (Z.of_nat (list_sum (map snd groups))).
Proof.
  induction groups as [| [k n] groups IH]; [reflexivity |].
  cbn [map total_count snd]. rewrite IH, list_sum_cons. f_equal. lia.
Qed.

Lemma group_count_keys (key : row -> jsstring) (rows : list row) :
  map fst (group_count key rows) = nodup dec (map key rows).
Proof.
  unfold group_count. rewrite map_map. cbn [fst]. apply map_id.
Qed.

Lemma group_count_sum (key : row -> jsstring) (rows : list row) :
  list_sum (map snd (group_count key rows)) = List.length rows.
Proof.
  unfold group_count. rewrite map_map. cbn [snd].
  rewrite count_occ_nodup. apply length_map.
Qed.

Lemma group_count_In (key : row -> jsstring) (rows : list row) (r : row) :
  In r rows ->
  In (key r, count_occ dec (map key rows) (key r)) (group_count key rows).
Proof.
  intros Hin. unfold group_count.
  apply (in_map (fun k => (k, count_occ dec (map key rows) k))).
  apply nodup_In. now apply in_map.
Qed.

(** The groups as [getStats] reports them, in whatever order the server
    hands them out. *)
Lemma reported_groups (key : row -> jsstring)
    (order : list (jsstring * nat) -> list (jsstring * nat))
    (rows : list row) :
  (forall groups, Permutation (order groups) groups) ->
  let reported :=
    map (fun '(k, n) => (k, Some (Z.of_nat n)))
        (order (group_count key rows)) in
  total_count reported = Some (Z.of_nat (List.length rows))
  /\ NoDup (map fst reported)
  /\ forall r,
      In r rows ->
      In (key r, Some (Z.of_nat (count_occ dec (map key rows) (key r))))
         reported
      /\ (0 < count_occ dec (map key rows) (key r))%nat.
Proof.
  intros Hperm. cbn zeta.
  specialize (Hperm (group_count key rows)).
  split; [| split].
  - rewrite total_count_parsed.
    rewrite (Permutation_list_sum (Permutation_map snd Hperm)).
    now rewrite group_count_sum.
  - rewrite map_map.
    rewrite (map_ext _ fst) by now intros [k n].
    apply (Permutation_NoDup (Permutation_sym (Permutation_map fst Hperm))).
    rewrite group_count_keys. apply NoDup_nodup.
  - intros r Hin. split.
    + apply (in_map (fun '(k, n) => (k, Some (Z.of_nat n)))
                    _ (key r, count_occ dec (map key rows) (key r))).
      apply (Permutation_in _ (Permutation_sym Hperm)).
      now apply group_count_In.
    + apply count_occ_In. now apply in_map.
Qed.

Lemma reported_keys (key : row -> jsstring)
    (order : list (jsstring * nat) -> list (jsstring * nat))
    (rows : list row) (k : jsstring) :
  (forall groups, Permutation (order groups) groups) ->
  In k (map fst (map (fun '(k, n) => (k, Some (Z.of_nat n)))
                     (order (group_count key rows)))) ->
  exists r, In r rows /\ key r = k.
Proof.
  intros Hperm Hin. rewrite map_map in Hin.
  rewrite (map_ext _ fst) in Hin by now intros [k' n].
  apply (Permutation_in _ (Permutation_map fst (Hperm _))) in Hin.
  rewrite group_count_keys in Hin. apply nodup_In in Hin.
  apply in_map_iff in Hin. destruct Hin as [r [Hk Hr]]. now exists r.
Qed.

Lemma getStats_unfold (w : world) :
  getStats w
  = match fault (World.clock w) with
    | Some e => (Err e, ticks 1 w)
    | None =>
        match World.table w with
        | None => (Err UndefinedTable, ticks 1 w)
        | Some _ =>
            match fault (S (World.clock w)) with
            | Some e => (Err e, ticks 2 w)
            | None =>
                match fault (S (S (World.clock w))) with
                | Some e => (Err e, ticks 3 w)
                | None =>
                    (Ok {| Stats.totalDocuments :=
                             Some (Z.of_nat (List.length (World.rows w)));
                           Stats.documentsByYear :=
                             map (fun '(k, n) => (k, Some (Z.of_nat n)))
                                 (order_by_year_desc
                                    (group_count Row.year (World.rows w)));
                           Stats.documentsByFile :=
                             map (fun '(k, n) => (k, Some (Z.of_nat n)))
                                 (order_by_count_desc
                                    (group_count Row.filename
                                                 (World.rows w))) |},
                     ticks 3 w)
                end
            end
        end
    end.
Proof.
  unfold Tools.getStats, try_catch, bind, select_total, select_counts,
    select, ret, throw.
  cbn [ticks].
  destruct (fault (World.clock w)); [reflexivity |].
  destruct (World.table w) as [col |] eqn:Ht; [| reflexivity].
  cbn [tick World.clock World.table World.rows]. rewrite Ht.
  destruct (fault (S (World.clock w))); [reflexivity |].
  cbn [tick World.clock World.table World.rows]. rewrite Ht.
  destruct (fault (S (S (World.clock w)))); [reflexivity |].
  now rewrite BuiltinFacts.parseInt_of_nat, !counts_parsed.
Qed.

(** X20.  [getStats] only reads, and it stops at the first of its three
    statements that fails: it resolves exactly when the table exists and
    none of the three is interrupted, and otherwise rejects with the
    error of the first that fails, the later ones not being sent. *)
Theorem getStats_stops_at_first_failure (w : world) :
  ((exists stats, fst (getStats w) = Ok stats)
   <-> World.table w <> None
       /\ fault (World.clock w) = None
       /\ fault (S (World.clock w)) = None
       /\ fault (S (S (World.clock w))) = None)
  /\ (forall e,
         fst (getStats w) = Err e ->
         exists k,
           (k < 3)%nat
           /\ snd (getStats w) = ticks (S k) w
           /\ (forall j, (j < k)%nat -> fault (j + World.clock w)%nat = None)
           /\ (fault (k + World.clock w)%nat = Some e
               \/ (k = 0%nat /\ World.table w = None /\ e = UndefinedTable)))
  /\ (exists n,
         (n <= 3)%nat /\ snd (getStats w) = ticks n w).
Proof.
  rewrite getStats_unfold.
  destruct (fault (World.clock w)) as [e0 |] eqn:F0; cbn [fst snd].
  { split; [split; [intros [s Hs]; discriminate
                   | intros [_ [Hc _]]; discriminate] |].
    split; [| exists 1%nat; split; [lia | reflexivity]].
    intros e [= <-]. exists 0%nat. split; [lia |]. split; [reflexivity |].
    split; [intros j Hj; lia | left; exact F0]. }
  destruct (World.table w) as [col |] eqn:Ht; cbn [fst snd].
  2:{ split; [split; [intros [s Hs]; discriminate
                     | intros [Hc _]; contradiction] |].
      split; [| exists 1%nat; split; [lia | reflexivity]].
      intros e [= <-]. exists 0%nat. split; [lia |]. split; [reflexivity |].
      split; [intros j Hj; lia | right; now repeat split]. }
  destruct (fault (S (World.clock w))) as [e1 |] eqn:F1; cbn [fst snd].
  { split; [split; [intros [s Hs]; discriminate
                   | intros [_ [_ [Hc _]]]; discriminate] |].
    split; [| exists 2%nat; split; [lia | reflexivity]].
    intros e [= <-]. exists 1%nat. split; [lia |]. split; [reflexivity |].
    split; [| left; exact F1].
    intros j Hj. assert (j = 0)%nat as -> by lia. exact F0. }
  destruct (fault (S (S (World.clock w)))) as [e2 |] eqn:F2; cbn [fst snd].
  { split; [split; [intros [s Hs]; discriminate
                   | intros [_ [_ [_ Hc]]]; discriminate] |].
    split; [| exists 3%nat; split; [lia | reflexivity]].
    intros e [= <-]. exists 2%nat. split; [lia |]. split; [reflexivity |].
    split; [| left; exact F2].
    intros j Hj. assert (j = 0 \/ j = 1)%nat as [-> | ->] by lia;
      assumption. }
  split; [split; [intros _; repeat split; congruence
                 | intros _; eexists; reflexivity] |].
  split; [intros e; discriminate |].
  exists 3%nat. split; [lia | reflexivity].
Qed.

Hypothesis year_order : forall groups,
  Permutation (order_by_year_desc groups) groups.
Hypothesis count_order : forall groups,
  Permutation (order_by_count_desc groups) groups.

(** X19.  The figures of [getStats] agree, in whatever order the server
    hands out the groups: [totalDocuments] is the number of rows of the
    table, read back from the text of the count; the counts by year add
    up to it and so do the counts by file; no year and no file is listed
    twice; and the year and the file of every row are listed, each with
    the number of the rows that have it. *)
Theorem getStats_figures_agree (w w' : world) (stats : Stats.t) :
  getStats w = (Ok stats, w') ->
  Stats.totalDocuments stats = Some (Z.of_nat (List.length (World.rows w)))
  /\ total_count (Stats.documentsByYear stats) = Stats.totalDocuments stats
  /\ total_count (Stats.documentsByFile stats) = Stats.totalDocuments stats
  /\ NoDup (map fst (Stats.documentsByYear stats))
  /\ NoDup (map fst (Stats.documentsByFile stats))
  /\ forall r,
      In r (World.rows w) ->
      In (Row.year r,
          Some (Z.of_nat (count_occ dec (map Row.year (World.rows w))
                                    (Row.year r))))
         (Stats.documentsByYear stats)
      /\ In (Row.filename r,
             Some (Z.of_nat (count_occ dec (map Row.filename (World.rows w))
                                       (Row.filename r))))
            (Stats.documentsByFile stats).
Proof.
  rewrite getStats_unfold.
  destruct (fault (World.clock w)); [discriminate |].
  destruct (World.table w); [| discriminate].
  destruct (fault (S (World.clock w))); [discriminate |].
  destruct (fault (S (S (World.clock w)))); [discriminate |].
  intros [= <- _].
  cbn [Stats.totalDocuments Stats.documentsByYear Stats.documentsByFile].
  destruct (reported_groups Row.year order_by_year_desc (World.rows w)
              year_order) as [Ty [Ny Iy]].
  destruct (reported_groups Row.filename order_by_count_desc (World.rows w)
              count_order) as [Tf [Nf If]].
  repeat split; try assumption.
  - now apply Iy.
  - now apply If.
Qed.

End Stats.

(** The rows of three letters, the groups in the order they come. *)
Lemma getStats_figures_agree_witness :
  (forall groups, Permutation (ToolInputs.as_grouped groups) groups)
  /\ exists stats w',
      getStats Inputs.no_fault ToolInputs.as_grouped ToolInputs.as_grouped
               (Inputs.scalar_world SearchInputs.three_years)
      = (Ok stats, w')
      /\ Stats.totalDocuments stats = Some 4
      /\ Stats.documentsByYear stats
         = [(lit "1999", Some 1); (lit "2000", Some 2); (lit "2001", Some 1)]
      /\ total_count (Stats.documentsByYear stats) = Stats.totalDocuments stats.
Proof.
  assert (Hp : forall groups : list (jsstring * nat),
             Permutation (ToolInputs.as_grouped groups) groups)
    by (intros groups; apply Permutation_refl).
  split; [exact Hp |].
  eexists. eexists. split; [vm_compute; reflexivity |].
  split; [reflexivity |]. split; [reflexivity |].
  refine (proj1 (proj2 (getStats_figures_agree Inputs.no_fault
                          ToolInputs.as_grouped ToolInputs.as_grouped Hp Hp
                          (Inputs.scalar_world SearchInputs.three_years)
                          _ _ _))).
  vm_compute. reflexivity.
Defined.

End StatsTheorems.

(* ================================================================== *)
(** * The script *)
(* ================================================================== *)

Module ScriptTheorems.

Import Database VectorStore StoreProperties StoreInvariants Tools
  ToolProperties ScriptProperties InvariantTheorems.

Section Script.

Context {num : Type} `{JsNumber num}.

Local Abbreviation row := (Row.t num).
Local Abbreviation world := (World.t num).
Local Abbreviation document := (ProcessedDocument.t num).

Variable fault : nat -> option Error.
Variable order_by_year_desc : list (jsstring * nat) -> list (jsstring * nat).
Variable order_by_count_desc : list (jsstring * nat) -> list (jsstring * nat).

Local Abbreviation getStats :=
  (getStats fault order_by_year_desc order_by_count_desc).
Local Abbreviation main :=
  (main fault order_by_year_desc order_by_count_desc).

Lemma keeps_schema_query (w0 : world) (s : Stmt num) :
  schema_statement s -> keeps (same_rows w0) (query fault s).
Proof.
  intros Hs w Hw. unfold query.
  destruct (fault (World.clock w));
    [destruct s; cbn [schema_statement] in Hs; try contradiction; exact Hw |].
  destruct s; cbn [schema_statement] in Hs; try contradiction;
    cbn [apply_stmt]; try exact Hw;
    destruct (World.table w); exact Hw.
Qed.

Lemma keeps_set_mode (w0 : world) (b : bool) :
  keeps (same_rows w0) (set_useVectorExtension (num := num) b).
Proof. intros w Hw. exact Hw. Qed.

(** [setupVectorDatabase] leaves the rows alone. *)
Lemma setupVectorDatabase_same_rows (w0 : world) :
  keeps (same_rows w0) (setupVectorDatabase fault).
Proof.
  unfold setupVectorDatabase, initialize.
  repeat keeps_step;
    first [ apply keeps_set_mode | apply keeps_get | apply keeps_throw
          | apply keeps_schema_query; exact I ].
Qed.

Lemma ticks_rows (n : nat) (w : world) :
  World.rows (ticks n w) = World.rows w
  /\ World.table (ticks n w) = World.table w.
Proof. induction n as [| n IH]; [now split | exact IH]. Qed.

Lemma getStats_rows (w : world) :
  World.rows (snd (getStats w)) = World.rows w
  /\ World.table (snd (getStats w)) = World.table w.
Proof.
  rewrite StatsTheorems.getStats_unfold.
  destruct (fault (World.clock w)); [apply (ticks_rows 1) |].
  destruct (World.table w) eqn:Ht; [| split; [reflexivity | exact Ht]].
  destruct (fault (S (World.clock w)));
    [split; [reflexivity | exact Ht] |].
  destruct (fault (S (S (World.clock w))));
    split; try reflexivity; exact Ht.
Qed.

Lemma main_unfold (d : document) (documents : list document) (w : world) :
  main (Ok (d :: documents)) w
  = match setupVectorDatabase fault w with
    | (Err _, w1) => (Ok tt, w1)
    | (Ok _, w1) =>
        match storeDocuments fault (d :: documents) w1 with
        | (Err _, w2) => (Ok tt, w2)
        | (Ok _, w2) => (Ok tt, snd (getStats w2))
        end
    end.
Proof.
  unfold Tools.main, try_catch, bind, close, ret. cbn [List.length Nat.eqb].
  destruct (setupVectorDatabase fault w) as [[[] | e1] w1]; [| reflexivity].
  destruct (storeDocuments fault (d :: documents) w1) as [[[] | e2] w2];
    [| reflexivity].
  now destruct (getStats w2) as [[stats | e3] w3].
Qed.

(** X21.  [main] never rejects.  When the processing failed or gave no
    document it does not touch the database: no store is made and no
    statement sent.  Otherwise the table ends with the rows it had or,
    when the store was set up and every document accepted, with the
    upserts of all the documents: a failure of the set-up, of the
    storing or of the statistics never leaves a part of the batch. *)
Theorem main_stores_all_or_nothing (processed : Result (list document))
    (w : world) :
  fst (main processed w) = Ok tt
  /\ ((forall documents, processed = Ok documents -> documents = []) ->
      snd (main processed w) = w)
  /\ (World.txn w = None ->
      forall documents,
        processed = Ok documents ->
        World.rows (snd (main processed w)) = World.rows w
        \/ exists now,
            World.rows (snd (main processed w))
            = fold_left (fun rs d => upsert now d rs) documents (World.rows w)
            /\ Forall (fun d =>
                         accepted (World.table (snd (main processed w))) d
                         = true)
                      documents).
Proof.
  destruct processed as [documents | e].
  2:{ cbn. split; [reflexivity |]. split; [reflexivity |].
      intros _ documents. discriminate. }
  destruct documents as [| d documents].
  { cbn. split; [reflexivity |]. split; [reflexivity |].
    intros _ documents [= <-]. now left. }
  rewrite main_unfold.
  set (batch := d :: documents).
  pose proof (setupVectorDatabase_same_rows w w (conj eq_refl eq_refl))
    as [Hr1 Hx1].
  destruct (setupVectorDatabase fault w) as [[[] | e1] w1] eqn:E1;
    cbn [snd] in Hr1, Hx1.
  2:{ cbn [fst snd]. split; [reflexivity |].
      split; [intros Hn; discriminate (Hn batch eq_refl) |].
      intros _ docs _. now left. }
  destruct (storeDocuments fault batch w1) as [[[] | e2] w2] eqn:E2;
    cbn [fst snd].
  2:{ split; [reflexivity |].
      split; [intros Hn; discriminate (Hn batch eq_refl) |].
      intros Hx docs _. left.
      rewrite Hx in Hx1.
      destruct (StoreTheorems.storeDocuments_outcome fault batch w1 w2
                  (Err e2) Hx1 E2) as [_ [Hrows _]].
      now rewrite Hrows. }
  pose proof (getStats_rows w2) as [Hr3 Ht3].
  split; [reflexivity |].
  split; [intros Hn; discriminate (Hn batch eq_refl) |].
  intros Hx docs [= <-]. right.
  rewrite Hx in Hx1.
  destruct (StoreTheorems.storeDocuments_outcome fault batch w1 w2
              (Ok tt) Hx1 E2) as [Ht2 [Hrows _]].
  exists (S (World.clock w1)). rewrite Hr3, Hrows, Hr1.
  split; [reflexivity |].
  apply Forall_forall. intros d' Hd'. rewrite Ht3, Ht2.
  exact (StoreTheorems.storeDocuments_resolves_accepted fault batch w1 w2
           E2 d' Hd').
Qed.

End Script.

(** Two letters stored in a new database where pgvector is not
    available: the script ends with their two rows. *)
Lemma main_stores_all_or_nothing_witness :
  World.txn (Inputs.empty_world (num := float)) = None
  /\ map Row.id
       (World.rows
          (snd (main (Inputs.fault_at 2) ToolInputs.as_grouped
                     ToolInputs.as_grouped (Ok two_letters)
                     Inputs.empty_world)))
     = [lit "1999.pdf_chunk_0"; lit "2000.pdf_chunk_0"]
  /\ fst (main (Inputs.fault_at 2) ToolInputs.as_grouped
               ToolInputs.as_grouped (Ok two_letters) Inputs.empty_world)
     = Ok tt
  /\ (World.rows
        (snd (main (Inputs.fault_at 2) ToolInputs.as_grouped
                   ToolInputs.as_grouped (Ok two_letters)
                   Inputs.empty_world))
      = World.rows (Inputs.empty_world (num := float))
      \/ exists now,
          World.rows
            (snd (main (Inputs.fault_at 2) ToolInputs.as_grouped
                       ToolInputs.as_grouped (Ok two_letters)
                       Inputs.empty_world))
          = fold_left (fun rs d => upsert now d rs) two_letters
                      (World.rows (Inputs.empty_world (num := float)))
          /\ Forall
               (fun d =>
                  accepted
                    (World.table
                       (snd (main (Inputs.fault_at 2) ToolInputs.as_grouped
                                  ToolInputs.as_grouped (Ok two_letters)
                                  Inputs.empty_world)))
                    d
                  = true)
               two_letters).
Proof.
  split; [reflexivity |]. split; [vm_compute; reflexivity |].
  destruct (main_stores_all_or_nothing (Inputs.fault_at 2)
              ToolInputs.as_grouped ToolInputs.as_grouped (Ok two_letters)
              Inputs.empty_world) as [Hf [_ Hr]].
  split; [exact Hf |]. exact (Hr eq_refl two_letters eq_refl).
Defined.

End ScriptTheorems.

(* ================================================================== *)
(** * The text of a PDF *)
(* ================================================================== *)

Module PdfTextTheorems.

Import PdfText.

Section Extract.

Variable decodeURIComponent : jsstring -> Result jsstring.

Local Abbreviation decode_all := (VectorStore.map_rows decodeURIComponent).

Lemma spaced_app (xs ys : list jsstring) :
  spaced (xs ++ ys) = spaced xs ++ spaced ys.
Proof. unfold spaced. now rewrite map_app, concat_app. Qed.

Lemma decode_all_app (xs ys : list jsstring) :
  decode_all (xs ++ ys)
  = match decode_all xs with
    | Err e => Err e
    | Ok a =>
        match decode_all ys with
        | Err e => Err e
        | Ok b => Ok (a ++ b)
        end
    end.
Proof.
  induction xs as [| x xs IH]; cbn [app VectorStore.map_rows].
  - now destruct (decode_all ys).
  - destruct (decodeURIComponent x); [| reflexivity].
    rewrite IH. destruct (decode_all xs); [| reflexivity].
    now destruct (decode_all ys).
Qed.

Lemma each_run_flat (runs : list jsstring) :
  forall text,
    each_run decodeURIComponent runs text
    = match decode_all runs with
      | Err e => Err e
      | Ok decoded => Ok (text ++ spaced decoded)
      end.
Proof.
  induction runs as [| T runs IH]; intros text;
    cbn [each_run VectorStore.map_rows].
  - unfold spaced. cbn. now rewrite app_nil_r.
  - destruct (decodeURIComponent T) as [s | e]; [| reflexivity].
    rewrite IH. destruct (decode_all runs) as [decoded | e]; [| reflexivity].
    unfold spaced. cbn [map List.concat]. now rewrite <- !app_assoc.
Qed.

Lemma each_text_flat (texts : list (list jsstring)) :
  forall text,
    each_text decodeURIComponent texts text
    = match decode_all (List.concat texts) with
      | Err e => Err e
      | Ok decoded => Ok (text ++ spaced decoded)
      end.
Proof.
  induction texts as [| runs texts IH]; intros text;
    cbn [each_text List.concat].
  - cbn. unfold spaced. cbn. now rewrite app_nil_r.
  - rewrite each_run_flat, decode_all_app.
    destruct (decode_all runs) as [a |]; [| reflexivity].
    rewrite IH. destruct (decode_all (List.concat texts)) as [b |];
      [| reflexivity].
    now rewrite spaced_app, app_assoc.
Qed.

Lemma each_page_flat (pages : list (list (list jsstring))) :
  forall text,
    each_page decodeURIComponent pages text
    = match decode_all (reading_order pages) with
      | Err e => Err e
      | Ok decoded => Ok (text ++ spaced decoded)
      end.
Proof.
  unfold reading_order.
  induction pages as [| texts pages IH]; intros text;
    cbn [each_page List.concat].
  - cbn. unfold spaced. cbn. now rewrite app_nil_r.
  - rewrite each_text_flat, concat_app, decode_all_app.
    destruct (decode_all (List.concat texts)) as [a |]; [| reflexivity].
    rewrite IH.
    destruct (decode_all (List.concat (List.concat pages))) as [b |];
      [| reflexivity].
    now rewrite spaced_app, app_assoc.
Qed.

(** X22.  [extractTextFromPDF] rejects with the parser's error, or with
    what decoding the first run that cannot be decoded throws, the runs
    taken page after page, text after text.  Otherwise it resolves to the
    decoded runs in that order with a space after each, the whole
    trimmed: a text that neither begins nor ends with white space, which
    trimming again does not change. *)
Theorem extractTextFromPDF_reading_order
    (event : Result (list (list (list jsstring)))) :
  extractTextFromPDF decodeURIComponent event
  = match event with
    | Err e => Err e
    | Ok pages =>
        match decode_all (reading_order pages) with
        | Err e => Err e
        | Ok decoded => Ok (trim (spaced decoded))
        end
    end
  /\ forall text,
      extractTextFromPDF decodeURIComponent event = Ok text ->
      trim text = text.
Proof.
  unfold extractTextFromPDF. destruct event as [pages | e].
  - rewrite each_page_flat. cbn [app].
    destruct (decode_all (reading_order pages)) as [decoded | e].
    + split; [reflexivity |]. intros text [= <-].
      apply JsStringFacts.trim_idem.
    + split; [reflexivity | discriminate].
  - split; [reflexivity | discriminate].
Qed.

End Extract.

(** A page of two texts, of two runs and of one. *)
Example extractTextFromPDF_one_page :
  extractTextFromPDF plain (Ok one_page) = Ok (lit "Dear shareholders 1999").
Proof. vm_compute. reflexivity. Qed.

End PdfTextTheorems.

(* ================================================================== *)
(** * The statistics tool *)
(* ================================================================== *)

Module StatsToolTheorems.

Import Database Tools ToolProperties StatsTool.

Section Tool.

Context {num : Type} `{JsNumber num}.

Local Abbreviation row := (Row.t num).
Local Abbreviation world := (World.t num).

Variable fault : nat -> option Error.
Variable order_by_year_desc : list (jsstring * nat) -> list (jsstring * nat).
Variable order_by_count_desc : list (jsstring * nat) -> list (jsstring * nat).

Local Abbreviation getStats :=
  (getStats fault order_by_year_desc order_by_count_desc).
Local Abbreviation getDocumentStats :=
  (getDocumentStats fault order_by_year_desc order_by_count_desc).

Lemma restore_mode_ticks (n : nat) (w : world) (b : bool) :
  with_useVectorExtension (ticks n (with_useVectorExtension w b))
                          (World.useVectorExtension w)
  = ticks n w.
Proof.
  induction n as [| n IH]; cbn [ticks]; [now destruct w |].
  rewrite <- IH. now destruct (ticks n (with_useVectorExtension w b)).
Qed.

(** The tool runs [getStats] on the database and wraps what comes. *)
Lemma getDocumentStats_unfold (w : world) :
  exists n,
    (n <= 3)%nat
    /\ snd (getStats w) = ticks n w
    /\ getDocumentStats w
       = (match fst (getStats w) with
          | Ok stats =>
              Ok {| StatsResponse.success := true;
                    StatsResponse.error := None;
                    StatsResponse.statistics :=
                      Some {| Statistics.totalDocuments :=
                                Stats.totalDocuments stats;
                              Statistics.availableYears :=
                                map fst (Stats.documentsByYear stats);
                              Statistics.yearBreakdown :=
                                Stats.documentsByYear stats;
                              Statistics.fileBreakdown :=
                                Stats.documentsByFile stats;
                              Statistics.dataSource :=
                                lit "Berkshire Hathaway Annual Shareholder Letters" |};
                    StatsResponse.summary :=
                      Some (lit "Database contains "
                            ++ number_text (Stats.totalDocuments stats)
                            ++ lit " document chunks from "
                            ++ of_nat (List.length (Stats.documentsByYear stats))
                            ++ lit " years ("
                            ++ join (map fst (Stats.documentsByYear stats))
                                    (lit ", ")
                            ++ lit ")") |}
          | Err e =>
              Ok {| StatsResponse.success := false;
                    StatsResponse.error := Some e;
                    StatsResponse.statistics := None;
                    StatsResponse.summary := None |}
          end,
          ticks n w).
Proof.
  unfold StatsTool.getDocumentStats, try_catch, new_VectorStore, bind, ret.
  rewrite !StatsTheorems.getStats_unfold.
  cbn [World.clock World.table World.rows with_useVectorExtension].
  destruct (fault (World.clock w)).
  { exists 1%nat. split; [lia |]. split; [reflexivity |].
    cbn [fst]. now rewrite restore_mode_ticks. }
  destruct (World.table w).
  2:{ exists 1%nat. split; [lia |]. split; [reflexivity |].
      cbn [fst]. now rewrite restore_mode_ticks. }
  destruct (fault (S (World.clock w))).
  { exists 2%nat. split; [lia |]. split; [reflexivity |].
    cbn [fst]. now rewrite restore_mode_ticks. }
  destruct (fault (S (S (World.clock w)))).
  { exists 3%nat. split; [lia |]. split; [reflexivity |].
    cbn [fst]. now rewrite restore_mode_ticks. }
  exists 3%nat. split; [lia |]. split; [reflexivity |].
  cbn [fst]. now rewrite restore_mode_ticks.
Qed.

Hypothesis year_order : forall groups,
  Permutation (order_by_year_desc groups) groups.

(** X23.  [getDocumentStats] never rejects and only reads: it sends at
    most three statements and leaves the database as it was.  When it
    succeeds, [totalDocuments] is the number of rows of the table, the
    available years are the years of the rows, each listed once, and the
    summary names that number of chunks, the number of these years and
    the years themselves. *)
Theorem getDocumentStats_reports_years (w : world) :
  exists response n,
    getDocumentStats w = (Ok response, ticks n w)
    /\ (n <= 3)%nat
    /\ (StatsResponse.success response = true ->
        exists statistics,
          StatsResponse.statistics response = Some statistics
          /\ Statistics.totalDocuments statistics
             = Some (Z.of_nat (List.length (World.rows w)))
          /\ NoDup (Statistics.availableYears statistics)
          /\ (forall y,
                 In y (Statistics.availableYears statistics)
                 <-> exists r, In r (World.rows w) /\ Row.year r = y)
          /\ StatsResponse.summary response
             = Some (lit "Database contains "
                     ++ of_nat (List.length (World.rows w))
                     ++ lit " document chunks from "
                     ++ of_nat (List.length
                                  (Statistics.availableYears statistics))
                     ++ lit " years ("
                     ++ join (Statistics.availableYears statistics) (lit ", ")
                     ++ lit ")")).
Proof.
  destruct (getDocumentStats_unfold w) as [n [Hn [_ Hu]]].
  rewrite Hu. clear Hu.
  rewrite StatsTheorems.getStats_unfold.
  destruct (fault (World.clock w));
    [eexists; exists n; split; [reflexivity |];
     split; [exact Hn | discriminate] |].
  destruct (World.table w);
    [| eexists; exists n; split; [reflexivity |];
       split; [exact Hn | discriminate]].
  destruct (fault (S (World.clock w)));
    [eexists; exists n; split; [reflexivity |];
     split; [exact Hn | discriminate] |].
  destruct (fault (S (S (World.clock w))));
    [eexists; exists n; split; [reflexivity |];
     split; [exact Hn | discriminate] |].
  cbn [fst Stats.totalDocuments Stats.documentsByYear Stats.documentsByFile].
  eexists. exists n. split; [reflexivity |]. split; [exact Hn |].
  intros _. eexists.
  cbn [StatsResponse.statistics StatsResponse.summary
       Statistics.totalDocuments Statistics.availableYears].
  split; [reflexivity |]. split; [reflexivity |].
  destruct (StatsTheorems.reported_groups Row.year order_by_year_desc
              (World.rows w) year_order) as [_ [Ny Iy]].
  split; [exact Ny |]. split.
  - intros y. split.
    + intros Hy.
      exact (StatsTheorems.reported_keys Row.year order_by_year_desc
               (World.rows w) y year_order Hy).
    + intros [r [Hr <-]].
      apply (in_map fst _ _ (proj1 (Iy r Hr))).
  - cbn [Statistics.availableYears]. rewrite !length_map.
    unfold number_text.
    replace (Z.of_nat (List.length (World.rows w)) <? 0) with false
      by (symmetry; apply Z.ltb_ge; lia).
    now rewrite Nat2Z.id.
Qed.

End Tool.

(** The rows of three letters. *)
Lemma getDocumentStats_reports_years_witness :
  (forall groups, Permutation (ToolInputs.as_grouped groups) groups)
  /\ exists response n,
      getDocumentStats Inputs.no_fault ToolInputs.as_grouped
        ToolInputs.as_grouped (Inputs.scalar_world SearchInputs.three_years)
      = (Ok response, ticks n (Inputs.scalar_world SearchInputs.three_years))
      /\ StatsResponse.summary response
         = Some (lit "Database contains 4 document chunks from 3 years (1999, 2000, 2001)").
Proof.
  assert (Hp : forall groups : list (jsstring * nat),
             Permutation (ToolInputs.as_grouped groups) groups)
    by (intros groups; apply Permutation_refl).
  split; [exact Hp |].
  destruct (getDocumentStats_reports_years Inputs.no_fault
              ToolInputs.as_grouped ToolInputs.as_grouped Hp
              (Inputs.scalar_world SearchInputs.three_years))
    as [response [n [Hrun _]]].
  exists response, n. split; [exact Hrun |].
  assert (Hc : fst (getDocumentStats Inputs.no_fault ToolInputs.as_grouped
                      ToolInputs.as_grouped
                      (Inputs.scalar_world SearchInputs.three_years))
               = Ok response) by now rewrite Hrun.
  vm_compute in Hc. injection Hc as <-. reflexivity.
Defined.

End StatsToolTheorems.

(* ================================================================== *)
(** * The table [initialize] leaves *)
(* ================================================================== *)

Module InitializeTheorems.

Import Database VectorStore StoreInvariants ScriptProperties
  InvariantTheorems.

Section Initialize.

Context {num : Type} `{JsNumber num}.

Local Abbreviation world := (World.t num).

Variable fault : nat -> option Error.

Lemma initialize_same_rows (w0 : world) :
  keeps (same_rows w0) (initialize fault).
Proof.
  unfold initialize.
  repeat keeps_step;
    first [ apply ScriptTheorems.keeps_set_mode | apply keeps_get
          | apply keeps_throw
          | apply ScriptTheorems.keeps_schema_query; exact I ].
Qed.

(** Between the calls of a store no transaction is open. *)
Lemma reachable_no_open_transaction (w : world) :
  StoreProperties.reachable w -> World.txn w = None.
Proof.
  induction 1 as [| w f Hr IH | w f documents Hr IH
                  | w f scan nearest q limit filters Hr IH].
  - reflexivity.
  - assert (Hk : keeps (same_rows w) (VectorStore.initialize f)).
    { unfold VectorStore.initialize.
      repeat keeps_step;
        first [ apply ScriptTheorems.keeps_set_mode | apply keeps_get
              | apply keeps_throw
              | apply ScriptTheorems.keeps_schema_query; exact I ]. }
    destruct (Hk w (conj eq_refl eq_refl)) as [_ Hx]. now rewrite Hx.
  - destruct (storeDocuments f documents w) as [r w'] eqn:Hs.
    destruct (StoreTheorems.storeDocuments_steps f documents w w' r Hs)
      as [_ Hsteps].
    cbn [snd]. destruct r as [[] | e].
    + now destruct Hsteps as [_ [_ Hx]].
    + destruct Hsteps as [_ [k [e0 [_ [_ [_ Hk]]]]]].
      destruct k as [| k]; [destruct Hk as [_ Hx]; now rewrite Hx |].
      now destruct Hk as [_ Hx].
  - now rewrite RetrievalTheorems.searchSimilar_world.
Qed.

Lemma table_stable (col : ColType) :
  stable (fun w : world => World.table w = Some col).
Proof.
  split; [| split].
  - intros w Hw. exact Hw.
  - intros w b Hw. exact Hw.
  - intros s w w' Hw Ha.
    destruct s; cbn [apply_stmt] in Ha; rewrite ?Hw in Ha;
      try (injection Ha as <-; exact Hw).
    + destruct (World.txn w) as [[b wk] |]; injection Ha as <-; exact Hw.
    + destruct (World.txn w) as [[b wk] |]; injection Ha as <-; exact Hw.
    + destruct (accepts col doc); [| discriminate].
      destruct (World.txn w) as [[b wk] |]; injection Ha as <-; exact Hw.
Qed.

Lemma initialize_creates (w : world) :
  World.table w = None ->
  fst (initialize fault w) = Ok tt ->
  World.table (snd (initialize fault w))
  = Some (if World.useVectorExtension (snd (initialize fault w))
          then VectorCol 1536 else JsonbCol).
Proof.
  destruct w as [mode table rows txn clock]. cbn [World.table].
  intros ->.
  unfold initialize, try_catch, bind, query, get_useVectorExtension,
    set_useVectorExtension, throw.
  cbn.
  destruct (fault clock); cbn; [discriminate |].
  destruct (fault (S clock)); cbn; [discriminate |].
  destruct (fault (S (S clock))); cbn;
    (destruct (fault (S (S (S clock)))); cbn; [discriminate |]);
    (destruct (fault (S (S (S (S clock))))); cbn; [discriminate |]);
    (destruct (fault (S (S (S (S (S clock)))))); cbn; [discriminate |]);
    (destruct (fault (S (S (S (S (S (S clock))))))); cbn; [discriminate |]);
    reflexivity.
Qed.

(** X24.  Whether it resolves or rejects, [initialize] never touches the
    rows, nor an open transaction, and it never replaces a table that
    exists: the embedding column keeps the type it has.  Over a database
    without the table, an [initialize] that resolves leaves the table of
    the mode it chose: [vector(1536)] with pgvector, [JSONB] without. *)
Theorem initialize_keeps_an_existing_table (w : world) :
  World.rows (snd (initialize fault w)) = World.rows w
  /\ World.txn (snd (initialize fault w)) = World.txn w
  /\ (forall col,
         World.table w = Some col ->
         World.table (snd (initialize fault w)) = Some col)
  /\ (World.table w = None ->
      fst (initialize fault w) = Ok tt ->
      World.table (snd (initialize fault w))
      = Some (if World.useVectorExtension (snd (initialize fault w))
              then VectorCol 1536 else JsonbCol)).
Proof.
  destruct (initialize_same_rows w w (conj eq_refl eq_refl)) as [Hr Hx].
  split; [exact Hr |]. split; [exact Hx |]. split.
  - intros col Hc.
    exact (keeps_initialize _ (table_stable col) fault w Hc).
  - apply initialize_creates.
Qed.

End Initialize.

(** Over a new database [initialize] creates the [vector(1536)] column
    when the server has pgvector and the [JSONB] column when the probe
    fails; over the table of three rows it keeps the column and the
    rows. *)
Lemma initialize_keeps_an_existing_table_witness :
  fst (initialize Inputs.no_fault (Inputs.empty_world (num := float))) = Ok tt
  /\ World.useVectorExtension
       (snd (initialize Inputs.no_fault (Inputs.empty_world (num := float))))
     = true
  /\ World.table
       (snd (initialize Inputs.no_fault (Inputs.empty_world (num := float))))
     = Some (VectorCol 1536)
  /\ fst (initialize (Inputs.fault_at 2) (Inputs.empty_world (num := float)))
     = Ok tt
  /\ World.table
       (snd (initialize (Inputs.fault_at 2)
               (Inputs.empty_world (num := float))))
     = Some JsonbCol
  /\ World.table
       (snd (initialize Inputs.no_fault
               (Inputs.vector_world Inputs.three_rows)))
     = Some (VectorCol 1536)
  /\ World.rows
       (snd (initialize Inputs.no_fault
               (Inputs.vector_world Inputs.three_rows)))
     = Inputs.three_rows.
Proof.
  split; [reflexivity |]. split; [reflexivity |].
  split;
    [exact (proj2 (proj2 (proj2 (initialize_keeps_an_existing_table
                                   Inputs.no_fault Inputs.empty_world)))
                  eq_refl eq_refl) |].
  split; [reflexivity |].
  split;
    [exact (proj2 (proj2 (proj2 (initialize_keeps_an_existing_table
                                   (Inputs.fault_at 2) Inputs.empty_world)))
                  eq_refl eq_refl) |].
  split.
  - exact (proj1 (proj2 (proj2 (initialize_keeps_an_existing_table
                                  Inputs.no_fault
                                  (Inputs.vector_world Inputs.three_rows))))
                 (VectorCol 1536) eq_refl).
  - exact (proj1 (initialize_keeps_an_existing_table Inputs.no_fault
                    (Inputs.vector_world Inputs.three_rows))).
Defined.

End InitializeTheorems.

(* ================================================================== *)
(** * The windows of the chunker *)
(* ================================================================== *)

Module WindowTheorems.

Import Chunker ChunkProperties.

Section Windows.

Variables (content : jsstring) (chunkSize overlap : Z).

Hypothesis Hadv : advancing chunkSize overlap.

(** The window of an iteration: it begins at the cursor, is not empty,
    ends within the text, and the next cursor is not beyond its end. *)
Lemma chunk_step_window (start : Z) :
  0 <= start < length content ->
  exists end_,
    snd (chunk_step content chunkSize overlap start)
    = slice content start end_
    /\ start < end_ <= length content
    /\ fst (chunk_step content chunkSize overlap start) <= end_.
Proof.
  destruct Hadv as [Ho [product [Hp Hs]]]. intros Hstart.
  unfold chunk_step. rewrite (ChunkerFacts.past_threshold_integer _ _ _ _ Hp).
  set (e := Z.min (start + chunkSize) (length content)).
  assert (He : start < e <= length content) by (subst e; lia).
  destruct (e <? length content) eqn:Hlt; cbn [fst snd].
  - apply Z.ltb_lt in Hlt.
    set (boundary := Z.max (lastIndexOf (slice content start e) period)
                           (lastIndexOf (slice content start e) newline)).
    assert (Hb : boundary < length (slice content start e)).
    { subst boundary.
      pose proof (IngestionTheorems.lastIndexOf_lt
                    (slice content start e) period).
      pose proof (IngestionTheorems.lastIndexOf_lt
                    (slice content start e) newline). lia. }
    pose proof (IngestionTheorems.slice_length_le content start e) as Hlen.
    destruct (start + product <? boundary) eqn:E; cbn [fst snd].
    + apply Z.ltb_lt in E. exists (boundary + 1).
      split; [reflexivity |]. lia.
    + exists e. split; [reflexivity |]. lia.
  - exists e. split; [reflexivity |]. lia.
Qed.

Lemma windows_cover_from (fuel : nat) :
  forall start,
    0 <= start ->
    length content - start <= Z.of_nat fuel ->
    forall p,
      start <= p < length content ->
      exists s end_,
        In s (chunk_starts fuel content chunkSize overlap start)
        /\ snd (chunk_step content chunkSize overlap s)
           = slice content s end_
        /\ 0 <= s <= p /\ p < end_ <= length content.
Proof.
  induction fuel as [| fuel IH]; intros start H0 Hf p Hp; [lia |].
  cbn [chunk_starts].
  replace (start <? length content) with true
    by (symmetry; apply Z.ltb_lt; lia).
  destruct (chunk_step_window start) as [e [Hw [He Hnext]]]; [lia |].
  pose proof (ChunkerFacts.chunk_step_advances content chunkSize overlap
                Hadv start) as Hgo.
  destruct (Z.lt_ge_cases p e) as [Hin | Hout].
  - exists start, e. split; [now left |]. split; [exact Hw |]. lia.
  - destruct (IH (fst (chunk_step content chunkSize overlap start)))
      with (p := p) as [s [e' [Hs [Hw' Hb]]]]; try lia.
    exists s, e'. split; [now right |]. split; [exact Hw' | exact Hb].
Qed.

(** X25.  The windows leave no gap.  At a chunk size whose product by
    0.7 is an integer in binary64, when the overlap is less than the
    chunk size and no more than that product, every code unit of the
    text lies in the window of one of the iterations of [chunkDocument]:
    what the result lacks of the text is only what trimming takes off a
    window and the windows whose trimmed text has no more than 50
    units. *)
Theorem chunkDocument_windows_cover (p : Z) :
  0 <= p < length content ->
  exists start end_,
    In start (chunk_starts (List.length content) content chunkSize overlap 0)
    /\ snd (chunk_step content chunkSize overlap start)
       = slice content start end_
    /\ 0 <= start <= p /\ p < end_ <= length content.
Proof.
  intros Hp. apply windows_cover_from; unfold length in *; lia.
Qed.

End Windows.

(** The text of 96 units in windows of at most 70 with an overlap of 30:
    the unit at index 80 lies in the second window, which begins at 39
    and ends with the text. *)
Lemma chunkDocument_windows_cover_witness :
  advancing 70 30
  /\ chunk_starts 96 IngestionInputs.letter_text 70 30 0 = [0; 39]
  /\ exists start end_,
      In start (chunk_starts 96 IngestionInputs.letter_text 70 30 0)
      /\ snd (chunk_step IngestionInputs.letter_text 70 30 start)
         = slice IngestionInputs.letter_text start end_
      /\ 0 <= start <= 80 /\ 80 < end_ <= 96.
Proof.
  assert (Ha : advancing 70 30).
  { split; [lia |]. exists 49. split; [vm_compute; reflexivity | lia]. }
  split; [exact Ha |]. split; [vm_compute; reflexivity |].
  apply (chunkDocument_windows_cover IngestionInputs.letter_text 70 30 Ha 80).
  vm_compute. split; [discriminate | reflexivity].
Defined.

End WindowTheorems.

(* ================================================================== *)
(** * The relevance score under the default threshold *)
(* ================================================================== *)

Module RelevanceTheorems.

Import Database VectorStore SimilarityProperties Tools ToolProperties.

(** On binary64, a number that is at least another and not greater is
    equal to it. *)
Lemma float_leb_not_ltb (a b : float) :
  PrimFloat.leb a b = true -> PrimFloat.ltb a b = false ->
  PrimFloat.eqb a b = true.
Proof.
  rewrite leb_spec, ltb_spec, eqb_spec. unfold SFleb, SFltb, SFeqb.
  destruct (SFcompare (Prim2SF a) (Prim2SF b)) as [[| |] |]; congruence.
Qed.

Section Relevance.

Local Abbreviation row := (Row.t float).
Local Abbreviation world := (World.t float).

Variable fault : nat -> option Error.
Variable scan : list row -> list row.
Variable nearest : NearestQuery.t float -> list row -> list (row * float).
Variable embed_query : jsstring -> Result (list float).
Variable Math_round : float -> float.
Variables n0_7 n0_8 n100 : float.

(** X26.  With the default threshold, which is the number the relevance
    score compares with, [vectorSearch] rates ['low'] only a result whose
    similarity is that very number: every result passed
    [similarity >= 0.7], and ['low'] is what is left when
    [similarity > 0.7] fails. *)
Theorem vectorSearch_default_low_is_threshold (query : jsstring)
    (limit : option Z) (year : option jsstring) (w w' : world)
    (response : VectorSearchResponse.t float) :
  truthy n0_7 = true ->
  vectorSearch fault scan nearest embed_query Math_round n0_7 n0_8 n100
               query limit year None w
  = (Ok response, w') ->
  Forall
    (fun r =>
       exists x index,
         r = format_result Math_round n0_7 n0_8 n100 x index
         /\ (FormattedResult.relevanceScore r = low ->
             PrimFloat.eqb n0_7 (SearchResult.similarity x) = true))
    (VectorSearchResponse.results response).
Proof.
  intros Ht Hv.
  pose proof (ToolTheorems.vectorSearch_unfold fault scan nearest embed_query
                Math_round n0_7 n0_8 n100 query limit year None w) as Hu.
  cbn zeta in Hu. rewrite Hu in Hv. clear Hu.
  destruct (embed_query query) as [queryEmbedding | e];
    [| injection Hv as <- _; constructor].
  destruct (scalar_search _ _ _ _ _ _) as [results | e] eqn:Hr;
    [| injection Hv as <- _; constructor].
  injection Hv as <- _. cbn [VectorSearchResponse.results].
  destruct (ToolTheorems.scalar_search_results _ _ _ _ _ _ _ Hr)
    as [_ [_ [Hmin _]]].
  apply Forall_forall. intros r Hin.
  destruct (ToolTheorems.map_index_In _ _ _ _ Hin) as [x [k [Hx ->]]].
  exists x, k. split; [reflexivity |].
  cbn [Tools.format_result FormattedResult.relevanceScore].
  unfold relevance. intros Hlow.
  assert (Hge : num_geb (SearchResult.similarity x) n0_7 = true).
  { apply (Hmin x _ Hx).
    unfold minSimilarity_filter, filters_with. cbn. now rewrite Ht. }
  apply float_leb_not_ltb; [exact Hge |].
  destruct (num_ltb n0_8 (SearchResult.similarity x)); [discriminate |].
  destruct (num_ltb n0_7 (SearchResult.similarity x)) eqn:E;
    [discriminate | exact E].
Qed.

End Relevance.

(** The search over five rows of a [vector(1536)] column: the fifth,
    whose similarity is 7 / 10, passes the threshold and is rated
    ['low']. *)
Lemma vectorSearch_default_low_is_threshold_witness :
  truthy ToolInputs.seven_tenths = true
  /\ exists response w',
      vectorSearch Inputs.no_fault Inputs.as_inserted Inputs.no_answer
        ToolInputs.embed_east ToolInputs.round_binary64
        ToolInputs.seven_tenths ToolInputs.eight_tenths 100%float
        (lit "buy") None None None
        (Inputs.vector_world SearchInputs.rated_rows)
      = (Ok response, w')
      /\ VectorSearchResponse.success response = true
      /\ map (fun r => (FormattedResult.relevanceScore r,
                        PrimFloat.eqb (FormattedResult.similarity r)
                                      ToolInputs.seven_tenths))
             (VectorSearchResponse.results response)
         = [(high, false); (high, false); (medium, false); (low, true)]
      /\ Forall
           (fun r =>
              exists x index,
                r = format_result ToolInputs.round_binary64
                      ToolInputs.seven_tenths ToolInputs.eight_tenths
                      100%float x index
                /\ (FormattedResult.relevanceScore r = low ->
                    PrimFloat.eqb ToolInputs.seven_tenths
                                  (SearchResult.similarity x) = true))
           (VectorSearchResponse.results response).
Proof.
  assert (Ht : truthy ToolInputs.seven_tenths = true) by reflexivity.
  split; [exact Ht |].
  eexists. eexists. split; [vm_compute; reflexivity |].
  split; [reflexivity |].
  split; [vm_compute; reflexivity |].
  refine (vectorSearch_default_low_is_threshold Inputs.no_fault
            Inputs.as_inserted Inputs.no_answer ToolInputs.embed_east
            ToolInputs.round_binary64 ToolInputs.seven_tenths
            ToolInputs.eight_tenths 100%float (lit "buy") None None
            (Inputs.vector_world SearchInputs.rated_rows) _ _ Ht _).
  vm_compute. reflexivity.
Defined.

End RelevanceTheorems.
